(** * LoquacityAI: the streaming conversation session of [SearchPage.tsx]

    A shallow embedding of the parts of [src/components/SearchPage.tsx] and
    [src/services/geminiService.ts] that merge sources and citations,
    drive one question/answer turn, cancel it, persist it and enrich it.

    Conventions.
    - A JavaScript [Map] is an association list in insertion order with
      unique keys: [Map.prototype.set] on a present key replaces the value
      in place, on a fresh key it appends.
    - Strings are [string]; whitespace is the ASCII part of what
      [String.prototype.trim] and the regular expression class [\s] strip.
    - [number] fields that hold character offsets are [Z].
    - [crypto.randomUUID()] is a counter: ids are fresh natural numbers. *)

From Stdlib Require Import List String Ascii ZArith Bool Lia Arith.
From Stdlib Require Import DecimalString.
Import ListNotations.
Local Open Scope string_scope.
Local Open Scope list_scope.

Set Implicit Arguments.

(** ** JavaScript [Map] with string keys *)

Module JsMap.
Section Defs.
Variable V : Type.

Definition t := list (string * V).

Definition empty : t := [].

(** [m.set(k, v)] *)
Fixpoint set (k : string) (v : V) (m : t) : t :=
  match m with
  | [] => [(k, v)]
  | (k', v') :: r =>
      if String.eqb k' k then (k, v) :: r else (k', v') :: set k v r
  end.

(** [m.get(k)] *)
Fixpoint get (k : string) (m : t) : option V :=
  match m with
  | [] => None
  | (k', v') :: r => if String.eqb k' k then Some v' else get k r
  end.

(** [Array.from(m.keys())] and [Array.from(m.values())] *)
Definition keys (m : t) : list string := map fst m.
Definition values (m : t) : list V := map snd m.

(** [m.size] *)
Definition size (m : t) : nat := List.length m.

(** [l.forEach(v => m.set(key(v), v))] *)
Definition setAll (key : V -> string) (l : list V) (m : t) : t :=
  fold_left (fun acc v => set (key v) v acc) l m.

(** The representation invariant of a [Map]: no key occurs twice. *)
Definition wf (m : t) : Prop := NoDup (keys m).
End Defs.
End JsMap.

(** Keys in order of first appearance. *)
Definition pushNew (acc : list string) (k : string) : list string :=
  if existsb (String.eqb k) acc then acc else acc ++ [k].

Definition firstSeen (l : list string) : list string :=
  fold_left pushNew l [].

(** The last element of [l] whose key is [k]. *)
Definition lastWith (V : Type) (key : V -> string) (k : string) (l : list V)
  : option V :=
  find (fun v => String.eqb (key v) k) (rev l).

(** ** Data model ([src/types.ts]) *)

Record Source := { title : string; uri : string }.

Record Citation := {
  startIndex : option Z;
  endIndex : option Z;
  c_uri : string;
  license : option string
}.

Record ComparisonTableData := {
  headers : list string;
  rows : list (list string)
}.

Record ImageSearchResult := {
  imageUrl : string;
  sourceUrl : string;
  i_title : string
}.

(** A field that can be [undefined], [null] or a value. *)
Inductive Opt3 (A : Type) : Type :=
| Undefined
| Null
| Value (a : A).
Arguments Undefined {A}.
Arguments Null {A}.
Arguments Value {A} a.

(** ** Source/citation merge of one chunk (SearchPage.tsx, lines 205, 214) *)

(** Template literal interpolation of an optional integer. *)
Definition showIndex (i : option Z) : string :=
  match i with
  | None => "undefined"
  | Some z => NilZero.string_of_int (Z.to_int z)
  end.

(** [`${c.startIndex}-${c.uri}`] *)
Definition citationKey (c : Citation) : string :=
  (showIndex (startIndex c) ++ "-" ++ c_uri c)%string.

(** What [performSmartSearch] yields. *)
Record StreamChunk := {
  text : option string;
  sources : option (list Source);
  citations : option (list Citation)
}.

(** The accumulators of one turn: [fullText], [sourcesMap], [citationsMap]. *)
Record Acc := {
  fullText : string;
  sourcesMap : JsMap.t Source;
  citationsMap : JsMap.t Citation
}.

Definition emptyAcc : Acc :=
  {| fullText := ""; sourcesMap := JsMap.empty _; citationsMap := JsMap.empty _ |}.

(** [x || ''] on an optional string *)
Definition orEmpty (o : option string) : string :=
  match o with
  | Some s => s
  | None => ""
  end.

Definition mergeSources (o : option (list Source)) (m : JsMap.t Source)
  : JsMap.t Source :=
  match o with
  | Some l => JsMap.setAll uri l m
  | None => m
  end.

Definition mergeCitations (o : option (list Citation)) (m : JsMap.t Citation)
  : JsMap.t Citation :=
  match o with
  | Some l => JsMap.setAll citationKey l m
  | None => m
  end.

(** The body of the [for await] loop of line 205, after the cancellation
    test. *)
Definition mergeChunk (a : Acc) (c : StreamChunk) : Acc :=
  {| fullText := (fullText a ++ orEmpty (text c))%string;
     sourcesMap := mergeSources (sources c) (sourcesMap a);
     citationsMap := mergeCitations (citations c) (citationsMap a) |}.

Definition mergeChunks (cs : list StreamChunk) (a : Acc) : Acc :=
  fold_left mergeChunk cs a.

(** [Array.from(sourcesMap.values())] after a whole stream. *)
Definition mergedSources (cs : list StreamChunk) : list Source :=
  JsMap.values (sourcesMap (mergeChunks cs emptyAcc)).

Definition mergedCitations (cs : list StreamChunk) : list Citation :=
  JsMap.values (citationsMap (mergeChunks cs emptyAcc)).

(** All sources of a chunk sequence, in arrival order. *)
Definition allSources (cs : list StreamChunk) : list Source :=
  flat_map (fun c => match sources c with Some l => l | None => [] end) cs.

Definition allCitations (cs : list StreamChunk) : list Citation :=
  flat_map (fun c => match citations c with Some l => l | None => [] end) cs.

(** ** Strings as JavaScript uses them *)

(** The ASCII members of the white space that [trim] and [\s] recognise. *)
Definition isSpace (c : ascii) : bool :=
  let n := nat_of_ascii c in
  (n =? 32)%nat || ((9 <=? n)%nat && (n <=? 13)%nat).

Fixpoint trimStart (s : string) : string :=
  match s with
  | String c r => if isSpace c then trimStart r else s
  | EmptyString => EmptyString
  end.

Fixpoint revString (s : string) (acc : string) : string :=
  match s with
  | String c r => revString r (String c acc)
  | EmptyString => acc
  end.

Definition trimEnd (s : string) : string :=
  revString (trimStart (revString s "")) "".

(** [s.trim()] *)
Definition trim (s : string) : string := trimEnd (trimStart s).

Definition isEmpty (s : string) : bool :=
  match s with
  | EmptyString => true
  | String _ _ => false
  end.

(** [s.startsWith(p)] *)
Definition startsWith (p s : string) : bool := String.prefix p s.

(** [s.includes(sub)] *)
Fixpoint includes (sub s : string) : bool :=
  String.prefix sub s ||
  match s with
  | String _ r => includes sub r
  | EmptyString => false
  end.

Fixpoint dropChars (n : nat) (s : string) : string :=
  match n, s with
  | S n', String _ r => dropChars n' r
  | _, _ => s
  end.

(** The text after the first occurrence of [sep], if there is one. *)
Fixpoint afterFirst (sep s : string) : option string :=
  if String.prefix sep s then Some (dropChars (String.length sep) s)
  else match s with
       | String _ r => afterFirst sep r
       | EmptyString => None
       end.

(** [s.indexOf(c)] and [s.lastIndexOf(c)] for a single character; [None] is
    the result -1. *)
Fixpoint indexOfChar (c : ascii) (s : string) : option nat :=
  match s with
  | EmptyString => None
  | String d r =>
      if Ascii.eqb c d then Some 0%nat
      else option_map S (indexOfChar c r)
  end.

Fixpoint lastIndexOfChar (c : ascii) (s : string) : option nat :=
  match s with
  | EmptyString => None
  | String d r =>
      match lastIndexOfChar c r with
      | Some i => Some (S i)
      | None => if Ascii.eqb c d then Some 0%nat else None
      end
  end.

(** ** Exceptions *)

(** A thrown value: an [Error] with its message, or anything else. *)
Inductive Thrown : Type :=
| ErrorObj (message : string)
| NotAnError.

Inductive Exc (A : Type) : Type :=
| Ok (a : A)
| Throw (e : Thrown).
Arguments Ok {A} a.
Arguments Throw {A} e.

Definition bindExc (A B : Type) (m : Exc A) (k : A -> Exc B) : Exc B :=
  match m with
  | Ok a => k a
  | Throw e => Throw e
  end.

Notation "x <- m ;; k" := (bindExc m (fun x => k))
  (at level 61, m at next level, right associativity).

(** [try { body } catch (e) { handler(e) }] *)
Definition tryCatch (A : Type) (body : Exc A) (handler : Thrown -> Exc A)
  : Exc A :=
  match body with
  | Ok a => Ok a
  | Throw e => handler e
  end.

(** [TypeError] raised by a property access on [undefined] or [null], or by
    a call of something that is not a function. *)
Definition typeError : Thrown := ErrorObj "TypeError".

(** ** JSON values ([Json] of [src/types.ts]) *)

#[warnings="-register-all"]
Inductive Json : Type :=
| JNull
| JBool (b : bool)
| JNumber (n : Z)
| JString (s : string)
| JArray (items : list Json)
| JObject (fields : list (string * Json)).

(** The platform functions the services call. [JSON.parse] either returns a
    value or throws a [SyntaxError]. *)
Class Builtins := {
  JSON_parse : string -> Exc Json
}.

(** [v.k] on a value that is neither [null] nor [undefined]; [None] is
    [undefined]. Only objects carry the property names used here. *)
Fixpoint lookupField (k : string) (fields : list (string * Json))
  : option Json :=
  match fields with
  | [] => None
  | (k', v) :: r => if String.eqb k' k then Some v else lookupField k r
  end.

Definition getProp (k : string) (v : Json) : option Json :=
  match v with
  | JObject fields => lookupField k fields
  | _ => None
  end.

(** [v?.k] where [v] may be [undefined] or [null] *)
Definition optChain (k : string) (v : option Json) : option Json :=
  match v with
  | None => None
  | Some JNull => None
  | Some j => getProp k j
  end.

(** Truthiness of a possibly undefined value. *)
Definition truthy (v : option Json) : bool :=
  match v with
  | None => false
  | Some JNull => false
  | Some (JBool b) => b
  | Some (JNumber n) => negb (Z.eqb n 0)
  | Some (JString s) => negb (isEmpty s)
  | Some (JArray _) => true
  | Some (JObject _) => true
  end.

Definition showZ (n : Z) : string := NilZero.string_of_int (Z.to_int n).

(** [String(v)], the conversion [new Error(v)] applies to its argument. *)
Fixpoint toStringJs (v : Json) : string :=
  match v with
  | JNull => "null"
  | JBool true => "true"
  | JBool false => "false"
  | JNumber n => showZ n
  | JString s => s
  | JArray items =>
      String.concat ","
        (map (fun i => match i with JNull => "" | _ => toStringJs i end) items)
  | JObject _ => "[object Object]"
  end.

(** ** [handleGeminiError] (geminiService.ts, lines 9-28) *)

(** [v === 'text'] *)
Definition strictEqualsText (v : option Json) (text : string) : bool :=
  match v with
  | Some (JString s) => String.eqb s text
  | _ => false
  end.

Definition unexpectedAiError : string :=
  "An unexpected error occurred while communicating with the AI. Please try again.".

Definition quotaExceededText : string :=
  "API quota exceeded. You've made too many requests recently. Please wait a moment or check your plan and billing details.".

(** The message of the [Error] that [handleGeminiError] returns. *)
Definition handleGeminiError `{Builtins} (error : Thrown) : Thrown :=
  ErrorObj
    match error with
    | ErrorObj message =>
        if isEmpty message then unexpectedAiError
        else
          match JSON_parse message with
          | Ok errorDetails =>
              let err := optChain "error" (Some errorDetails) in
              if strictEqualsText (optChain "status" err) "RESOURCE_EXHAUSTED"
              then quotaExceededText
              else if truthy (optChain "message" err)
                   then match optChain "message" err with
                        | Some m => toStringJs m
                        | None => message
                        end
                   else message
          | Throw _ => message
          end
    | NotAnError => unexpectedAiError
    end.

(** ** The fenced-block regular expression

    [/```(?:json)?\s*([\s\S]*?)\s*```/] applied with [String.prototype.match]:
    the leftmost opening fence, an optional [json] tag, white space, then the
    shortest capture that is followed by optional white space and a closing
    fence. The result is the capture group [match[1]]; [None] when the
    expression does not match. *)

Definition fence : string := "```".

Definition closesHere (s : string) : bool := String.prefix fence (trimStart s).

Fixpoint lazyCapture (s : string) : option string :=
  if closesHere s then Some EmptyString
  else match s with
       | String c r => option_map (String c) (lazyCapture r)
       | EmptyString => None
       end.

Definition matchJsonBlock (s : string) : option string :=
  match afterFirst fence s with
  | None => None
  | Some rest =>
      let rest := if String.prefix "json" rest then dropChars 4 rest else rest in
      lazyCapture (trimStart rest)
  end.

(** [if (match && match[1]) jsonText = match[1].trim()] *)
Definition unwrapFence (jsonText : string) : option string :=
  match matchJsonBlock jsonText with
  | Some m => if isEmpty m then None else Some (trim m)
  | None => None
  end.

(** ** [generateRelatedQueries] (geminiService.ts, lines 417-463)

    [reply] is what [await ai.models.generateContent(...)] does: it throws,
    or it returns a response whose [text] is a string or [undefined]. *)

(** [response.text.trim()] *)
Definition responseText (reply : Exc (option string)) : Exc string :=
  r <- reply ;;
  match r with
  | Some s => Ok (trim s)
  | None => Throw typeError
  end.

(** [Array.isArray(queries) && queries.every(q => typeof q === 'string')] *)
Fixpoint allStrings (items : list Json) : option (list string) :=
  match items with
  | [] => Some []
  | JString s :: r => option_map (cons s) (allStrings r)
  | _ :: _ => None
  end.

Definition asStringArray (v : Json) : option (list string) :=
  match v with
  | JArray items => allStrings items
  | _ => None
  end.

(** [[...new Set(queries)].slice(0, 5)] *)
Definition distinctFirstFive (queries : list string) : list string :=
  firstn 5 (firstSeen queries).

Definition relatedQueriesBody `{Builtins} (reply : Exc (option string))
  : Exc (list string) :=
  jsonText <- responseText reply ;;
  let jsonText :=
    match unwrapFence jsonText with
    | Some inner => inner
    | None => jsonText
    end in
  queries <- JSON_parse jsonText ;;
  match asStringArray queries with
  | Some qs => Ok (distinctFirstFive qs)
  | None => Throw (ErrorObj "AI returned data in an unexpected format.")
  end.

Definition generateRelatedQueries `{Builtins}
    (originalQuery searchResultText : string) (reply : Exc (option string))
  : Exc (list string) :=
  tryCatch (relatedQueriesBody reply) (fun _ => Ok []).

(** ** [fetchImagesForSources] (geminiService.ts, lines 471-545) *)

(** [jsonText.substring(startIndex, endIndex + 1)] between the first '['
    and the last ']', or the empty string. *)
Definition bracketSlice (jsonText : string) : string :=
  match indexOfChar "[" jsonText, lastIndexOfChar "]" jsonText with
  | Some i, Some j =>
      if (i <? j)%nat then String.substring i (j + 1 - i) jsonText
      else EmptyString
  | _, _ => EmptyString
  end.

(** [v.startsWith('http')] on a truthy value [v]. *)
Definition callStartsWithHttp (v : option Json) : Exc bool :=
  match v with
  | Some (JString s) => Ok (startsWith "http" s)
  | _ => Throw typeError
  end.

(** The predicate of [results.filter(...)], with its short-circuits. *)
Definition validImage (r : Json) : Exc bool :=
  match r with
  | JNull => Throw typeError
  | _ =>
      if negb (truthy (getProp "imageUrl" r)) then Ok false
      else if negb (truthy (getProp "sourceUrl" r)) then Ok false
      else if negb (truthy (getProp "title" r)) then Ok false
      else
        a <- callStartsWithHttp (getProp "imageUrl" r) ;;
        if negb a then Ok false
        else callStartsWithHttp (getProp "sourceUrl" r)
  end.

Fixpoint filterExc (A : Type) (p : A -> Exc bool) (l : list A) : Exc (list A) :=
  match l with
  | [] => Ok []
  | x :: r =>
      keep <- p x ;;
      rest <- filterExc p r ;;
      Ok (if keep then x :: rest else rest)
  end.

Definition imagesBody `{Builtins} (reply : Exc (option string))
  : Exc (list Json) :=
  jsonText <- responseText reply ;;
  let parsableText :=
    match unwrapFence jsonText with
    | Some inner => inner
    | None => bracketSlice jsonText
    end in
  if negb (startsWith "[" parsableText) then Ok []
  else
    results <- JSON_parse parsableText ;;
    match results with
    | JArray items => filterExc validImage items
    | _ => Throw (ErrorObj "AI returned data that parsed to JSON but was not an array.")
    end.

Definition fetchImagesForSources `{Builtins}
    (query : string) (sources : list Source) (reply : Exc (option string))
  : Exc (list Json) :=
  if isEmpty (trim query) || (List.length sources =? 0)%nat then Ok []
  else tryCatch (imagesBody reply) (fun _ => Ok []).

(** ** The session state of [SearchPage]

    The component is modelled as a state machine. A state holds the React
    state of the page, the [isRequestCancelled] ref, and the invocations of
    [handleSendMessage] that are suspended at an [await]; an event is a user
    action or something the environment delivers to a suspended invocation
    (a chunk, the end or the failure of a stream, the result of the insert,
    the result of an enrichment task). Each event runs the code up to the
    next suspension.

    Left out: the personalization text and the inline file data sent to the
    model, the workspace summary refresh, and the presentational state
    (popovers, sidebar). The [await toBase64(...)] that precedes the stream
    of a submission with a file is folded into the opening of the stream. *)

Inductive ModelType : Type := gemini | mistral.
Inductive Role : Type := RoleUser | RoleModel.
Inductive View : Type := ViewChat | ViewHistory | ViewWorkspaces.

Definition isGemini (m : ModelType) : bool :=
  match m with
  | gemini => true
  | mistral => false
  end.

(** The browser [File] chosen by the user. *)
Record File := { file_name : string; file_type : string; file_size : Z }.

(** [ChatMessage.file] *)
Record FileRef := { name : string; type : string; previewUrl : string }.

Record ChatMessage := {
  id : nat;
  role : Role;
  content : string;
  m_sources : option (list Source);
  m_citations : option (list Citation);
  table : Opt3 ComparisonTableData;
  file : option FileRef;
  images : Opt3 (list ImageSearchResult)
}.

(** The row sent to [supabase.from('search_history').insert]. *)
Record HistoryRow := {
  h_query : string;
  h_answer : string;
  h_sources : list Source;
  is_deep_research : bool;
  workspace_id : option string
}.

(** A stored row as the database returns it. *)
Record SearchHistoryItem := { item_id : nat; item_row : HistoryRow }.

(** The SDK chat handle that [startChat] returns, seeded with one exchange. *)
Record Chat := { seedQuery : string; seedAnswer : string; chatDeep : bool }.

(** One element of [groundingMetadata.groundingChunks]: its [web] part. *)
Record Web := { w_uri : option string; w_title : option string }.

(** One response of the SDK stream. *)
Record RawChunk := {
  r_text : option string;
  groundingChunks : option (list (option Web));
  r_citations : option (list Citation)
}.

(** [.map(c => c.web).filter(w => w?.uri && w?.title)
     .map(w => ({ title: w.title, uri: w.uri }))] *)
Fixpoint toSources (l : list (option Web)) : list Source :=
  match l with
  | [] => []
  | Some {| w_uri := Some u; w_title := Some ti |} :: r =>
      if isEmpty u || isEmpty ti then toSources r
      else {| title := ti; uri := u |} :: toSources r
  | _ :: r => toSources r
  end.

(** What [performSmartSearch] yields for one response (lines 180-195). *)
Definition yieldOf (c : RawChunk) : StreamChunk :=
  {| text := r_text c;
     sources := option_map toSources (groundingChunks c);
     citations := r_citations c |}.

(** [fullText += chunk.text] without a default: [undefined] is appended as
    the text "undefined" (line 214). *)
Definition orUndefinedText (o : option string) : string :=
  match o with
  | Some s => s
  | None => "undefined"
  end.

(** The loop body of the continuation path (line 214). *)
Definition mergeRaw (a : Acc) (c : RawChunk) : Acc :=
  {| fullText := (fullText a ++ orUndefinedText (r_text c))%string;
     sourcesMap := mergeSources (option_map toSources (groundingChunks c))
                     (sourcesMap a);
     citationsMap :=
       match r_citations c with
       | Some (x :: l) => JsMap.setAll citationKey (x :: l) (citationsMap a)
       | _ => citationsMap a
       end |}.

(** The loop body of the Mistral path (line 198). *)
Definition mergeText (a : Acc) (c : RawChunk) : Acc :=
  {| fullText := (fullText a ++ orEmpty (r_text c))%string;
     sourcesMap := sourcesMap a;
     citationsMap := citationsMap a |}.

Inductive Phase : Type :=
| Streaming   (* suspended in [for await] *)
| Inserting.  (* suspended in [await supabase...insert] *)

(** The locals of one invocation of [handleSendMessage] that has not
    returned yet. *)
Record Call := {
  modelMessageId : nat;
  query : string;
  callModel : ModelType;
  isNewChat : bool;
  callDeep : bool;
  callWorkspace : option string;
  acc : Acc;
  phase : Phase
}.

(** React state, the [isRequestCancelled] ref, and the bookkeeping of the
    asynchronous work in flight. *)
Record State := mkState {
  isLoading : bool;
  error : option string;
  history : list SearchHistoryItem;
  activeChat : option Chat;
  chatMessages : list ChatMessage;
  fileState : option File;
  filePreview : option string;
  relatedQueries : list string;
  isRelatedLoading : bool;
  activeView : View;
  selectedWorkspace : option string;
  isDeepResearchMode : bool;
  activeModel : ModelType;
  isRequestCancelled : bool;
  nextId : nat;
  calls : list Call;
  pendingImages : list nat;
  pendingRelated : list nat;
  insertLog : list HistoryRow
}.

Definition initialState : State :=
  mkState false None [] None [] None None [] false ViewChat None false gemini
          false 0 [] [] [] [].

Definition setIsLoading (x : bool) (s : State) : State :=
  let '(mkState _ b c d e f g h i j k l m n o p q r u) := s in
  mkState x b c d e f g h i j k l m n o p q r u.
Definition setError (x : option string) (s : State) : State :=
  let '(mkState a _ c d e f g h i j k l m n o p q r u) := s in
  mkState a x c d e f g h i j k l m n o p q r u.
Definition setHistory (x : list SearchHistoryItem) (s : State) : State :=
  let '(mkState a b _ d e f g h i j k l m n o p q r u) := s in
  mkState a b x d e f g h i j k l m n o p q r u.
Definition setActiveChat (x : option Chat) (s : State) : State :=
  let '(mkState a b c _ e f g h i j k l m n o p q r u) := s in
  mkState a b c x e f g h i j k l m n o p q r u.
Definition setChatMessages (x : list ChatMessage) (s : State) : State :=
  let '(mkState a b c d _ f g h i j k l m n o p q r u) := s in
  mkState a b c d x f g h i j k l m n o p q r u.
Definition setFile (x : option File) (s : State) : State :=
  let '(mkState a b c d e _ g h i j k l m n o p q r u) := s in
  mkState a b c d e x g h i j k l m n o p q r u.
Definition setFilePreview (x : option string) (s : State) : State :=
  let '(mkState a b c d e f _ h i j k l m n o p q r u) := s in
  mkState a b c d e f x h i j k l m n o p q r u.
Definition setRelatedQueries (x : list string) (s : State) : State :=
  let '(mkState a b c d e f g _ i j k l m n o p q r u) := s in
  mkState a b c d e f g x i j k l m n o p q r u.
Definition setIsRelatedLoading (x : bool) (s : State) : State :=
  let '(mkState a b c d e f g h _ j k l m n o p q r u) := s in
  mkState a b c d e f g h x j k l m n o p q r u.
Definition setActiveView (x : View) (s : State) : State :=
  let '(mkState a b c d e f g h i _ k l m n o p q r u) := s in
  mkState a b c d e f g h i x k l m n o p q r u.
Definition setSelectedWorkspace (x : option string) (s : State) : State :=
  let '(mkState a b c d e f g h i j _ l m n o p q r u) := s in
  mkState a b c d e f g h i j x l m n o p q r u.
Definition setIsDeepResearchMode (x : bool) (s : State) : State :=
  let '(mkState a b c d e f g h i j k _ m n o p q r u) := s in
  mkState a b c d e f g h i j k x m n o p q r u.
Definition setActiveModel (x : ModelType) (s : State) : State :=
  let '(mkState a b c d e f g h i j k l _ n o p q r u) := s in
  mkState a b c d e f g h i j k l x n o p q r u.
Definition setIsRequestCancelled (x : bool) (s : State) : State :=
  let '(mkState a b c d e f g h i j k l m _ o p q r u) := s in
  mkState a b c d e f g h i j k l m x o p q r u.
Definition setNextId (x : nat) (s : State) : State :=
  let '(mkState a b c d e f g h i j k l m n _ p q r u) := s in
  mkState a b c d e f g h i j k l m n x p q r u.
Definition setCalls (x : list Call) (s : State) : State :=
  let '(mkState a b c d e f g h i j k l m n o _ q r u) := s in
  mkState a b c d e f g h i j k l m n o x q r u.
Definition setPendingImages (x : list nat) (s : State) : State :=
  let '(mkState a b c d e f g h i j k l m n o p _ r u) := s in
  mkState a b c d e f g h i j k l m n o p x r u.
Definition setPendingRelated (x : list nat) (s : State) : State :=
  let '(mkState a b c d e f g h i j k l m n o p q _ u) := s in
  mkState a b c d e f g h i j k l m n o p q x u.
Definition setInsertLog (x : list HistoryRow) (s : State) : State :=
  let '(mkState a b c d e f g h i j k l m n o p q r _) := s in
  mkState a b c d e f g h i j k l m n o p q r x.

(** Collaborators whose code is not part of the sources: the translation
    function [t] of the localization context, and
    [extractAndParseMarkdownTable] of [utils/markdownParser]. *)
Class Collaborators := {
  t : string -> string;
  extractAndParseMarkdownTable : string -> string * option ComparisonTableData
}.

(** *** Suspended calls *)

Definition findCall (i : nat) (cs : list Call) : option Call :=
  find (fun c => Nat.eqb (modelMessageId c) i) cs.

Definition removeCall (i : nat) (cs : list Call) : list Call :=
  filter (fun c => negb (Nat.eqb (modelMessageId c) i)) cs.

Definition replaceCall (c' : Call) (cs : list Call) : list Call :=
  map (fun c => if Nat.eqb (modelMessageId c) (modelMessageId c') then c' else c)
      cs.

Definition withAcc (a : Acc) (c : Call) : Call :=
  {| modelMessageId := modelMessageId c; query := query c;
     callModel := callModel c; isNewChat := isNewChat c;
     callDeep := callDeep c; callWorkspace := callWorkspace c;
     acc := a; phase := phase c |}.

Definition withPhase (p : Phase) (c : Call) : Call :=
  {| modelMessageId := modelMessageId c; query := query c;
     callModel := callModel c; isNewChat := isNewChat c;
     callDeep := callDeep c; callWorkspace := callWorkspace c;
     acc := acc c; phase := p |}.

Definition isStreaming (c : Call) : bool :=
  match phase c with
  | Streaming => true
  | Inserting => false
  end.

(** [prev.map(msg => msg.id === modelMessageId ? f(msg) : msg)] *)
Definition patchMessage (i : nat) (f : ChatMessage -> ChatMessage)
    (l : list ChatMessage) : list ChatMessage :=
  map (fun msg => if Nat.eqb (id msg) i then f msg else msg) l.

Definition withStreamed (a : Acc) (msg : ChatMessage) : ChatMessage :=
  {| id := id msg; role := role msg; content := fullText a;
     m_sources := Some (JsMap.values (sourcesMap a));
     m_citations := Some (JsMap.values (citationsMap a));
     table := table msg; file := file msg; images := images msg |}.

Definition withContent (s : string) (msg : ChatMessage) : ChatMessage :=
  {| id := id msg; role := role msg; content := s;
     m_sources := m_sources msg; m_citations := m_citations msg;
     table := table msg; file := file msg; images := images msg |}.

Definition withFinal (s : string) (tb : option ComparisonTableData)
    (msg : ChatMessage) : ChatMessage :=
  {| id := id msg; role := role msg; content := s;
     m_sources := m_sources msg; m_citations := m_citations msg;
     table := match tb with Some x => Value x | None => Null end;
     file := file msg; images := images msg |}.

Definition withImages (x : Opt3 (list ImageSearchResult)) (msg : ChatMessage)
  : ChatMessage :=
  {| id := id msg; role := role msg; content := content msg;
     m_sources := m_sources msg; m_citations := m_citations msg;
     table := table msg; file := file msg; images := x |}.

(** The [finally] block: [setIsLoading(false)], and the call is over. *)
Definition finish (i : nat) (s : State) : State :=
  setIsLoading false (setCalls (removeCall i (calls s)) s).

(** *** Handlers *)

(** [handleStop] (line 108) *)
Definition handleStop (s : State) : State :=
  setIsLoading false (setIsRequestCancelled true s).

(** [resetChatState] (lines 132-136) *)
Definition resetChatState (s : State) : State :=
  setIsRelatedLoading false
    (setRelatedQueries []
       (setFilePreview None
          (setFile None
             (setChatMessages []
                (setActiveChat None (setError None (setIsLoading false s))))))).

(** [handleNewChat] (lines 138-144) *)
Definition handleNewChat (s : State) : State :=
  setActiveView ViewChat
    (setIsDeepResearchMode false (setSelectedWorkspace None (resetChatState s))).

(** [handleModelChange] (line 254) *)
Definition handleModelChange (m : ModelType) (s : State) : State :=
  let s1 := setActiveModel m s in
  let s2 := if negb (isGemini m) && isDeepResearchMode s
            then setIsDeepResearchMode false s1 else s1 in
  match chatMessages s with
  | [] => s2
  | _ :: _ => handleNewChat s2
  end.

(** [handleFileChange] (line 249); the preview is what the reader or the
    file name provides. *)
Definition handleFileChange `{Collaborators} (f : File) (preview : string)
    (s : State) : State :=
  if (4 * 1024 * 1024 <? file_size f)%Z
  then setError (Some (t "search.error.fileTooLarge")) s
  else setFilePreview (Some preview) (setFile (Some f) s).

(** Line 189: does this submission begin a new session? *)
Definition beginsNewSession (s : State) : bool :=
  match activeModel s with
  | mistral => match chatMessages s with [] => true | _ :: _ => false end
  | gemini => match activeChat s with None => true | Some _ => false end
  end.

(** Line 183: the guard of [handleSendMessage]. *)
Definition rejectsSubmission (q : string) (s : State) : bool :=
  isLoading s ||
  (isEmpty (trim q) && match fileState s with None => true | Some _ => false end).

(** [handleSendMessage] up to its first suspension inside the stream
    (lines 183-205): the guard, the two new messages, and the call that now
    waits for chunks. *)
Definition handleSendMessage (q : string) (s : State) : State :=
  if rejectsSubmission q s then s
  else
    let userId := nextId s in
    let modelId := S userId in
    let isNew := beginsNewSession s in
    let userMessage :=
      {| id := userId; role := RoleUser; content := q;
         m_sources := None; m_citations := None; table := Undefined;
         file := match fileState s, activeModel s with
                 | Some f, gemini =>
                     Some {| name := file_name f; type := file_type f;
                             previewUrl := orEmpty (filePreview s) |}
                 | _, _ => None
                 end;
         images := Undefined |} in
    let placeholder :=
      {| id := modelId; role := RoleModel; content := "";
         m_sources := Some []; m_citations := Some []; table := Null;
         file := None;
         images := if isNew && isGemini (activeModel s)
                   then Null else Undefined |} in
    let call :=
      {| modelMessageId := modelId; query := q; callModel := activeModel s;
         isNewChat := isNew; callDeep := isDeepResearchMode s;
         callWorkspace := selectedWorkspace s; acc := emptyAcc;
         phase := Streaming |} in
    let s1 := setActiveView ViewChat
                (setError None (setIsLoading true
                   (setIsRequestCancelled false s))) in
    let s2 := setChatMessages (chatMessages s ++ [userMessage; placeholder]) s1 in
    let s3 := setFilePreview None (setFile None s2) in
    let s4 := if isGemini (activeModel s) && isNew
              then setRelatedQueries [] s3 else s3 in
    setCalls (calls s ++ [call]) (setNextId (S modelId) s4).

(** One iteration of the [for await] loop of the call [i] (lines 198, 205,
    214): the cancellation test, then the merge and the patch of the visible
    message. After [break] every path reaches a [return] and the [finally]
    block with the flag unchanged. *)
Definition onChunk (i : nat) (c : RawChunk) (s : State) : State :=
  match findCall i (calls s) with
  | Some call =>
      match phase call with
      | Streaming =>
          if isRequestCancelled s then finish i s
          else
            match callModel call with
            | mistral =>
                let a := mergeText (acc call) c in
                setChatMessages
                  (patchMessage i (withContent (fullText a)) (chatMessages s))
                  (setCalls (replaceCall (withAcc a call) (calls s)) s)
            | gemini =>
                let a := if isNewChat call
                         then mergeChunk (acc call) (yieldOf c)
                         else mergeRaw (acc call) c in
                setChatMessages
                  (patchMessage i (withStreamed a) (chatMessages s))
                  (setCalls (replaceCall (withAcc a call) (calls s)) s)
            end
      | Inserting => s
      end
  | None => s
  end.

(** [finalSources] (lines 194, 216) *)
Definition finalSources (call : Call) : list Source :=
  match callModel call with
  | gemini => JsMap.values (sourcesMap (acc call))
  | mistral => []
  end.

Definition historyRowOf `{Collaborators} (call : Call) : HistoryRow :=
  {| h_query := if isEmpty (query call) then t "search.fileAnalysis"
                else query call;
     h_answer := fullText (acc call);
     h_sources := finalSources call;
     is_deep_research := callDeep call;
     workspace_id := callWorkspace call |}.

(** Lines 207-210: the enrichment tasks are started and the chat handle is
    created. *)
Definition launchEnrichment (call : Call) (s : State) : State :=
  setActiveChat
    (Some {| seedQuery := query call; seedAnswer := fullText (acc call);
             chatDeep := callDeep call |})
    (setPendingRelated (pendingRelated s ++ [modelMessageId call])
       (setIsRelatedLoading true
          (setPendingImages (pendingImages s ++ [modelMessageId call]) s))).

(** The stream of the call [i] ends (lines 206-224, up to the suspension in
    the insert). *)
Definition onStreamEnd `{Collaborators} (i : nat) (s : State) : State :=
  match findCall i (calls s) with
  | Some call =>
      match phase call with
      | Streaming =>
          if isRequestCancelled s then finish i s
          else
            let s1 := if isGemini (callModel call) && isNewChat call
                      then launchEnrichment call s else s in
            let '(remainingText, tb) :=
              extractAndParseMarkdownTable (fullText (acc call)) in
            let s2 := setChatMessages
                        (patchMessage i (withFinal remainingText tb)
                           (chatMessages s1)) s1 in
            if isNewChat call
            then setCalls (replaceCall (withPhase Inserting call) (calls s2))
                   (setInsertLog (insertLog s2 ++ [historyRowOf call]) s2)
            else finish i s2
      | Inserting => s
      end
  | None => s
  end.

(** The insert settles (line 223) and the [finally] block runs. *)
Definition onInsertSettled (i : nat) (data : option SearchHistoryItem)
    (s : State) : State :=
  match findCall i (calls s) with
  | Some call =>
      match phase call with
      | Inserting =>
          finish i match data with
                   | Some item => setHistory (item :: history s) s
                   | None => s
                   end
      | Streaming => s
      end
  | None => s
  end.

(** What reaches the [catch] of [handleSendMessage]: the streams opened by
    [performSmartSearch] and [callMistral] rethrow through
    [handleGeminiError]; the stream of [activeChat.sendMessageStream] does
    not. *)
Definition thrownToCaller `{Builtins} (call : Call) (raw : Thrown) : Thrown :=
  match callModel call, isNewChat call with
  | gemini, false => raw
  | _, _ => handleGeminiError raw
  end.

(** [(e as Error).message || t('search.error.unexpected')] *)
Definition errorMessageOf `{Collaborators} (e : Thrown) : string :=
  match e with
  | ErrorObj m => if isEmpty m then t "search.error.unexpected" else m
  | NotAnError => t "search.error.unexpected"
  end.

(** Line 228 *)
Definition surfaced `{Collaborators} (errorMessage : string) : string :=
  if includes "API quota exceeded" errorMessage
  then t "search.error.quotaExceeded" else errorMessage.

(** The stream of the call [i] throws (lines 225-230). *)
Definition onStreamError `{Builtins} `{Collaborators} (i : nat) (raw : Thrown)
    (s : State) : State :=
  match findCall i (calls s) with
  | Some call =>
      match phase call with
      | Streaming =>
          if isRequestCancelled s then finish i s
          else
            let errorMessage := errorMessageOf (thrownToCaller call raw) in
            finish i
              (setChatMessages
                 (filter (fun msg => negb (Nat.eqb (id msg) i)) (chatMessages s))
                 (setError (Some (surfaced errorMessage)) s))
      | Inserting => s
      end
  | None => s
  end.

Definition removeId (i : nat) (l : list nat) : list nat :=
  filter (fun j => negb (Nat.eqb j i)) l.

(** The [then] callback of [fetchImagesForSources] (line 207). *)
Definition onImages (i : nat) (imgs : list ImageSearchResult) (s : State)
  : State :=
  if existsb (Nat.eqb i) (pendingImages s) then
    let s1 := setPendingImages (removeId i (pendingImages s)) s in
    if isRequestCancelled s then s1
    else setChatMessages
           (patchMessage i (withImages (Value imgs)) (chatMessages s1)) s1
  else s.

(** The [then] and [finally] callbacks of [generateRelatedQueries]
    (line 208). *)
Definition onRelated (i : nat) (queries : list string) (s : State) : State :=
  if existsb (Nat.eqb i) (pendingRelated s) then
    let s1 := setPendingRelated (removeId i (pendingRelated s)) s in
    if isRequestCancelled s then s1
    else setIsRelatedLoading false (setRelatedQueries queries s1)
  else s.

(** *** Events and runs *)

Inductive Event : Type :=
| Submit (q : string)
| Stop
| NewChat
| ChangeModel (m : ModelType)
| SelectFile (f : File) (preview : string)
| Chunk (i : nat) (c : RawChunk)
| StreamEnd (i : nat)
| StreamError (i : nat) (raw : Thrown)
| InsertSettled (i : nat) (data : option SearchHistoryItem)
| ImagesArrived (i : nat) (imgs : list ImageSearchResult)
| RelatedArrived (i : nat) (queries : list string).

Definition step `{Builtins} `{Collaborators} (s : State) (e : Event) : State :=
  match e with
  | Submit q => handleSendMessage q s
  | Stop => handleStop s
  | NewChat => handleNewChat s
  | ChangeModel m => handleModelChange m s
  | SelectFile f preview => handleFileChange f preview s
  | Chunk i c => onChunk i c s
  | StreamEnd i => onStreamEnd i s
  | StreamError i raw => onStreamError i raw s
  | InsertSettled i data => onInsertSettled i data s
  | ImagesArrived i imgs => onImages i imgs s
  | RelatedArrived i queries => onRelated i queries s
  end.

Definition run `{Builtins} `{Collaborators} (es : list Event) (s : State)
  : State :=
  fold_left step es s.

(** The block of related queries as the page renders it (lines 282,
    307-310): [None] when nothing is shown. *)
Definition renderedRelatedQueries (s : State) : option (list string) :=
  if (1 <? List.length (chatMessages s))%nat
     && negb (isLoading s)
     && isGemini (activeModel s)
     && match activeChat s with Some _ => true | None => false end
     && negb (isRelatedLoading s)
     && negb (match relatedQueries s with [] => true | _ :: _ => false end)
  then Some (relatedQueries s) else None.

Definition contentOf (i : nat) (s : State) : option string :=
  option_map content (find (fun msg => Nat.eqb (id msg) i) (chatMessages s)).

(** The calls whose stream loop is still running. *)
Definition streamingCalls (s : State) : list Call :=
  filter isStreaming (calls s).

(** ** The table extractor *)

Module MarkdownParser.

Definition reverse (s : string) : string := revString s EmptyString.

(** The text before and after the first occurrence of [sep]. *)
Fixpoint splitFirst (sep s : string) : option (string * string) :=
  if String.prefix sep s
  then Some (EmptyString, dropChars (String.length sep) s)
  else match s with
       | String c r =>
           match splitFirst sep r with
           | Some (before, after) => Some (String c before, after)
           | None => None
           end
       | EmptyString => None
       end.

(** Modelled from the spec: [utils/markdownParser.ts] is not among the
    sources. A trailing fenced block: the text, up to white space, ends
    with a closing fence; the block opens at the last fence before it and
    may carry the tag [json]. The result is the prose before the block and
    the body of the block. *)
Definition trailingFence (fullText : string) : option (string * string) :=
  let r := trimStart (reverse fullText) in
  if String.prefix fence r then
    match splitFirst fence (dropChars 3 r) with
    | Some (rinner, rprose) =>
        let inner := reverse rinner in
        let inner := if String.prefix "json" inner
                     then dropChars 4 inner else inner in
        Some (reverse rprose, trim inner)
    | None => None
    end
  else None.

Fixpoint allStringRows (items : list Json) : option (list (list string)) :=
  match items with
  | [] => Some []
  | JArray row :: r =>
      match allStrings row, allStringRows r with
      | Some x, Some xs => Some (x :: xs)
      | _, _ => None
      end
  | _ :: _ => None
  end.

(** Modelled from the spec: the shape [{text, table: {headers, rows}}]. *)
Definition asTablePayload (v : Json)
  : option (string * ComparisonTableData) :=
  match getProp "text" v, getProp "table" v with
  | Some (JString txt), Some tb =>
      match getProp "headers" tb, getProp "rows" tb with
      | Some (JArray hs), Some (JArray rs) =>
          match allStrings hs, allStringRows rs with
          | Some h, Some r => Some (txt, {| headers := h; rows := r |})
          | _, _ => None
          end
      | _, _ => None
      end
  | _, _ => None
  end.

(** Modelled from the spec: the body of the extractor, before its failures
    are turned into "no table". *)
Definition extractBody `{Builtins} (fullText : string)
  : Exc (string * option ComparisonTableData) :=
  match trailingFence fullText with
  | None => Ok (fullText, None)
  | Some (prose, body) =>
      parsed <- JSON_parse body ;;
      match asTablePayload parsed with
      | Some (txt, tb) => Ok (if isEmpty txt then prose else txt, Some tb)
      | None => Ok (fullText, None)
      end
  end.

(** Modelled from the spec: [extractAndParseMarkdownTable] of
    [utils/markdownParser.ts], section 4.3: the text field and the table
    of a well-formed trailing block, the prose before the block when the
    text field is empty, and the original text with no table when there is
    no such block or its JSON does not parse. *)
Definition extractAndParseMarkdownTable `{Builtins} (fullText : string)
  : Exc (string * option ComparisonTableData) :=
  tryCatch (extractBody fullText) (fun _ => Ok (fullText, None)).

End MarkdownParser.

(** ** A small JSON reader

    An instance of [JSON_parse] on which the definitions above can be run:
    objects, arrays, strings with the simple escapes, integers and the three
    literals. *)

Module MiniJson.

Definition dquote : ascii := ascii_of_nat 34.
Definition backslash : ascii := ascii_of_nat 92.

Definition unescape (c : ascii) : option ascii :=
  if Ascii.eqb c dquote then Some dquote
  else if Ascii.eqb c backslash then Some backslash
  else if Ascii.eqb c "/" then Some "/"%char
  else if Ascii.eqb c "n" then Some (ascii_of_nat 10)
  else if Ascii.eqb c "t" then Some (ascii_of_nat 9)
  else if Ascii.eqb c "r" then Some (ascii_of_nat 13)
  else None.

(** The rest of a string literal after its opening quote. *)
Fixpoint stringBody (s : string) : option (string * string) :=
  match s with
  | EmptyString => None
  | String c r =>
      if Ascii.eqb c dquote then Some (EmptyString, r)
      else if Ascii.eqb c backslash then
        match r with
        | String e r' =>
            match unescape e, stringBody r' with
            | Some ch, Some (body, rest) => Some (String ch body, rest)
            | _, _ => None
            end
        | EmptyString => None
        end
      else
        match stringBody r with
        | Some (body, rest) => Some (String c body, rest)
        | None => None
        end
  end.

Definition digitOf (c : ascii) : option Z :=
  let n := nat_of_ascii c in
  if (48 <=? n)%nat && (n <=? 57)%nat then Some (Z.of_nat (n - 48)) else None.

Fixpoint digits (seen : bool) (value : Z) (s : string) : option (Z * string) :=
  match s with
  | String c r =>
      match digitOf c with
      | Some d => digits true (10 * value + d)%Z r
      | None => if seen then Some (value, s) else None
      end
  | EmptyString => if seen then Some (value, s) else None
  end.

Fixpoint value (fuel : nat) (s : string) : option (Json * string) :=
  match fuel with
  | O => None
  | S fuel' =>
      match trimStart s with
      | EmptyString => None
      | String c r as s' =>
          if Ascii.eqb c dquote then
            match stringBody r with
            | Some (body, rest) => Some (JString body, rest)
            | None => None
            end
          else if Ascii.eqb c "[" then
            match trimStart r with
            | String "]" rest => Some (JArray [], rest)
            | _ =>
                match elements fuel' r with
                | Some (items, rest) => Some (JArray items, rest)
                | None => None
                end
            end
          else if Ascii.eqb c "{" then
            match trimStart r with
            | String "}" rest => Some (JObject [], rest)
            | _ =>
                match members fuel' r with
                | Some (fields, rest) => Some (JObject fields, rest)
                | None => None
                end
            end
          else if String.prefix "true" s' then Some (JBool true, dropChars 4 s')
          else if String.prefix "false" s' then Some (JBool false, dropChars 5 s')
          else if String.prefix "null" s' then Some (JNull, dropChars 4 s')
          else if Ascii.eqb c "-" then
            match digits false 0 r with
            | Some (n, rest) => Some (JNumber (- n), rest)
            | None => None
            end
          else
            match digits false 0 s' with
            | Some (n, rest) => Some (JNumber n, rest)
            | None => None
            end
      end
  end

with elements (fuel : nat) (s : string) : option (list Json * string) :=
  match fuel with
  | O => None
  | S fuel' =>
      match value fuel' s with
      | Some (v, rest) =>
          match trimStart rest with
          | String "," rest' =>
              match elements fuel' rest' with
              | Some (vs, rest'') => Some (v :: vs, rest'')
              | None => None
              end
          | String "]" rest' => Some ([v], rest')
          | _ => None
          end
      | None => None
      end
  end

with members (fuel : nat) (s : string)
  : option (list (string * Json) * string) :=
  match fuel with
  | O => None
  | S fuel' =>
      match trimStart s with
      | String c r =>
          if Ascii.eqb c dquote then
            match stringBody r with
            | Some (k, rest) =>
                match trimStart rest with
                | String ":" rest' =>
                    match value fuel' rest' with
                    | Some (v, rest'') =>
                        match trimStart rest'' with
                        | String "," rest3 =>
                            match members fuel' rest3 with
                            | Some (fs, rest4) => Some ((k, v) :: fs, rest4)
                            | None => None
                            end
                        | String "}" rest3 => Some ([(k, v)], rest3)
                        | _ => None
                        end
                    | None => None
                    end
                | _ => None
                end
            | None => None
            end
          else None
      | EmptyString => None
      end
  end.

Definition syntaxError : Thrown := ErrorObj "SyntaxError".

Definition parse (s : string) : Exc Json :=
  match value (2 * String.length s + 2) s with
  | Some (v, rest) =>
      if isEmpty (trimStart rest) then Ok v else Throw syntaxError
  | None => Throw syntaxError
  end.

(** Test texts are written with apostrophes in place of the quotation
    marks of JSON. *)
Fixpoint quoted (s : string) : string :=
  match s with
  | EmptyString => EmptyString
  | String c r =>
      String (if Ascii.eqb c "'" then dquote else c) (quoted r)
  end.

Definition builtins : Builtins := {| JSON_parse := parse |}.

End MiniJson.

(** The collaborators used to run the session on concrete inputs: messages
    are shown by their keys, and tables are extracted as above. *)
Definition demoCollaborators : Collaborators :=
  {| t := fun k => k;
     extractAndParseMarkdownTable := fun fullText =>
       match @MarkdownParser.extractAndParseMarkdownTable MiniJson.builtins
               fullText with
       | Ok r => r
       | Throw _ => (fullText, None)
       end |}.

(** ** Notions used to state the properties *)

(** Every entry is stored under the key computed from its value. *)
Definition keyedBy (V : Type) (key : V -> string) (m : JsMap.t V) : Prop :=
  Forall (fun kv => fst kv = key (snd kv)) m.

(** A chunk that carries exactly the sources [l]. *)
Definition sourceChunk (l : list Source) : StreamChunk :=
  {| text := None; sources := Some l; citations := None |}.

(** The line feed character as a string. *)
Definition newline : string := String (ascii_of_nat 10) EmptyString.



(** What the environment delivers to work in flight. *)
Definition isDelivery (e : Event) : bool :=
  match e with
  | Chunk _ _ | StreamEnd _ | StreamError _ _
  | ImagesArrived _ _ | RelatedArrived _ _ => true
  | _ => false
  end.

(** The one call in flight is [i], it is in its stream loop, and it was
    classified as [isNew] when submitted. *)
Definition soleCall (i : nat) (isNew : bool) (s : State) : Prop :=
  exists call,
    calls s = [call] /\ modelMessageId call = i
    /\ phase call = Streaming /\ isNewChat call = isNew.

(** A chunk that carries only text. *)
Definition textChunk (s : string) : RawChunk :=
  {| r_text := Some s; groundingChunks := None; r_citations := None |}.

(** Runs on the concrete collaborators. *)
Definition demoRun : list Event -> State -> State :=
  @run MiniJson.builtins demoCollaborators.

(** One step on the concrete collaborators. *)
Definition demoStep : State -> Event -> State :=
  @step MiniJson.builtins demoCollaborators.



(** Events other than stop, new chat and model change. *)
Definition isQuiet (e : Event) : bool :=
  match e with
  | Stop | NewChat | ChangeModel _ => false
  | _ => true
  end.

(** At most one call in flight, and none unless [isLoading] is set. *)
Definition singleFlight (s : State) : Prop :=
  (List.length (calls s) <= 1)%nat /\ (isLoading s = false -> calls s = []).

(** The call [i], a first Gemini turn, is the one call in flight with
    accumulators [a], and the pending message shows them. *)
Definition streamedView (i : nat) (a : Acc) (s : State) : Prop :=
  (exists call,
      calls s = [call] /\ modelMessageId call = i
      /\ callModel call = gemini /\ isNewChat call = true
      /\ phase call = Streaming /\ acc call = a)
  /\ exists msg,
      find (fun m => Nat.eqb (id m) i) (chatMessages s) = Some msg
      /\ content msg = fullText a
      /\ m_sources msg = Some (JsMap.values (sourcesMap a))
      /\ m_citations msg = Some (JsMap.values (citationsMap a)).

(** ** Other functions of [geminiService.ts] *)

Definition quoteMark : string := String (ascii_of_nat 34) EmptyString.

(** [Personalization] of [src/types.ts] *)
Record Personalization := { introduction : string; location : string }.

(** [buildSystemInstruction] (lines 125-138); [None] is a call without
    personalization. *)
Definition buildSystemInstruction (baseInstruction : string)
    (personalization : option Personalization) : string :=
  match personalization with
  | Some p =>
      if negb (isEmpty (introduction p)) || negb (isEmpty (location p)) then
        let i0 := (baseInstruction ++ newline ++ newline
                   ++ "--- User Personalization Context ---")%string in
        let i1 := if negb (isEmpty (introduction p))
                  then (i0 ++ newline
                        ++ "The user has provided this introduction about themselves: "
                        ++ quoteMark ++ introduction p ++ quoteMark)%string
                  else i0 in
        let i2 := if negb (isEmpty (location p))
                  then (i1 ++ newline ++ "The user's location is: "
                        ++ quoteMark ++ location p ++ quoteMark
                        ++ ". Use this for location-specific queries unless the user specifies a different location in their prompt.")%string
                  else i1 in
        (i2 ++ newline ++ "------------------------------------")%string
      else baseInstruction
  | None => baseInstruction
  end.

(** The global replace of line 566: every single and every double quotation
    mark is removed. *)
Fixpoint removeQuotes (s : string) : string :=
  match s with
  | EmptyString => EmptyString
  | String c r =>
      if Ascii.eqb c (ascii_of_nat 34) || Ascii.eqb c "'"
      then removeQuotes r else String c (removeQuotes r)
  end.

Fixpoint hasQuote (s : string) : bool :=
  match s with
  | EmptyString => false
  | String c r =>
      Ascii.eqb c (ascii_of_nat 34) || Ascii.eqb c "'" || hasQuote r
  end.

(** A text of the program is held as the bytes of its UTF-8 form, while
    the positions that [substring] takes count UTF-16 code units: a
    character of one, two or three bytes is one unit, a character of four
    bytes is a surrogate pair, two units. [seqLength c] is the number of
    bytes of the character that the byte [c] opens. *)
Definition seqLength (c : ascii) : nat :=
  let n := nat_of_ascii c in
  if (n <? 192)%nat then 1%nat
  else if (n <? 224)%nat then 2%nat
  else if (n <? 240)%nat then 3%nat
  else 4%nat.

Definition byteAt (k : nat) (s : string) : N :=
  match String.get k s with
  | Some c => N_of_ascii c
  | None => 0%N
  end.

(** The first unit of the surrogate pair of the four-byte character that
    opens [s]. A surrogate on its own has no UTF-8 form; it is written in
    the three bytes that the UTF-8 scheme gives its number. *)
Definition highSurrogate (s : string) : string :=
  let cp := ((byteAt 0 s mod 8) * 262144 + (byteAt 1 s mod 64) * 4096
             + (byteAt 2 s mod 64) * 64 + byteAt 3 s mod 64)%N in
  let hi := (55296 + (cp - 65536) / 1024)%N in
  String (ascii_of_N 237)
    (String (ascii_of_N (128 + (hi / 64) mod 64))
       (String (ascii_of_N (128 + hi mod 64)) EmptyString)).

(** [s.substring(0, n)]: the first [n] UTF-16 code units of [s]. When the
    cut falls inside a surrogate pair the result ends with the first unit
    of the pair, as in JavaScript. *)
Fixpoint substringUnits (n : nat) (s : string) : string :=
  match n with
  | O => EmptyString
  | S n1 =>
      match s with
      | EmptyString => EmptyString
      | String c _ =>
          match seqLength c with
          | 4%nat =>
              match n1 with
              | O => highSurrogate s
              | S n2 =>
                  (String.substring 0 4 s
                   ++ substringUnits n2 (dropChars 4 s))%string
              end
          | k =>
              (String.substring 0 k s
               ++ substringUnits n1 (dropChars k s))%string
          end
      end
  end.

(** [initialQuery.substring(0, 40) + '...'] *)
Definition truncatedQuery (initialQuery : string) : string :=
  (substringUnits 40 initialQuery ++ "...")%string.

(** [generateChatTitle] (lines 552-574) *)
Definition generateChatTitle (initialQuery : string)
    (reply : Exc (option string)) : Exc string :=
  if isEmpty initialQuery then Ok "New Chat"
  else
    tryCatch
      (txt <- responseText reply ;;
       let title := removeQuotes txt in
       Ok (if isEmpty title then truncatedQuery initialQuery else title))
      (fun _ => Ok (truncatedQuery initialQuery)).

(** One element of the [chats] argument of [generateWorkspaceSummary]. *)
Record ChatExcerpt := { ce_query : string; ce_answer : string }.

(** The context sent with the summary request (lines 584-587): the first
    five chats, each answer cut to 200 characters. *)
Definition summaryContext (chats : list ChatExcerpt) : string :=
  String.concat (newline ++ newline ++ "---" ++ newline ++ newline)
    (map (fun c => ("Q: " ++ ce_query c ++ newline ++ "A: "
                    ++ substringUnits 200 (ce_answer c) ++ "...")%string)
         (firstn 5 chats)).

Definition summaryFailure : Thrown := ErrorObj "Could not generate summary.".

(** [generateWorkspaceSummary] (lines 581-613); [reply] answers the request
    built from [summaryContext chats]. *)
Definition generateWorkspaceSummary (chats : list ChatExcerpt)
    (reply : string -> Exc (option string)) : Exc string :=
  match chats with
  | [] => Ok EmptyString
  | _ :: _ =>
      tryCatch (responseText (reply (summaryContext chats)))
               (fun _ => Throw summaryFailure)
  end.

(** ** [callMistral]: reading the event stream (lines 243-273) *)

(** [buffer.split('\n')] followed by [lines.pop()]: the complete lines and
    the unfinished rest. *)
Fixpoint splitLines (s : string) : list string * string :=
  match s with
  | EmptyString => ([], EmptyString)
  | String c r =>
      let '(ls, rest) := splitLines r in
      if Ascii.eqb c (ascii_of_nat 10) then (EmptyString :: ls, rest)
      else match ls with
           | [] => ([], String c rest)
           | l :: ls' => (String c l :: ls', rest)
           end
  end.

(** [v[0]] on a value that is neither [undefined] nor [null]. *)
Definition index0 (v : Json) : option Json :=
  match v with
  | JArray (x :: _) => Some x
  | JArray [] => None
  | JObject fields => lookupField "0" fields
  | JString (String c _) => Some (JString (String c EmptyString))
  | _ => None
  end.

(** [chunk.choices[0]?.delta?.content] *)
Definition deltaContent (chunk : Json) : Exc (option Json) :=
  match chunk with
  | JNull => Throw typeError
  | _ =>
      match getProp "choices" chunk with
      | None | Some JNull => Throw typeError
      | Some choices =>
          Ok (optChain "content" (optChain "delta" (index0 choices)))
      end
  end.

Inductive LineResult : Type :=
| LineSkip
| LineDone
| LineYield (txt : Json).

(** The body of [for (const line of lines)]. *)
Definition readLine `{Builtins} (line : string) : LineResult :=
  if startsWith "data: " line then
    let dataStr := dropChars 6 line in
    if String.eqb (trim dataStr) "[DONE]" then LineDone
    else
      match (chunk <- JSON_parse dataStr ;; deltaContent chunk) with
      | Ok (Some txt) => if truthy (Some txt) then LineYield txt else LineSkip
      | Ok None => LineSkip
      | Throw _ => LineSkip
      end
  else LineSkip.

(** The texts yielded by a batch of lines, and whether [[DONE]] was met. *)
Fixpoint readLines `{Builtins} (lines : list string) : list Json * bool :=
  match lines with
  | [] => ([], false)
  | l :: r =>
      match readLine l with
      | LineDone => ([], true)
      | LineSkip => readLines r
      | LineYield txt => let '(ys, done) := readLines r in (txt :: ys, done)
      end
  end.

(** The [while (true)] loop: [reads] are the decoded pieces that
    [reader.read()] delivers before it reports the end. *)
Fixpoint mistralYields `{Builtins} (buffer : string) (reads : list string)
  : list Json :=
  match reads with
  | [] => []
  | d :: rest =>
      let '(lines, buffer') := splitLines (buffer ++ d) in
      let '(ys, done) := readLines lines in
      if done then ys else ys ++ mistralYields buffer' rest
  end.

(** ** Other handlers of [SearchPage.tsx] *)

(** [parseSources] (lines 30-41); the objects kept are read as [Source]s. *)
Definition asSource (item : Json) : option Source :=
  match item with
  | JNull => None
  | _ =>
      match getProp "title" item, getProp "uri" item with
      | Some (JString ti), Some (JString u) => Some {| title := ti; uri := u |}
      | _, _ => None
      end
  end.

Fixpoint validSources (items : list Json) : list Source :=
  match items with
  | [] => []
  | x :: r =>
      match asSource x with
      | Some s => s :: validSources r
      | None => validSources r
      end
  end.

Definition parseSources `{Builtins} (sources : Json) : option (list Source) :=
  if negb (truthy (Some sources)) then None
  else
    let data := match sources with
                | JString txt =>
                    match JSON_parse txt with
                    | Ok v => Some v
                    | Throw _ => None
                    end
                | v => Some v
                end in
    match data with
    | Some (JArray items) =>
        match validSources items with
        | [] => None
        | l => Some l
        end
    | _ => None
    end.

(** [finalSources as Json], the value sent in the [sources] column. *)
Definition sourcesToJson (l : list Source) : Json :=
  JArray (map (fun s => JObject [("title", JString (title s));
                                 ("uri", JString (uri s))]) l).

(** [x || []] *)
Definition orNoSources (o : option (list Source)) : list Source :=
  match o with
  | Some l => l
  | None => []
  end.

(** A row of [search_history] as the database returns it
    ([Database['public']['Tables']['search_history']['Row']]). *)
Record HistoryRecord := {
  rec_query : string;
  rec_answer : string;
  rec_sources : Json;
  rec_deep : bool;
  rec_workspace : option string
}.

(** The record stored for an inserted row. *)
Definition storedRecord (r : HistoryRow) : HistoryRecord :=
  {| rec_query := h_query r; rec_answer := h_answer r;
     rec_sources := sourcesToJson (h_sources r);
     rec_deep := is_deep_research r; rec_workspace := workspace_id r |}.

(** [loadChatFromHistory] (lines 233-242); [workspaceIds] are the ids of the
    workspaces the page holds. *)
Definition loadChatFromHistory `{Builtins} `{Collaborators}
    (workspaceIds : list string) (item : HistoryRecord) (s : State) : State :=
  let s1 := setActiveModel gemini
              (setIsDeepResearchMode (rec_deep item)
                 (setActiveView ViewChat (resetChatState s))) in
  let s2 := setSelectedWorkspace
              match rec_workspace item with
              | Some w => find (String.eqb w) workspaceIds
              | None => None
              end s1 in
  let '(remainingText, tb) := extractAndParseMarkdownTable (rec_answer item) in
  let userMessage :=
    {| id := nextId s; role := RoleUser; content := rec_query item;
       m_sources := None; m_citations := None; table := Undefined;
       file := None; images := Undefined |} in
  let modelMessage :=
    {| id := S (nextId s); role := RoleModel; content := remainingText;
       m_sources := Some (orNoSources (parseSources (rec_sources item)));
       m_citations := Some [];
       table := match tb with Some x => Value x | None => Null end;
       file := None; images := Undefined |} in
  setActiveChat
    (Some {| seedQuery := rec_query item; seedAnswer := rec_answer item;
             chatDeep := rec_deep item |})
    (setNextId (S (S (nextId s)))
       (setChatMessages [userMessage; modelMessage] s2)).

(** [handleRemoveFile] (line 250) *)
Definition handleRemoveFile (s : State) : State :=
  setFilePreview None (setFile None s).

(** [chatMessages.findIndex(m => m.id === messageId)] *)
Fixpoint findIndex (i : nat) (l : list ChatMessage) : option nat :=
  match l with
  | [] => None
  | m :: r => if Nat.eqb (id m) i then Some 0 else option_map S (findIndex i r)
  end.

(** [handleRewrite] (line 245) *)
Definition handleRewrite (messageId : nat) (s : State) : State :=
  match findIndex messageId (chatMessages s) with
  | Some (S n) =>
      match nth_error (chatMessages s) n with
      | Some originalUserQuery =>
          match role originalUserQuery with
          | RoleUser => handleSendMessage (content originalUserQuery) s
          | RoleModel => s
          end
      | None => s
      end
  | _ => s
  end.

(** The messages resent to Mistral (line 196): every message except a model
    message without content, as a role and a text. *)
Definition mistralHistory (msgs : list ChatMessage) : list (Role * string) :=
  map (fun msg => (role msg, content msg))
      (filter (fun msg => match role msg with
                          | RoleUser => true
                          | RoleModel => negb (isEmpty (content msg))
                          end) msgs).

(** [Workspace] of [src/types.ts], the fields the page reads. *)
Record Workspace := { ws_id : string; ws_name : string; summary : option string }.

(** [updateWorkspaceSummary] (lines 159-180) on the [workspaces] state:
    [chats] is the answer of the first query ([None] for an error or no
    data), [reply] the model's answer, [updateFailed] the [error] of the
    update. *)
Definition updateWorkspaceSummary (workspaceId : string)
    (chats : option (list ChatExcerpt)) (reply : string -> Exc (option string))
    (updateFailed : bool) (workspaces : list Workspace) : list Workspace :=
  match chats with
  | None | Some [] => workspaces
  | Some cs =>
      match generateWorkspaceSummary cs reply with
      | Ok text =>
          if updateFailed then workspaces
          else map (fun ws => if String.eqb (ws_id ws) workspaceId
                              then {| ws_id := ws_id ws; ws_name := ws_name ws;
                                      summary := Some text |}
                              else ws) workspaces
      | Throw _ => workspaces
      end
  end.

(** ** Notions used to state the further properties *)

(** The ids of the visible messages are pairwise distinct and were all
    drawn before [nextId]. *)
Definition idsFresh (s : State) : Prop :=
  NoDup (map id (chatMessages s))
  /\ Forall (fun i => i < nextId s) (map id (chatMessages s)).

(** The turn a delivery belongs to. *)
Definition turnOf (e : Event) : option nat :=
  match e with
  | Chunk i _ | StreamEnd i | StreamError i _ | InsertSettled i _
  | ImagesArrived i _ | RelatedArrived i _ => Some i
  | _ => None
  end.

(** The messages other than the one with id [i]. *)
Definition othersThan (i : nat) (l : list ChatMessage) : list ChatMessage :=
  filter (fun msg => negb (Nat.eqb (id msg) i)) l.

(** The one call in flight is [i], on model [m], in its stream loop, and it
    was classified as [isNew] when submitted. *)
Definition soleCallOn (i : nat) (m : ModelType) (isNew : bool) (s : State)
  : Prop :=
  exists call,
    calls s = [call] /\ modelMessageId call = i /\ callModel call = m
    /\ phase call = Streaming /\ isNewChat call = isNew.

(** The call [i] is the one call in flight: a first Gemini turn for the
    query [q], submitted with the deep-research flag [deep] in the
    workspace [ws], in its stream loop with accumulators [a]; and the
    pending message shows these accumulators. *)
Definition firstTurnView (i : nat) (q : string) (deep : bool)
    (ws : option string) (a : Acc) (s : State) : Prop :=
  calls s = [{| modelMessageId := i; query := q; callModel := gemini;
                isNewChat := true; callDeep := deep; callWorkspace := ws;
                acc := a; phase := Streaming |}]
  /\ exists msg,
      find (fun m => Nat.eqb (id m) i) (chatMessages s) = Some msg
      /\ content msg = fullText a
      /\ m_sources msg = Some (JsMap.values (sourcesMap a))
      /\ m_citations msg = Some (JsMap.values (citationsMap a)).

(** ** The page as the user drives it

    The handlers above read the state they are applied to: they are called
    from the render of the current state. [handleRelatedQueryClick]
    (line 253) is different. It calls [handleNewChat] and, from a timer,
    the [handleSendMessage] of the render in which the click happened; that
    closure still holds the values of the state before [handleNewChat]. *)

(** [handleSendMessage] as the closure created by the render of the state
    [r], called in the state [s]. What the closure captured is read from
    [r]: [isLoading], [file], [filePreview], [activeView], [activeModel],
    [chatMessages], [activeChat], [isDeepResearchMode] and
    [selectedWorkspace]. The ref and the functional updates act on [s]. *)
Definition handleSendMessageOf (r : State) (q : string) (s : State) : State :=
  if rejectsSubmission q r then s
  else
    let userId := nextId s in
    let modelId := S userId in
    let isNew := beginsNewSession r in
    let userMessage :=
      {| id := userId; role := RoleUser; content := q;
         m_sources := None; m_citations := None; table := Undefined;
         file := match fileState r, activeModel r with
                 | Some f, gemini =>
                     Some {| name := file_name f; type := file_type f;
                             previewUrl := orEmpty (filePreview r) |}
                 | _, _ => None
                 end;
         images := Undefined |} in
    let placeholder :=
      {| id := modelId; role := RoleModel; content := "";
         m_sources := Some []; m_citations := Some []; table := Null;
         file := None;
         images := if isNew && isGemini (activeModel r)
                   then Null else Undefined |} in
    let call :=
      {| modelMessageId := modelId; query := q; callModel := activeModel r;
         isNewChat := isNew; callDeep := isDeepResearchMode r;
         callWorkspace := selectedWorkspace r; acc := emptyAcc;
         phase := Streaming |} in
    let s0 := setError None (setIsLoading true
                (setIsRequestCancelled false s)) in
    let s1 := match activeView r with
              | ViewChat => s0
              | _ => setActiveView ViewChat s0
              end in
    let s2 := setChatMessages (chatMessages s ++ [userMessage; placeholder]) s1 in
    let s3 := setFilePreview None (setFile None s2) in
    let s4 := if isGemini (activeModel r) && isNew
              then setRelatedQueries [] s3 else s3 in
    setCalls (calls s ++ [call]) (setNextId (S modelId) s4).

(** [handleRelatedQueryClick] (line 253): [handleNewChat], then the timer;
    nothing else happens in the 50 ms between them. *)
Definition handleRelatedQueryClick (q : string) (s : State) : State :=
  handleSendMessageOf s q (handleNewChat s).

(** [hasAttachment={!!file}] (line 326) *)
Definition hasAttachment (s : State) : bool :=
  match fileState s with
  | Some _ => true
  | None => false
  end.

(** [handleSubmit] of the search bar (src/unnamed/part_001, lines 71-76),
    with [onSearch] bound to [handleSendMessage] (SearchPage.tsx, line 326);
    the text of the bar itself is not part of the page state. *)
Definition searchBarSubmit (query : string) (s : State) : State :=
  if isLoading s then s
  else if isEmpty (trim query) && negb (hasAttachment s) then s
  else handleSendMessage (trim query) s.

(** [canSubmit] of the search bar (src/unnamed/part_001, line 78): the send
    button is enabled. *)
Definition canSubmit (query : string) (s : State) : bool :=
  negb (isLoading s)
  && (negb (isEmpty (trim query))
      || (hasAttachment s && isGemini (activeModel s))).

(** [onToggleDeepResearch] (line 326) behind its button, which is disabled
    while loading and on a model other than Gemini (src/unnamed/part_001,
    line 133). *)
Definition toggleDeepResearch (s : State) : State :=
  if isLoading s || negb (isGemini (activeModel s)) then s
  else setIsDeepResearchMode (negb (isDeepResearchMode s)) s.

(** What the user and the environment can do to the page: the events of
    the session, and the handlers of this section. *)
Inductive Action : Type :=
| Core (e : Event)
| ToggleDeepResearch
| LoadChat (workspaceIds : list string) (item : HistoryRecord)
| Rewrite (messageId : nat)
| RemoveFile
| RelatedClick (q : string)
| BarSubmit (query : string).

Definition act `{Builtins} `{Collaborators} (s : State) (a : Action) : State :=
  match a with
  | Core e => step s e
  | ToggleDeepResearch => toggleDeepResearch s
  | LoadChat workspaceIds item => loadChatFromHistory workspaceIds item s
  | Rewrite messageId => handleRewrite messageId s
  | RemoveFile => handleRemoveFile s
  | RelatedClick q => handleRelatedQueryClick q s
  | BarSubmit query => searchBarSubmit query s
  end.

Definition runActions `{Builtins} `{Collaborators} (l : list Action)
    (s : State) : State :=
  fold_left act l s.

(** Deep research is a Gemini mode: it is off whenever Mistral is the
    active model, and no call on Mistral carries the flag. *)
Definition deepOnlyOnGemini (s : State) : Prop :=
  (activeModel s = mistral -> isDeepResearchMode s = false)
  /\ Forall (fun c => callModel c = mistral -> callDeep c = false) (calls s).

(** The first character of a string is not white space. *)
Definition headOK (s : string) : bool :=
  match s with
  | String c _ => negb (isSpace c)
  | EmptyString => true
  end.

(** [handleNewChatInWorkspace] (lines 146-150) *)
Definition handleNewChatInWorkspace (s : State) : State :=
  setActiveView ViewChat (resetChatState s).

(** [handleSelectWorkspace] and [handleBackToWorkspaces] (lines 260-261);
    a workspace is held by its id. *)
Definition handleSelectWorkspace (workspaceId : string) (s : State) : State :=
  setActiveView ViewHistory (setSelectedWorkspace (Some workspaceId) s).

Definition handleBackToWorkspaces (s : State) : State :=
  setActiveView ViewWorkspaces (setSelectedWorkspace None s).

(** The call [i] is the one call in flight: the first turn of a session on
    the model [m], in its stream loop with accumulators [a]. *)
Definition newTurnInFlight (i : nat) (q : string) (m : ModelType)
    (deep : bool) (ws : option string) (a : Acc) (s : State) : Prop :=
  calls s = [{| modelMessageId := i; query := q; callModel := m;
                isNewChat := true; callDeep := deep; callWorkspace := ws;
                acc := a; phase := Streaming |}].



(** The actions that leave [isLoading] to the call in flight: submissions
    (direct, from the bar, by rewrite), the attachment, the deep-research
    toggle and what the environment delivers. The others (stop, new chat,
    also through a related query, model change, loading a stored chat)
    clear [isLoading] whatever is in flight. *)
Definition isQuietAction (a : Action) : bool :=
  match a with
  | Core e => isQuiet e
  | ToggleDeepResearch | Rewrite _ | RemoveFile | BarSubmit _ => true
  | LoadChat _ _ | RelatedClick _ => false
  end.

(** Every byte is below 128: the text is ASCII, one byte for each UTF-16
    code unit. *)
Definition asciiText (s : string) : bool :=
  forallb (fun c => (nat_of_ascii c <? 128)%nat) (list_ascii_of_string s).

(* ================================================================== *)
(** * Properties *)
(* ================================================================== *)

(** ** Facts about [JsMap] *)

Section JsMapFacts.
Variable V : Type.
Variable key : V -> string.
Implicit Types (m : JsMap.t V) (k : string) (v : V) (l : list V).

Lemma keys_set m k v :
  JsMap.keys (JsMap.set k v m) = pushNew (JsMap.keys m) k.
Proof.
  unfold pushNew.
  induction m as [|[k' v'] r IH]; simpl; [reflexivity|].
  rewrite (String.eqb_sym k k').
  destruct (String.eqb_spec k' k) as [->|Hne]; simpl; [reflexivity|].
  rewrite IH. unfold JsMap.keys.
  destruct (existsb (String.eqb k) (map fst r)); reflexivity.
Qed.

Lemma existsb_eqb_In k (ks : list string) :
  existsb (String.eqb k) ks = true <-> In k ks.
Proof.
  rewrite existsb_exists. split.
  - intros (x & Hin & Heq). apply String.eqb_eq in Heq. now subst.
  - intros Hin. exists k. split; [assumption | apply String.eqb_refl].
Qed.

Lemma pushNew_present k (ks : list string) :
  In k ks -> pushNew ks k = ks.
Proof.
  intros Hin. unfold pushNew.
  apply existsb_eqb_In in Hin. now rewrite Hin.
Qed.

Lemma pushNew_absent k (ks : list string) :
  ~ In k ks -> pushNew ks k = ks ++ [k].
Proof.
  intros Hnin. unfold pushNew.
  destruct (existsb (String.eqb k) ks) eqn:E; [|reflexivity].
  apply existsb_eqb_In in E. contradiction.
Qed.

Lemma pushNew_NoDup k (ks : list string) :
  NoDup ks -> NoDup (pushNew ks k).
Proof.
  intros Hnd. unfold pushNew.
  destruct (existsb (String.eqb k) ks) eqn:E; [assumption|].
  apply NoDup_app; [assumption | repeat constructor; intros [] | ].
  intros x Hx [<-|[]].
  apply existsb_eqb_In in Hx. congruence.
Qed.

Lemma pushNew_incl k (ks : list string) x :
  In x ks -> In x (pushNew ks k).
Proof.
  intros Hin. unfold pushNew.
  destruct (existsb (String.eqb k) ks); [assumption|].
  apply in_or_app. now left.
Qed.

Lemma pushNew_self k (ks : list string) : In k (pushNew ks k).
Proof.
  unfold pushNew.
  destruct (existsb (String.eqb k) ks) eqn:E.
  - now apply existsb_eqb_In.
  - apply in_or_app. right. now left.
Qed.

Lemma fold_pushNew_NoDup (ks acc : list string) :
  NoDup acc -> NoDup (fold_left pushNew ks acc).
Proof.
  revert acc. induction ks as [|k ks IH]; simpl; intros acc Hnd.
  - assumption.
  - apply IH. now apply pushNew_NoDup.
Qed.

Lemma firstSeen_NoDup (ks : list string) : NoDup (firstSeen ks).
Proof. apply fold_pushNew_NoDup. constructor. Qed.

Lemma fold_pushNew_incl (ks acc : list string) x :
  In x acc -> In x (fold_left pushNew ks acc).
Proof.
  revert acc. induction ks as [|k ks IH]; simpl; intros acc Hin.
  - assumption.
  - apply IH. now apply pushNew_incl.
Qed.

Lemma fold_pushNew_all_present (ks acc : list string) :
  (forall k, In k ks -> In k acc) -> fold_left pushNew ks acc = acc.
Proof.
  revert acc. induction ks as [|k ks IH]; simpl; intros acc Hall.
  - reflexivity.
  - rewrite pushNew_present by (apply Hall; now left).
    apply IH. intros k' Hk'. apply Hall. now right.
Qed.

Lemma set_wf m k v : JsMap.wf m -> JsMap.wf (JsMap.set k v m).
Proof.
  unfold JsMap.wf. rewrite keys_set. apply pushNew_NoDup.
Qed.

Lemma keys_setAll l m :
  JsMap.keys (JsMap.setAll key l m)
  = fold_left pushNew (map key l) (JsMap.keys m).
Proof.
  unfold JsMap.setAll.
  revert m. induction l as [|v l IH]; simpl; intros m.
  - reflexivity.
  - rewrite IH, keys_set. reflexivity.
Qed.

Lemma setAll_wf l m : JsMap.wf m -> JsMap.wf (JsMap.setAll key l m).
Proof.
  unfold JsMap.wf. rewrite keys_setAll. apply fold_pushNew_NoDup.
Qed.

Lemma setAll_app l1 l2 m :
  JsMap.setAll key (l1 ++ l2) m
  = JsMap.setAll key l2 (JsMap.setAll key l1 m).
Proof. unfold JsMap.setAll. apply fold_left_app. Qed.

Lemma get_set_same m k v : JsMap.get k (JsMap.set k v m) = Some v.
Proof.
  induction m as [|[k' v'] r IH]; simpl.
  - now rewrite String.eqb_refl.
  - destruct (String.eqb_spec k' k) as [->|Hne]; simpl.
    + now rewrite String.eqb_refl.
    + apply String.eqb_neq in Hne. now rewrite Hne.
Qed.

Lemma get_set_other m k k' v :
  k <> k' -> JsMap.get k' (JsMap.set k v m) = JsMap.get k' m.
Proof.
  intros Hne.
  induction m as [|[k0 v0] r IH]; simpl.
  - apply String.eqb_neq in Hne. now rewrite Hne.
  - destruct (String.eqb_spec k0 k) as [->|Hne0]; simpl.
    + apply String.eqb_neq in Hne. now rewrite Hne.
    + destruct (String.eqb k0 k'); [reflexivity | assumption].
Qed.

Lemma get_set m k k' v :
  JsMap.get k' (JsMap.set k v m)
  = if String.eqb k k' then Some v else JsMap.get k' m.
Proof.
  destruct (String.eqb_spec k k') as [->|Hne].
  - apply get_set_same.
  - now apply get_set_other.
Qed.

Lemma get_setAll l m k :
  JsMap.get k (JsMap.setAll key l m)
  = match lastWith key k l with
    | Some v => Some v
    | None => JsMap.get k m
    end.
Proof.
  unfold lastWith.
  induction l as [|v l IH] using rev_ind; simpl.
  - reflexivity.
  - rewrite setAll_app. simpl. rewrite get_set.
    rewrite rev_app_distr. simpl.
    destruct (String.eqb (key v) k); [reflexivity | apply IH].
Qed.

Lemma get_None_keys m k : JsMap.get k m = None <-> ~ In k (JsMap.keys m).
Proof.
  induction m as [|[k' v'] r IH]; simpl.
  - split; [intros _ [] | reflexivity].
  - destruct (String.eqb_spec k' k) as [->|Hne].
    + split; [discriminate | intros H; exfalso; apply H; now left].
    + rewrite IH. split.
      * intros H [Heq|Hin]; [congruence | contradiction].
      * intros H Hin. apply H. now right.
Qed.

(** Two maps with the same key order and the same lookups are equal. *)
Lemma jsmap_ext m1 m2 :
  JsMap.wf m1 ->
  JsMap.keys m1 = JsMap.keys m2 ->
  (forall k, JsMap.get k m1 = JsMap.get k m2) ->
  m1 = m2.
Proof.
  unfold JsMap.wf, JsMap.keys.
  revert m2. induction m1 as [|[k1 v1] r1 IH]; intros [|[k2 v2] r2];
    simpl; intros Hnd Hk Hg; try discriminate; [reflexivity|].
  injection Hk as -> Hk.
  inversion Hnd as [|? ? Hnotin Hnd']; subst.
  pose proof (Hg k2) as Hhd. rewrite String.eqb_refl in Hhd.
  injection Hhd as ->.
  f_equal. apply IH; [assumption | assumption |].
  intros k. specialize (Hg k).
  destruct (String.eqb_spec k2 k) as [->|Hne]; [|assumption].
  assert (Hn1 : JsMap.get k r1 = None) by (now apply get_None_keys).
  assert (Hn2 : JsMap.get k r2 = None).
  { apply get_None_keys. unfold JsMap.keys. now rewrite <- Hk. }
  congruence.
Qed.

Lemma lastWith_In k l v : lastWith key k l = Some v -> In v l /\ key v = k.
Proof.
  unfold lastWith. intros H. apply find_some in H as [Hin Heq].
  apply in_rev in Hin. apply String.eqb_eq in Heq. now split.
Qed.

Lemma lastWith_None k l : lastWith key k l = None -> ~ In k (map key l).
Proof.
  unfold lastWith. intros H Hin.
  apply in_map_iff in Hin as (v & Hkv & Hin).
  apply in_rev in Hin.
  pose proof (find_none _ _ H v Hin) as Hf. simpl in Hf.
  rewrite Hkv, String.eqb_refl in Hf. discriminate.
Qed.

(** Running the same [forEach] a second time changes nothing. *)
Lemma setAll_idempotent l m :
  JsMap.wf m ->
  JsMap.setAll key l (JsMap.setAll key l m) = JsMap.setAll key l m.
Proof.
  intros Hwf. apply jsmap_ext.
  - now apply setAll_wf, setAll_wf.
  - rewrite keys_setAll. apply fold_pushNew_all_present.
    intros k Hk. rewrite keys_setAll.
    clear Hwf. revert m. induction l as [|v l IH]; simpl; intros m.
    + destruct Hk.
    + simpl in Hk. destruct Hk as [<-|Hk].
      * apply fold_pushNew_incl, pushNew_self.
      * rewrite <- (keys_set m (key v) v). now apply IH.
  - intros k. rewrite !get_setAll.
    destruct (lastWith key k l); reflexivity.
Qed.

Lemma size_set_present m k v :
  In k (JsMap.keys m) -> JsMap.size (JsMap.set k v m) = JsMap.size m.
Proof.
  intros Hin. unfold JsMap.size.
  rewrite <- (length_map fst (JsMap.set k v m)), <- (length_map fst m).
  fold (JsMap.keys (JsMap.set k v m)). fold (JsMap.keys m).
  rewrite keys_set. now rewrite pushNew_present.
Qed.

Lemma In_keys_setAll l m v :
  In v l -> In (key v) (JsMap.keys (JsMap.setAll key l m)).
Proof.
  rewrite keys_setAll. revert m.
  induction l as [|a l IH]; simpl; intros m Hin; [destruct Hin|].
  destruct Hin as [->|Hin].
  - apply fold_pushNew_incl, pushNew_self.
  - rewrite <- (keys_set m (key a) a). now apply IH.
Qed.

End JsMapFacts.

(** ** The merger: reachable accumulators *)

Section Keyed.
Variable V : Type.
Variable key : V -> string.

Lemma keyedBy_set (m : JsMap.t V) v :
  keyedBy key m -> keyedBy key (JsMap.set (key v) v m).
Proof.
  unfold keyedBy. induction m as [|[k' v'] r IH]; simpl; intros H.
  - repeat constructor.
  - inversion H as [|? ? Hhd Htl]; subst.
    destruct (String.eqb k' (key v)); constructor; auto.
Qed.

Lemma keyedBy_setAll l (m : JsMap.t V) :
  keyedBy key m -> keyedBy key (JsMap.setAll key l m).
Proof.
  unfold JsMap.setAll. revert m.
  induction l as [|v l IH]; simpl; intros m H; [assumption|].
  apply IH. now apply keyedBy_set.
Qed.

Lemma keyedBy_keys (m : JsMap.t V) :
  keyedBy key m -> JsMap.keys m = map key (JsMap.values m).
Proof.
  unfold keyedBy, JsMap.keys, JsMap.values.
  induction 1 as [|[k v] r Hhd _ IH]; simpl; [reflexivity|].
  simpl in Hhd. now rewrite Hhd, IH.
Qed.

Lemma keyedBy_get (m : JsMap.t V) v :
  keyedBy key m -> JsMap.wf m -> In v (JsMap.values m) ->
  JsMap.get (key v) m = Some v.
Proof.
  unfold keyedBy, JsMap.wf, JsMap.keys, JsMap.values.
  induction m as [|[k0 v0] r IH]; simpl; intros Hk Hnd Hin; [destruct Hin|].
  inversion Hk as [|? ? Hhd Htl]; subst. simpl in Hhd. subst k0.
  inversion Hnd as [|? ? Hnotin Hnd']; subst.
  destruct Hin as [->|Hin].
  - now rewrite String.eqb_refl.
  - destruct (String.eqb_spec (key v0) (key v)) as [Heq|Hne].
    + exfalso. apply Hnotin. rewrite Heq.
      fold (JsMap.keys r). rewrite (keyedBy_keys Htl).
      now apply in_map.
    + now apply IH.
Qed.
End Keyed.

Lemma mergeChunks_app cs1 cs2 a :
  mergeChunks (cs1 ++ cs2) a = mergeChunks cs2 (mergeChunks cs1 a).
Proof. unfold mergeChunks. apply fold_left_app. Qed.

Lemma sourcesMap_mergeChunks cs a :
  sourcesMap (mergeChunks cs a) = JsMap.setAll uri (allSources cs) (sourcesMap a).
Proof.
  unfold mergeChunks, allSources. revert a.
  induction cs as [|c cs IH]; simpl; intros a; [reflexivity|].
  rewrite IH. simpl. rewrite setAll_app.
  unfold mergeSources. destruct (sources c); reflexivity.
Qed.

Lemma citationsMap_mergeChunks cs a :
  citationsMap (mergeChunks cs a)
  = JsMap.setAll citationKey (allCitations cs) (citationsMap a).
Proof.
  unfold mergeChunks, allCitations. revert a.
  induction cs as [|c cs IH]; simpl; intros a; [reflexivity|].
  rewrite IH. simpl. rewrite setAll_app.
  unfold mergeCitations. destruct (citations c); reflexivity.
Qed.

Lemma wf_empty (V : Type) : JsMap.wf (JsMap.empty V).
Proof. constructor. Qed.

Lemma keyedBy_empty (V : Type) (key : V -> string) : keyedBy key (JsMap.empty V).
Proof. constructor. Qed.

Lemma reachable_sources_wf cs :
  JsMap.wf (sourcesMap (mergeChunks cs emptyAcc))
  /\ keyedBy uri (sourcesMap (mergeChunks cs emptyAcc)).
Proof.
  rewrite sourcesMap_mergeChunks. split.
  - apply setAll_wf, wf_empty.
  - apply keyedBy_setAll, keyedBy_empty.
Qed.

Lemma reachable_citations_wf cs :
  JsMap.wf (citationsMap (mergeChunks cs emptyAcc))
  /\ keyedBy citationKey (citationsMap (mergeChunks cs emptyAcc)).
Proof.
  rewrite citationsMap_mergeChunks. split.
  - apply setAll_wf, wf_empty.
  - apply keyedBy_setAll, keyedBy_empty.
Qed.

Lemma merged_uris cs :
  map uri (mergedSources cs) = firstSeen (map uri (allSources cs)).
Proof.
  unfold mergedSources.
  destruct (reachable_sources_wf cs) as [_ Hk].
  rewrite <- (keyedBy_keys Hk), sourcesMap_mergeChunks, keys_setAll.
  reflexivity.
Qed.

Lemma merged_entry_is_last cs s :
  In s (mergedSources cs) -> lastWith uri (uri s) (allSources cs) = Some s.
Proof.
  unfold mergedSources. intros Hin.
  destruct (reachable_sources_wf cs) as [Hwf Hk].
  pose proof (keyedBy_get s Hk Hwf Hin) as Hget.
  rewrite sourcesMap_mergeChunks, get_setAll in Hget.
  destruct (lastWith uri (uri s) (allSources cs)); [assumption|].
  discriminate.
Qed.

(** C1, as amended. The merged source list of a turn has one entry per uri,
    in the order in which the uris were first seen; the entry kept for a uri
    is the last source received with it. A chunk that repeats a uri already
    present leaves the order and the length of the list unchanged and
    replaces the stored entry, title included, by the newer source. *)
Theorem merged_sources_first_seen_last_write :
  (forall cs,
      map uri (mergedSources cs) = firstSeen (map uri (allSources cs))
      /\ NoDup (map uri (mergedSources cs)))
  /\ (forall cs s,
         In s (mergedSources cs) ->
         lastWith uri (uri s) (allSources cs) = Some s)
  /\ (forall cs s,
         In (uri s) (map uri (mergedSources cs)) ->
         map uri (mergedSources (cs ++ [sourceChunk [s]]))
         = map uri (mergedSources cs)
         /\ In s (mergedSources (cs ++ [sourceChunk [s]]))).
Proof.
  split; [|split].
  - intros cs. split; [apply merged_uris|].
    rewrite merged_uris. apply firstSeen_NoDup.
  - apply merged_entry_is_last.
  - intros cs s Hin.
    destruct (reachable_sources_wf cs) as [Hwf Hk].
    unfold mergedSources in *. rewrite mergeChunks_app. simpl.
    unfold JsMap.setAll. simpl.
    set (m := sourcesMap (mergeChunks cs emptyAcc)) in *.
    assert (Hk' : keyedBy uri (JsMap.set (uri s) s m)) by now apply keyedBy_set.
    rewrite <- (keyedBy_keys Hk) in Hin.
    split.
    + rewrite <- (keyedBy_keys Hk'), <- (keyedBy_keys Hk), keys_set.
      now apply pushNew_present.
    + clear - m. induction m as [|[k v] r IH]; simpl.
      * now left.
      * destruct (String.eqb k (uri s)); simpl; [now left | now right].
Qed.

Lemma merged_sources_first_seen_last_write_witness :
  let s := {| title := "T2"; uri := "a" |} in
  let cs := [sourceChunk [{| title := "T1"; uri := "a" |};
                           {| title := "B"; uri := "b" |}]] in
  map uri (mergedSources (cs ++ [sourceChunk [s]])) = ["a"; "b"]
  /\ In s (mergedSources (cs ++ [sourceChunk [s]])).
Proof.
  intros s cs.
  destruct merged_sources_first_seen_last_write as (_ & _ & H).
  apply (H cs s). simpl. now left.
Defined.

(** C1, as stated, fails: a source whose uri is already stored is not
    ignored; [Map.prototype.set] overwrites the stored title. *)
Lemma duplicate_uri_overwrites_title :
  let first := {| title := "T1"; uri := "a" |} in
  let again := {| title := "T2"; uri := "a" |} in
  mergedSources [sourceChunk [first]] = [first]
  /\ In (uri again) (map uri (mergedSources [sourceChunk [first]]))
  /\ mergedSources [sourceChunk [first]; sourceChunk [again]] = [again]
  /\ mergedSources [sourceChunk [first]; sourceChunk [again]]
     <> mergedSources [sourceChunk [first]].
Proof.
  simpl. repeat split; try reflexivity.
  - now left.
  - discriminate.
Qed.

Lemma citationKey_pair c c' :
  startIndex c = startIndex c' -> c_uri c = c_uri c' ->
  citationKey c = citationKey c'.
Proof. unfold citationKey. now intros -> ->. Qed.

Lemma mergeChunk_twice_sources a c :
  JsMap.wf (sourcesMap a) ->
  sourcesMap (mergeChunk (mergeChunk a c) c) = sourcesMap (mergeChunk a c).
Proof.
  intros Hwf. simpl. unfold mergeSources.
  destruct (sources c); [now apply setAll_idempotent | reflexivity].
Qed.

Lemma mergeChunk_twice_citations a c :
  JsMap.wf (citationsMap a) ->
  citationsMap (mergeChunk (mergeChunk a c) c) = citationsMap (mergeChunk a c).
Proof.
  intros Hwf. simpl. unfold mergeCitations.
  destruct (citations c); [now apply setAll_idempotent | reflexivity].
Qed.

(** C2. On every accumulated state (the state reached from the empty maps by
    any chunks), merging the same chunk a second time leaves both the source
    map and the citation map as they were after the first time; storing a
    source whose uri is present does not change the number of sources, and
    storing a citation whose (startIndex, uri) pair is present does not
    change the number of citations. *)
Theorem reapplying_chunk_is_noop :
  forall (prev : list StreamChunk) (c : StreamChunk),
    let a := mergeChunks prev emptyAcc in
    sourcesMap (mergeChunk (mergeChunk a c) c) = sourcesMap (mergeChunk a c)
    /\ citationsMap (mergeChunk (mergeChunk a c) c)
       = citationsMap (mergeChunk a c)
    /\ (forall s s',
           In s' (JsMap.values (sourcesMap a)) -> uri s = uri s' ->
           JsMap.size (JsMap.set (uri s) s (sourcesMap a))
           = JsMap.size (sourcesMap a))
    /\ (forall ct ct',
           In ct' (JsMap.values (citationsMap a)) ->
           startIndex ct = startIndex ct' -> c_uri ct = c_uri ct' ->
           JsMap.size (JsMap.set (citationKey ct) ct (citationsMap a))
           = JsMap.size (citationsMap a)).
Proof.
  intros prev c a.
  destruct (reachable_sources_wf prev) as [Hws Hks].
  destruct (reachable_citations_wf prev) as [Hwc Hkc].
  fold a in Hws, Hks, Hwc, Hkc.
  split; [now apply mergeChunk_twice_sources|].
  split; [now apply mergeChunk_twice_citations|].
  split.
  - intros s s' Hin Heq. apply size_set_present.
    rewrite (keyedBy_keys Hks), Heq. now apply in_map.
  - intros ct ct' Hin Hs Hu. apply size_set_present.
    rewrite (keyedBy_keys Hkc), (citationKey_pair ct ct' Hs Hu).
    now apply in_map.
Qed.

Lemma reapplying_chunk_is_noop_witness :
  let ct := {| startIndex := Some 3%Z; endIndex := Some 9%Z;
               c_uri := "a"; license := None |} in
  let ct' := {| startIndex := Some 3%Z; endIndex := Some 7%Z;
                c_uri := "a"; license := Some "mit" |} in
  let prev := [{| text := Some "x"; sources := None; citations := Some [ct'] |}] in
  JsMap.size (JsMap.set (citationKey ct) ct
                (citationsMap (mergeChunks prev emptyAcc)))
  = JsMap.size (citationsMap (mergeChunks prev emptyAcc)).
Proof.
  intros ct ct' prev.
  destruct (reapplying_chunk_is_noop prev (sourceChunk [])) as (_ & _ & _ & H).
  apply (H ct ct'); [simpl; now left | reflexivity | reflexivity].
Defined.

(** ** The enrichment services *)

Section Services.
Context `{B : Builtins}.

Lemma tryCatch_total (A : Type) (body : Exc A) (fallback : A) :
  exists a, tryCatch body (fun _ => Ok fallback) = Ok a.
Proof. destruct body as [a|e]; simpl; eauto. Qed.

Lemma tryCatch_caught (A : Type) (body : Exc A) (fallback : A) e :
  body = Throw e -> tryCatch body (fun _ => Ok fallback) = Ok fallback.
Proof. now intros ->. Qed.

Lemma firstn_In (A : Type) (n : nat) (l : list A) x :
  In x (firstn n l) -> In x l.
Proof.
  revert n. induction l as [|y l IH]; intros [|n]; simpl; try tauto.
  intros [->|Hin]; [now left | right; eauto].
Qed.

Lemma firstn_NoDup (A : Type) (n : nat) (l : list A) :
  NoDup l -> NoDup (firstn n l).
Proof.
  revert n. induction l as [|x l IH]; intros [|n] Hnd; simpl;
    try constructor.
  - inversion Hnd as [|? ? Hnotin Hnd']; subst.
    intros Hin. apply Hnotin. eapply firstn_In; eassumption.
  - inversion Hnd; subst. now apply IH.
Qed.

Lemma distinctFirstFive_spec (qs : list string) :
  (List.length (distinctFirstFive qs) <= 5)%nat
  /\ NoDup (distinctFirstFive qs)
  /\ (forall q, In q (distinctFirstFive qs) -> In q qs).
Proof.
  unfold distinctFirstFive. split; [apply firstn_le_length|].
  split; [apply firstn_NoDup, firstSeen_NoDup|].
  intros q Hin. apply firstn_In in Hin.
  unfold firstSeen in Hin.
  assert (G : forall l acc, In q (fold_left pushNew l acc) ->
                            In q acc \/ In q l).
  { induction l as [|k l IH]; simpl; intros acc H; [now left|].
    apply IH in H as [H|H]; [|now right; right].
    unfold pushNew in H.
    destruct (existsb (String.eqb k) acc); [now left|].
    apply in_app_or in H as [H|[->|[]]]; [now left | now right; left]. }
  apply G in Hin as [[]|Hin]. assumption.
Qed.

Lemma relatedQueriesBody_result reply l :
  relatedQueriesBody reply = Ok l ->
  exists qs, l = distinctFirstFive qs.
Proof.
  unfold relatedQueriesBody, bindExc.
  destruct (responseText reply) as [jsonText|e]; [|discriminate].
  destruct (JSON_parse _) as [queries|e]; [|discriminate].
  destruct (asStringArray queries) as [qs|]; [|discriminate].
  intros [= <-]. now exists qs.
Qed.

(** The ways in which the body of [generateRelatedQueries] fails. *)
Lemma relatedQueriesBody_failures :
  (forall e, exists e', relatedQueriesBody (Throw e) = Throw e')
  /\ (exists e', relatedQueriesBody (Ok None) = Throw e')
  /\ (forall s,
         (forall x, exists e, JSON_parse x = Throw e) ->
         exists e', relatedQueriesBody (Ok (Some s)) = Throw e').
Proof.
  repeat split.
  - intros e. now exists e.
  - now exists typeError.
  - intros s Hbad. unfold relatedQueriesBody. simpl.
    destruct (Hbad (match unwrapFence (trim s) with
                    | Some inner => inner
                    | None => trim s
                    end)) as [e He].
    rewrite He. now exists e.
Qed.

(** C9. Neither enrichment task throws: a failure inside
    [generateRelatedQueries] or inside [fetchImagesForSources] (a rejected
    request, a response without text, text that does not parse, data of
    the wrong shape) is caught and turned into the empty array, and
    [fetchImagesForSources] also returns the empty array when the query is
    blank or there are no sources. *)
Theorem enrichment_degrades_to_empty :
  (forall q txt reply, exists l, generateRelatedQueries q txt reply = Ok l)
  /\ (forall q txt reply e,
         relatedQueriesBody reply = Throw e ->
         generateRelatedQueries q txt reply = Ok [])
  /\ (forall q srcs reply, exists l, fetchImagesForSources q srcs reply = Ok l)
  /\ (forall q srcs reply e,
         imagesBody reply = Throw e ->
         fetchImagesForSources q srcs reply = Ok [])
  /\ (forall q srcs reply,
         trim q = EmptyString \/ srcs = [] ->
         fetchImagesForSources q srcs reply = Ok []).
Proof.
  repeat split.
  - intros q txt reply. apply tryCatch_total.
  - intros q txt reply e. apply tryCatch_caught.
  - intros q srcs reply. unfold fetchImagesForSources.
    destruct (_ || _); [now exists [] | apply tryCatch_total].
  - intros q srcs reply e Hbody. unfold fetchImagesForSources.
    destruct (_ || _); [reflexivity | now rewrite Hbody].
  - intros q srcs reply [Hq| ->]; unfold fetchImagesForSources.
    + now rewrite Hq.
    + simpl. now rewrite orb_true_r.
Qed.

(** C10. Every run of [generateRelatedQueries] returns, and what it
    returns holds at most five strings, no two of them equal. *)
Theorem related_queries_at_most_five_distinct :
  forall q txt reply,
  exists l, generateRelatedQueries q txt reply = Ok l
            /\ (List.length l <= 5)%nat /\ NoDup l.
Proof.
  intros q txt reply. unfold generateRelatedQueries.
  destruct (relatedQueriesBody reply) as [l|e] eqn:E; simpl.
  - exists l. split; [reflexivity|].
    apply relatedQueriesBody_result in E as [qs ->].
    destruct (distinctFirstFive_spec qs) as (Hlen & Hnd & _). now split.
  - exists []. repeat split; [simpl; lia | constructor].
Qed.

(** ** The table extractor *)

End Services.


Lemma enrichment_degrades_to_empty_witness :
  @generateRelatedQueries MiniJson.builtins "q" "answer" (Ok None) = Ok []
  /\ @fetchImagesForSources MiniJson.builtins "  " [] (Ok None) = Ok [].
Proof.
  destruct (@enrichment_degrades_to_empty MiniJson.builtins)
    as (_ & H1 & _ & _ & H2).
  split.
  - apply (H1 "q" "answer" (Ok None) typeError). reflexivity.
  - apply (H2 "  " [] (Ok None)). left. reflexivity.
Defined.

(** ** The session *)

Ltac break_match :=
  match goal with
  | |- context [match ?x with _ => _ end] => destruct x eqn:?
  | |- context [if ?x then _ else _] => destruct x eqn:?
  end.

Ltac unfold_handlers :=
  unfold step, handleSendMessage, handleStop, handleNewChat, resetChatState,
    handleModelChange, handleFileChange, onChunk, onStreamEnd,
    onInsertSettled, onStreamError, onImages, onRelated, launchEnrichment,
    finish in *.

Section Session.
Context `{B : Builtins} `{C : Collaborators}.

Lemma insertLog_finish i s : insertLog (finish i s) = insertLog s.
Proof. now destruct s. Qed.

Lemma chatMessages_finish i s : chatMessages (finish i s) = chatMessages s.
Proof. now destruct s. Qed.


Lemma history_finish i s : history (finish i s) = history s.
Proof. now destruct s. Qed.

Lemma relatedQueries_finish i s : relatedQueries (finish i s) = relatedQueries s.
Proof. now destruct s. Qed.

Lemma calls_finish i s : calls (finish i s) = removeCall i (calls s).
Proof. now destruct s. Qed.

Lemma isLoading_finish i s : isLoading (finish i s) = false.
Proof. now destruct s. Qed.

(** Only the end of a stream can issue an insert. *)
Lemma insertLog_other_events s e :
  (forall i, e <> StreamEnd i) -> insertLog (step s e) = insertLog s.
Proof.
  intros Hne. destruct e; try (exfalso; now apply (Hne i));
    unfold_handlers; destruct s; simpl; repeat break_match; reflexivity.
Qed.

Lemma insertLog_stream_end s i call :
  findCall i (calls s) = Some call -> phase call = Streaming ->
  insertLog (step s (StreamEnd i))
  = if isNewChat call && negb (isRequestCancelled s)
    then insertLog s ++ [historyRowOf call] else insertLog s.
Proof.
  intros Hfind Hphase. simpl. unfold onStreamEnd.
  rewrite Hfind, Hphase.
  destruct (isRequestCancelled s) eqn:Hc.
  - rewrite andb_false_r. apply insertLog_finish.
  - rewrite andb_true_r.
    destruct (extractAndParseMarkdownTable (fullText (acc call)))
    as [remainingText tb].
    destruct (isNewChat call); unfold launchEnrichment;
      destruct (isGemini (callModel call)); destruct s; reflexivity.
Qed.

Lemma insertLog_stream_end_idle s i :
  (findCall i (calls s) = None
   \/ exists call, findCall i (calls s) = Some call /\ phase call = Inserting) ->
  step s (StreamEnd i) = s.
Proof.
  simpl. unfold onStreamEnd.
  intros [->|(call & -> & ->)]; reflexivity.
Qed.

(** Line 189. *)
Lemma submit_classifies_session s q :
  rejectsSubmission q s = false ->
  exists call,
    calls (step s (Submit q)) = calls s ++ [call]
    /\ modelMessageId call = S (nextId s)
    /\ phase call = Streaming
    /\ isNewChat call
       = match activeModel s with
         | gemini => match activeChat s with
                     | None => true
                     | Some _ => false
                     end
         | mistral => (List.length (chatMessages s) =? 0)%nat
         end.
Proof.
  intros Hrej. simpl. unfold handleSendMessage. rewrite Hrej.
  destruct s; simpl. eexists. split.
  - destruct (isGemini _ && _); reflexivity.
  - simpl. repeat split. unfold beginsNewSession. simpl.
    destruct activeModel0; [reflexivity|].
    now destruct chatMessages0.
Qed.

Lemma insert_only_at_stream_end s e :
  insertLog (step s e) <> insertLog s ->
  exists i call,
    e = StreamEnd i /\ findCall i (calls s) = Some call
    /\ phase call = Streaming /\ isNewChat call = true
    /\ isRequestCancelled s = false.
Proof.
  intros Hchg.
  destruct e as [| | | | |i c|i|i raw|i data|i imgs|i qs];
    try (exfalso; apply Hchg; apply insertLog_other_events;
         intros j; discriminate).
  destruct (findCall i (calls s)) as [call|] eqn:Hfind.
  - destruct (phase call) eqn:Hphase.
    + exists i, call.
      rewrite (insertLog_stream_end _ _ Hfind Hphase) in Hchg.
      destruct (isNewChat call), (isRequestCancelled s); simpl in Hchg;
        try (exfalso; now apply Hchg).
      repeat split; assumption.
    + exfalso. apply Hchg. rewrite insertLog_stream_end_idle; eauto.
  - exfalso. apply Hchg. rewrite insertLog_stream_end_idle; eauto.
Qed.
End Session.

Section SessionErrors.
Context `{B : Builtins} `{C : Collaborators}.









End SessionErrors.

Section SessionRuns.
Context `{B : Builtins} `{C : Collaborators}.

Lemma run_app es1 es2 s : run (es1 ++ es2) s = run es2 (run es1 s).
Proof. unfold run. apply fold_left_app. Qed.

Lemma run_cons e es s : run (e :: es) s = run es (step s e).
Proof. reflexivity. Qed.

(** While the flag is set, whatever is delivered leaves the visible
    messages, the related queries, the error and the rows sent to the
    history table as they are, and the flag stays set. *)
Lemma delivery_dropped_while_cancelled s e :
  isRequestCancelled s = true -> isDelivery e = true ->
  let s' := step s e in
  isRequestCancelled s' = true
  /\ chatMessages s' = chatMessages s
  /\ relatedQueries s' = relatedQueries s
  /\ error s' = error s
  /\ insertLog s' = insertLog s
  /\ history s' = history s.
Proof.
  intros Hc Hd. destruct e; try discriminate; unfold_handlers;
    destruct s; simpl in *; subst; repeat break_match; simpl;
    repeat split; reflexivity.
Qed.

Lemma deliveries_dropped_while_cancelled es s :
  isRequestCancelled s = true -> forallb isDelivery es = true ->
  let s' := run es s in
  isRequestCancelled s' = true
  /\ chatMessages s' = chatMessages s
  /\ relatedQueries s' = relatedQueries s
  /\ error s' = error s
  /\ insertLog s' = insertLog s
  /\ history s' = history s.
Proof.
  revert s. induction es as [|e es IH]; intros s Hc Hall.
  - simpl. repeat split; assumption || reflexivity.
  - simpl in Hall. apply andb_true_iff in Hall as [He Hes].
    rewrite run_cons.
    destruct (delivery_dropped_while_cancelled s e Hc He)
      as (Hc' & Hm & Hr & Herr & Hl & Hh).
    destruct (IH (step s e) Hc' Hes) as (Hc2 & Hm2 & Hr2 & Herr2 & Hl2 & Hh2).
    repeat split; congruence.
Qed.

Lemma forallb_map_chunk i (cs : list RawChunk) :
  forallb isDelivery (map (Chunk i) cs) = true.
Proof. induction cs; simpl; auto. Qed.

(** Line 183. *)
Lemma submission_rejected s q :
  rejectsSubmission q s = true -> step s (Submit q) = s.
Proof. intros H. simpl. unfold handleSendMessage. now rewrite H. Qed.

Lemma rejectsSubmission_iff s q :
  rejectsSubmission q s = true
  <-> isLoading s = true \/ (trim q = EmptyString /\ fileState s = None).
Proof.
  unfold rejectsSubmission. rewrite orb_true_iff, andb_true_iff. split.
  - intros [Hl|[Hq Hf]]; [now left | right]. split.
    + now destruct (trim q).
    + now destruct (fileState s).
  - intros [Hl|[Hq Hf]]; [now left | right]. now rewrite Hq, Hf.
Qed.

Lemma submit_sole_call s q :
  calls s = [] -> rejectsSubmission q s = false ->
  let s' := step s (Submit q) in
  soleCall (S (nextId s)) (beginsNewSession s) s'
  /\ isRequestCancelled s' = false
  /\ insertLog s' = insertLog s.
Proof.
  intros Hcalls Hrej. simpl. unfold handleSendMessage, soleCall.
  rewrite Hrej. destruct s; simpl in *; subst.
  split; [|destruct (isGemini _ && _); split; reflexivity].
  eexists. split; [destruct (isGemini _ && _); reflexivity|].
  simpl. repeat split.
Qed.

Lemma chunk_sole_call s i isNew c :
  soleCall i isNew s -> isRequestCancelled s = false ->
  let s' := step s (Chunk i c) in
  soleCall i isNew s'
  /\ isRequestCancelled s' = false
  /\ insertLog s' = insertLog s.
Proof.
  intros (call & Hcalls & Hid & Hphase & Hnew) Hc.
  simpl. unfold onChunk, soleCall, findCall. rewrite Hcalls. simpl.
  rewrite Hid, Nat.eqb_refl, Hphase, Hc.
  destruct (callModel call); destruct s; simpl in *; subst;
    rewrite Nat.eqb_refl;
    (split; [eexists; split; [reflexivity|]; simpl; repeat split; assumption
            | split; reflexivity]).
Qed.

Lemma chunks_sole_call cs s i isNew :
  soleCall i isNew s -> isRequestCancelled s = false ->
  let s' := run (map (Chunk i) cs) s in
  soleCall i isNew s'
  /\ isRequestCancelled s' = false
  /\ insertLog s' = insertLog s.
Proof.
  revert s. induction cs as [|c cs IH]; intros s Hsole Hc.
  - simpl. repeat split; assumption || reflexivity.
  - simpl map. rewrite run_cons.
    destruct (chunk_sole_call c Hsole Hc) as (Hsole' & Hc' & Hl').
    destruct (IH _ Hsole' Hc') as (Hsole2 & Hc2 & Hl2).
    repeat split; congruence.
Qed.

Lemma soleCall_find s i isNew :
  soleCall i isNew s ->
  exists call, findCall i (calls s) = Some call
               /\ phase call = Streaming /\ isNewChat call = isNew.
Proof.
  intros (call & Hcalls & Hid & Hphase & Hnew). exists call.
  unfold findCall. rewrite Hcalls. simpl. rewrite Hid, Nat.eqb_refl.
  repeat split; assumption.
Qed.

Lemma insertLog_stop s : insertLog (step s Stop) = insertLog s.
Proof. now destruct s. Qed.

Lemma cancelled_stop s : isRequestCancelled (step s Stop) = true.
Proof. now destruct s. Qed.

(** One turn running alone, from its submission to the end of its
    stream. *)
Lemma single_turn_history s q cs :
  calls s = [] -> rejectsSubmission q s = false ->
  let i := S (nextId s) in
  (exists row,
      insertLog (run (Submit q :: map (Chunk i) cs ++ [StreamEnd i]) s)
      = insertLog s ++ (if beginsNewSession s then [row] else []))
  /\ (forall raw,
         insertLog (run (Submit q :: map (Chunk i) cs ++ [StreamError i raw]) s)
         = insertLog s)
  /\ (forall cs',
         insertLog
           (run (Submit q :: map (Chunk i) cs
                   ++ Stop :: map (Chunk i) cs' ++ [StreamEnd i]) s)
         = insertLog s).
Proof.
  intros Hcalls Hrej i. subst i.
  destruct (submit_sole_call s q Hcalls Hrej) as (Hsole & Hc & Hl).
  destruct (chunks_sole_call cs Hsole Hc) as (Hsole' & Hc' & Hl').
  split; [|split].
  - destruct (soleCall_find Hsole') as (call & Hfind & Hphase & Hnew).
    exists (historyRowOf call).
    rewrite run_cons, run_app.
    match goal with
    | |- context [run [?e] ?x] => change (run [e] x) with (step x e)
    end.
    pose proof insertLog_stream_end as L.
    rewrite (L _ _ call Hfind Hphase), Hc', Hnew, Hl', Hl.
    destruct (beginsNewSession s); simpl; [reflexivity|].
    now rewrite app_nil_r.
  - intros raw. rewrite run_cons, run_app.
    match goal with
    | |- context [run [?e] ?x] => change (run [e] x) with (step x e)
    end.
    rewrite insertLog_other_events by (intros j; discriminate).
    congruence.
  - intros cs'. rewrite run_cons, run_app, run_cons.
    match goal with
    | |- context [run ?es (step ?x Stop)] =>
        pose proof (deliveries_dropped_while_cancelled es (step x Stop)) as D
    end.
    destruct D as (_ & _ & _ & _ & D & _).
    + apply cancelled_stop.
    + rewrite forallb_app, forallb_map_chunk. reflexivity.
    + rewrite D, insertLog_stop. congruence.
Qed.
End SessionRuns.

(** The shared flag is set by [handleStop] alone and cleared by an accepted
    submission alone. *)
Section CancellationFlag.
Context `{B : Builtins} `{C : Collaborators}.




End CancellationFlag.

(** What decides the insert. A submission from the render of the current
    state begins a new session exactly when, on Gemini, there is no active
    chat handle and, on Mistral, the visible message list is empty. A row
    is sent to the history table when the stream of a call ends, the call
    began a new session and the cancellation flag is not set at that
    moment, and by no other event. For a turn that runs alone: one row when
    it begins a new session and its stream ends; none for a continuation
    turn, none when the stream fails, none when it is stopped. *)
Theorem history_insert_iff_new_session `{B : Builtins} `{C : Collaborators} :
  (forall s q,
      rejectsSubmission q s = false ->
      exists call,
        calls (step s (Submit q)) = calls s ++ [call]
        /\ modelMessageId call = S (nextId s)
        /\ phase call = Streaming
        /\ isNewChat call
           = match activeModel s with
             | gemini => match activeChat s with
                         | None => true
                         | Some _ => false
                         end
             | mistral => (List.length (chatMessages s) =? 0)%nat
             end)
  /\ (forall s i call,
         findCall i (calls s) = Some call -> phase call = Streaming ->
         insertLog (step s (StreamEnd i))
         = if isNewChat call && negb (isRequestCancelled s)
           then insertLog s ++ [historyRowOf call] else insertLog s)
  /\ (forall s e,
         insertLog (step s e) <> insertLog s ->
         exists i call,
           e = StreamEnd i /\ findCall i (calls s) = Some call
           /\ phase call = Streaming /\ isNewChat call = true
           /\ isRequestCancelled s = false)
  /\ (forall s q cs,
         calls s = [] -> rejectsSubmission q s = false ->
         let i := S (nextId s) in
         (exists row,
             insertLog (run (Submit q :: map (Chunk i) cs ++ [StreamEnd i]) s)
             = insertLog s ++ (if beginsNewSession s then [row] else []))
         /\ (forall raw,
                insertLog
                  (run (Submit q :: map (Chunk i) cs ++ [StreamError i raw]) s)
                = insertLog s)
         /\ (forall cs',
                insertLog
                  (run (Submit q :: map (Chunk i) cs
                          ++ Stop :: map (Chunk i) cs' ++ [StreamEnd i]) s)
                = insertLog s)).
Proof.
  split; [|split; [|split]].
  - apply submit_classifies_session.
  - apply insertLog_stream_end.
  - apply insert_only_at_stream_end.
  - apply single_turn_history.
Qed.

Lemma history_insert_iff_new_session_witness :
  exists row,
    insertLog (demoRun [Submit "q"; Chunk 1 (textChunk "a"); StreamEnd 1]
                 initialState)
    = [row].
Proof.
  destruct (@history_insert_iff_new_session MiniJson.builtins demoCollaborators)
    as (_ & _ & _ & H).
  destruct (H initialState "q" [textChunk "a"] eq_refl eq_refl) as (H1 & _).
  exact H1.
Defined.

(** C3, at the failing input. The first turn is stopped after the chunk
    "a": its visible content is "a" and nothing has been inserted. The user
    submits again, which clears the shared flag; the next chunk of the
    stopped stream is appended to the stopped turn, and when that stream
    ends a history row is inserted for it. *)
Theorem stopped_stream_resumes_after_resubmission :
  let s1 := demoRun [Submit "q1"; Chunk 1 (textChunk "a"); Stop] initialState in
  let s2 := demoRun [Submit "q2"; Chunk 1 (textChunk "b")] s1 in
  let s3 := demoStep s2 (StreamEnd 1) in
  contentOf 1 s1 = Some "a"
  /\ isRequestCancelled s1 = true
  /\ insertLog s1 = []
  /\ contentOf 1 s2 = Some "ab"
  /\ map h_query (insertLog s3) = ["q1"]
  /\ map h_answer (insertLog s3) = ["ab"].
Proof. vm_compute. repeat split. Qed.

(** C5, at the failing inputs. The first turn begins a new session and is
    stopped after the chunk "a"; nothing has been inserted, and with
    nothing submitted the rest of its stream inserts nothing. But once the
    next submission has cleared the shared flag, the end of the stopped
    stream sends the row of the cancelled turn to the history table, while
    the second turn is still streaming. In the other direction: after a
    click on a related query the page has no chat handle and shows the
    turn as the first of the list, yet the end of its stream sends no
    row. *)
Theorem cancelled_turn_is_recorded_after_resubmission :
  let s1 := demoRun [Submit "q1"; Chunk 1 (textChunk "a"); Stop] initialState in
  let undisturbed := demoRun [Chunk 1 (textChunk "b"); StreamEnd 1] s1 in
  let s2 := demoRun [Submit "q2"; Chunk 1 (textChunk "b"); StreamEnd 1] s1 in
  let r := demoRun [Submit "q1"; Chunk 1 (textChunk "a"); StreamEnd 1;
                    InsertSettled 1 None; RelatedArrived 1 ["more"]]
             initialState in
  let c1 := handleRelatedQueryClick "more" r in
  let c2 := demoRun [Chunk 3 (textChunk "b"); StreamEnd 3] c1 in
  isRequestCancelled s1 = true
  /\ insertLog s1 = []
  /\ insertLog undisturbed = []
  /\ insertLog s2
     = [{| h_query := "q1"; h_answer := "ab"; h_sources := [];
           is_deep_research := false; workspace_id := None |}]
  /\ map modelMessageId (streamingCalls s2) = [3]
  /\ renderedRelatedQueries r = Some ["more"]
  /\ activeChat (handleNewChat r) = None
  /\ map content (chatMessages c1) = ["more"; ""]
  /\ map h_query (insertLog r) = ["q1"]
  /\ insertLog c2 = insertLog r
  /\ calls c2 = [].
Proof. vm_compute. repeat split. Qed.

(** C4, at the failing input. A first turn is committed and its enrichment
    is in flight; the user starts a new chat and completes a turn there. The
    related queries of the old session then arrive: they are stored, and
    they are rendered under the answer of the new chat. *)
Theorem stale_related_queries_reach_new_chat :
  let s1 := demoRun [Submit "q1"; Chunk 1 (textChunk "a"); StreamEnd 1;
                     InsertSettled 1 None; NewChat] initialState in
  let s2 := demoRun [Submit "q2"; Chunk 3 (textChunk "b"); StreamEnd 3;
                     InsertSettled 3 None] s1 in
  relatedQueries s1 = []
  /\ chatMessages s1 = []
  /\ relatedQueries (demoStep s1 (RelatedArrived 1 ["old"])) = ["old"]
  /\ renderedRelatedQueries s2 = None
  /\ renderedRelatedQueries (demoStep s2 (RelatedArrived 1 ["old"]))
     = Some ["old"].
Proof. vm_compute. repeat split. Qed.

(** C7, at the failing input. After a stop the stream of the first call is
    still open, the guard lets a second submission through, the shared flag
    is cleared, and two stream loops run side by side: each of them patches
    its own message when its next chunk arrives. *)
Theorem two_streams_after_stop_and_resubmission :
  let s1 := demoRun [Submit "q1"; Stop] initialState in
  let s2 := demoStep s1 (Submit "q2") in
  let s3 := demoRun [Chunk 1 (textChunk "x"); Chunk 3 (textChunk "y")] s2 in
  map modelMessageId (streamingCalls s1) = [1]
  /\ rejectsSubmission "q2" s1 = false
  /\ map modelMessageId (streamingCalls s2) = [1; 3]
  /\ isRequestCancelled s2 = false
  /\ contentOf 1 s3 = Some "x"
  /\ contentOf 3 s3 = Some "y".
Proof. vm_compute. repeat split. Qed.




(** The case that the amended C6 leaves out. A stopped request whose stream
    fails after the next submission finds the flag cleared: its error is
    surfaced, its placeholder is removed and [isLoading] is cleared while
    the stream of the second request is still running. *)
Lemma stopped_request_error_after_resubmission :
  let s := demoRun [Submit "q1"; Chunk 1 (textChunk "a"); Stop; Submit "q2"]
             initialState in
  let s' := demoStep s (StreamError 1 (ErrorObj "boom")) in
  error s' = Some "boom"
  /\ map id (chatMessages s') = [0; 2; 3]
  /\ isLoading s' = false
  /\ map modelMessageId (streamingCalls s') = [3].
Proof. vm_compute. repeat split. Qed.

Unset Implicit Arguments.

Section SingleFlight.
Context `{B : Builtins} `{C : Collaborators}.

Lemma removeCall_found i call (cs : list Call) :
  (List.length cs <= 1)%nat -> findCall i cs = Some call ->
  removeCall i cs = [].
Proof.
  destruct cs as [|c0 [|c1 l]]; simpl; intros Hlen Hfind;
    [discriminate | | lia].
  unfold findCall in Hfind. simpl in Hfind.
  destruct (Nat.eqb (modelMessageId c0) i); [reflexivity | discriminate].
Qed.

Lemma length_replaceCall c (cs : list Call) :
  List.length (replaceCall c cs) = List.length cs.
Proof. unfold replaceCall. apply length_map. Qed.

Lemma finish_singleFlight i call s :
  singleFlight s -> findCall i (calls s) = Some call ->
  singleFlight (finish i s).
Proof.
  intros [Hlen _] Hfind. unfold singleFlight.
  rewrite calls_finish, (removeCall_found i call _ Hlen Hfind).
  split; [simpl; lia | reflexivity].
Qed.

Lemma singleFlight_same s s' :
  calls s' = calls s -> isLoading s' = isLoading s ->
  singleFlight s -> singleFlight s'.
Proof. unfold singleFlight. intros -> ->. tauto. Qed.

Lemma singleFlight_replace s s' c :
  calls s' = replaceCall c (calls s) -> isLoading s' = isLoading s ->
  singleFlight s -> singleFlight s'.
Proof.
  unfold singleFlight. intros Hc Hl [Hlen Hidle].
  rewrite Hc, Hl, length_replaceCall. split; [assumption|].
  intros H. now rewrite (Hidle H).
Qed.

Lemma step_singleFlight s e :
  isQuiet e = true -> singleFlight s -> singleFlight (step s e).
Proof.
  intros Hq Hinv.
  destruct e as [q| | |m|f p|i c|i|i raw|i data|i imgs|i qs];
    try discriminate; simpl.
  - unfold handleSendMessage, rejectsSubmission.
    destruct (isLoading s) eqn:Hl; simpl; [assumption|].
    destruct Hinv as [_ Hidle]. specialize (Hidle Hl).
    destruct (isEmpty (trim q) && _); [split; [rewrite Hidle; simpl; lia|
                                                now intros _]|].
    destruct s; simpl in *; subst. unfold singleFlight.
    destruct (isGemini _ && _); simpl; split; (lia || discriminate).
  - unfold handleFileChange.
    destruct (_ <? _)%Z; eapply singleFlight_same; try eassumption;
      now destruct s.
  - unfold onChunk.
    destruct (findCall i (calls s)) as [call|] eqn:Hfind; [|assumption].
    destruct (phase call); [|assumption].
    destruct (isRequestCancelled s);
      [now apply finish_singleFlight with (call := call)|].
    destruct (callModel call);
      (eapply singleFlight_replace; [| |eassumption]; now destruct s).
  - unfold onStreamEnd.
    destruct (findCall i (calls s)) as [call|] eqn:Hfind; [|assumption].
    destruct (phase call); [|assumption].
    destruct (isRequestCancelled s);
      [now apply finish_singleFlight with (call := call)|].
    destruct (extractAndParseMarkdownTable _) as [remainingText tb].
    assert (Hs1 : forall s1,
               s1 = (if isGemini (callModel call) && isNewChat call
                     then launchEnrichment call s else s) ->
               calls s1 = calls s /\ isLoading s1 = isLoading s).
    { intros s1 ->. destruct (_ && _); [now destruct s | now split]. }
    destruct (Hs1 _ eq_refl) as [Hc1 Hl1].
    set (s1 := if isGemini (callModel call) && isNewChat call
               then launchEnrichment call s else s) in *.
    destruct (isNewChat call).
    + eapply singleFlight_replace with (c := withPhase Inserting call);
        [| |exact Hinv].
      * destruct s1; simpl in *. now rewrite Hc1.
      * destruct s1; simpl in *. assumption.
    + apply finish_singleFlight with (call := call).
      * eapply singleFlight_same; [| |exact Hinv]; destruct s1; assumption.
      * destruct s1; simpl in *. now rewrite Hc1.
  - unfold onStreamError.
    destruct (findCall i (calls s)) as [call|] eqn:Hfind; [|assumption].
    destruct (phase call); [|assumption].
    destruct (isRequestCancelled s);
      [now apply finish_singleFlight with (call := call)|].
    apply finish_singleFlight with (call := call).
    + eapply singleFlight_same; [| |exact Hinv]; now destruct s.
    + now destruct s.
  - unfold onInsertSettled.
    destruct (findCall i (calls s)) as [call|] eqn:Hfind; [|assumption].
    destruct (phase call); [assumption|].
    apply finish_singleFlight with (call := call).
    + destruct data; [|assumption].
      eapply singleFlight_same; [| |exact Hinv]; now destruct s.
    + destruct data; [now destruct s | assumption].
  - unfold onImages.
    destruct (existsb _ _); [|assumption].
    destruct (isRequestCancelled s);
      (eapply singleFlight_same; [| |exact Hinv]; now destruct s).
  - unfold onRelated.
    destruct (existsb _ _); [|assumption].
    destruct (isRequestCancelled s);
      (eapply singleFlight_same; [| |exact Hinv]; now destruct s).
Qed.

(** Along a run without stop, new chat or model change, at most one call
    of [handleSendMessage] is in flight, and none once [isLoading] is
    clear. *)
Lemma quiet_runs_are_single_flight es s :
  forallb isQuiet es = true -> singleFlight s -> singleFlight (run es s).
Proof.
  revert s. induction es as [|e es IH]; intros s Hall Hinv; [assumption|].
  simpl in Hall. apply andb_true_iff in Hall as [He Hes].
  rewrite run_cons. apply IH; [assumption|].
  now apply step_singleFlight.
Qed.

Lemma initial_singleFlight : singleFlight initialState.
Proof. split; [simpl; lia | reflexivity]. Qed.
End SingleFlight.

(** The continuation loop (line 214) merges sources and citations exactly as
    the first-turn loop (line 205) does on what [performSmartSearch]
    yields. *)
Lemma mergeRaw_maps a c :
  sourcesMap (mergeRaw a c) = sourcesMap (mergeChunk a (yieldOf c))
  /\ citationsMap (mergeRaw a c) = citationsMap (mergeChunk a (yieldOf c)).
Proof.
  split; [reflexivity|]. simpl. unfold mergeCitations.
  destruct (r_citations c) as [[|x l]|]; reflexivity.
Qed.

(** ** The visible message of a first Gemini turn is the merge of its chunks *)

Section VisibleTurn.
Context `{B : Builtins} `{C : Collaborators}.

Lemma find_patchMessage i f l :
  (forall msg, id (f msg) = id msg) ->
  find (fun msg => Nat.eqb (id msg) i) (patchMessage i f l)
  = option_map f (find (fun msg => Nat.eqb (id msg) i) l).
Proof.
  intros Hid. unfold patchMessage.
  induction l as [|m l IH]; simpl; [reflexivity|].
  destruct (Nat.eqb (id m) i) eqn:E; simpl.
  - now rewrite Hid, E.
  - now rewrite E.
Qed.

Lemma find_fresh_placeholder i (l : list ChatMessage) u p :
  Forall (fun msg => id msg < i) l -> id u < i -> id p = i ->
  find (fun msg => Nat.eqb (id msg) i) (l ++ [u; p]) = Some p.
Proof.
  intros Hall Hu Hp. induction Hall as [|m l Hm _ IH]; simpl.
  - destruct (Nat.eqb_spec (id u) i); [lia|]. now rewrite Hp, Nat.eqb_refl.
  - destruct (Nat.eqb_spec (id m) i); [lia | exact IH].
Qed.

Lemma submit_streamedView s q :
  calls s = [] -> rejectsSubmission q s = false ->
  activeModel s = gemini -> activeChat s = None ->
  Forall (fun msg => id msg < nextId s) (chatMessages s) ->
  streamedView (S (nextId s)) emptyAcc (step s (Submit q)).
Proof.
  intros Hcalls Hrej Hmodel Hchat Hfresh. simpl.
  unfold handleSendMessage, streamedView. rewrite Hrej.
  unfold beginsNewSession. rewrite Hmodel, Hchat.
  destruct s; simpl in *; subst. split.
  - eexists. split; [reflexivity|]. simpl. repeat split.
  - eexists. split.
    + apply find_fresh_placeholder; simpl; try lia.
      eapply Forall_impl; [|exact Hfresh]. simpl. intros; lia.
    + simpl. repeat split.
Qed.

Lemma chunk_streamedView s i a c :
  isRequestCancelled s = false ->
  streamedView i a s ->
  streamedView i (mergeChunk a (yieldOf c)) (step s (Chunk i c)).
Proof.
  intros Hc ((call & Hcalls & Hid & Hmodel & Hnew & Hphase & Hacc)
               & msg & Hfind & Hcontent & Hsrc & Hcit).
  simpl. unfold onChunk, findCall, streamedView.
  rewrite Hcalls. simpl. rewrite Hid, Nat.eqb_refl, Hphase, Hc, Hmodel, Hnew.
  destruct s; simpl in *; subst. rewrite Nat.eqb_refl. split.
  - eexists. split; [reflexivity|]. simpl. repeat split; assumption.
  - rewrite find_patchMessage by reflexivity. rewrite Hfind. simpl.
    eexists. split; [reflexivity|]. simpl. repeat split.
Qed.

Lemma chunk_keeps_flag s i c :
  isRequestCancelled s = false ->
  isRequestCancelled (step s (Chunk i c)) = false.
Proof.
  intros Hc. simpl. unfold onChunk.
  destruct (findCall i (calls s)) as [call|]; [|assumption].
  destruct (phase call); [|assumption]. rewrite Hc.
  destruct (callModel call); now destruct s.
Qed.

Lemma chunks_streamedView cs s i a :
  isRequestCancelled s = false ->
  streamedView i a s ->
  streamedView i (mergeChunks (map yieldOf cs) a) (run (map (Chunk i) cs) s).
Proof.
  revert s a. induction cs as [|c cs IH]; intros s a Hc Hview.
  - exact Hview.
  - simpl map. rewrite run_cons. simpl mergeChunks. apply IH.
    + now apply chunk_keeps_flag.
    + now apply chunk_streamedView.
Qed.

(** After any chunks of a first Gemini turn that runs alone, the pending
    message shows the accumulated text and the merged sources and
    citations. *)
Lemma visible_turn_is_merged s q cs :
  calls s = [] -> rejectsSubmission q s = false ->
  activeModel s = gemini -> activeChat s = None ->
  Forall (fun msg => id msg < nextId s) (chatMessages s) ->
  let i := S (nextId s) in
  exists msg,
    find (fun m => Nat.eqb (id m) i)
         (chatMessages (run (Submit q :: map (Chunk i) cs) s)) = Some msg
    /\ content msg = fullText (mergeChunks (map yieldOf cs) emptyAcc)
    /\ m_sources msg = Some (mergedSources (map yieldOf cs))
    /\ m_citations msg = Some (mergedCitations (map yieldOf cs)).
Proof.
  intros Hcalls Hrej Hmodel Hchat Hfresh i. subst i.
  rewrite run_cons.
  pose proof (submit_streamedView s q Hcalls Hrej Hmodel Hchat Hfresh) as Hview.
  destruct (submit_sole_call s q Hcalls Hrej) as (_ & Hc & _).
  destruct (chunks_streamedView cs _ _ _ Hc Hview) as (_ & msg & Hfind & H1 & H2 & H3).
  exists msg. repeat split; assumption.
Qed.
End VisibleTurn.

(** ** How a stopped stream comes back to life *)

Section Resubmission.
Context `{B : Builtins} `{C : Collaborators}.

(** After [handleStop] the guard of line 183 is open again although the
    call is still suspended in its loop. *)
Lemma stop_reopens_guard s q :
  isEmpty (trim q) = false ->
  rejectsSubmission q (step s Stop) = false
  /\ calls (step s Stop) = calls s
  /\ isRequestCancelled (step s Stop) = true.
Proof.
  intros Hq. unfold rejectsSubmission. rewrite Hq.
  destruct s; simpl. repeat split.
Qed.

(** An accepted submission clears the one shared flag and leaves the
    earlier calls where they are. *)
Lemma submission_clears_flag s q :
  rejectsSubmission q s = false ->
  isRequestCancelled (step s (Submit q)) = false
  /\ exists call, calls (step s (Submit q)) = calls s ++ [call].
Proof.
  intros Hrej. simpl. unfold handleSendMessage. rewrite Hrej.
  destruct s; simpl.
  destruct (isGemini _ && _); simpl; (split; [reflexivity | eauto]).
Qed.
End Resubmission.

(* ================================================================== *)
(** * Further properties of the code *)
(* ================================================================== *)

(** ** Strings *)

Lemma append_nil_r (s : string) : (s ++ "")%string = s.
Proof. induction s as [|c s IH]; simpl; [reflexivity | now rewrite IH]. Qed.

Lemma append_assoc (a b c : string) :
  ((a ++ b) ++ c)%string = (a ++ (b ++ c))%string.
Proof. induction a as [|x a IH]; simpl; [reflexivity | now rewrite IH]. Qed.

Lemma prefix_append (a b : string) : String.prefix a (a ++ b) = true.
Proof.
  induction a as [|x a IH]; simpl; [now destruct b|].
  destruct (ascii_dec x x) as [_|Hne]; [exact IH | now elim Hne].
Qed.

Lemma prefix_nil_l (s : string) : String.prefix "" s = true.
Proof. now destruct s. Qed.

(** ** The merger, continued *)

Lemma fold_pushNew_extends (ks acc : list string) :
  exists more, fold_left pushNew ks acc = acc ++ more.
Proof.
  revert acc. induction ks as [|k ks IH]; intros acc; simpl.
  - exists []. now rewrite app_nil_r.
  - destruct (IH (pushNew acc k)) as [more Hmore]. rewrite Hmore.
    unfold pushNew. destruct (existsb (String.eqb k) acc).
    + now exists more.
    + exists (k :: more). now rewrite <- app_assoc.
Qed.

Lemma merged_citation_keys cs :
  map citationKey (mergedCitations cs)
  = firstSeen (map citationKey (allCitations cs)).
Proof.
  unfold mergedCitations.
  destruct (reachable_citations_wf cs) as [_ Hk].
  rewrite <- (keyedBy_keys Hk), citationsMap_mergeChunks, keys_setAll.
  reflexivity.
Qed.

(** X1. The merged citation list of a turn has one entry per key
    [`${startIndex}-${uri}`], in the order in which the keys were first
    seen, and the entry kept for a key is the last citation received with
    it. *)
Theorem merged_citations_unique_by_key :
  forall cs,
    map citationKey (mergedCitations cs)
    = firstSeen (map citationKey (allCitations cs))
    /\ NoDup (map citationKey (mergedCitations cs))
    /\ (forall c,
           In c (mergedCitations cs) ->
           lastWith citationKey (citationKey c) (allCitations cs) = Some c).
Proof.
  intros cs. split; [apply merged_citation_keys|]. split.
  - rewrite merged_citation_keys. apply firstSeen_NoDup.
  - intros c Hin. unfold mergedCitations in Hin.
    destruct (reachable_citations_wf cs) as [Hwf Hk].
    pose proof (keyedBy_get c Hk Hwf Hin) as Hget.
    rewrite citationsMap_mergeChunks, get_setAll in Hget.
    destruct (lastWith citationKey (citationKey c) (allCitations cs));
      [assumption | discriminate].
Qed.

Lemma merged_citations_unique_by_key_witness :
  let c := {| startIndex := Some 4%Z; endIndex := None; c_uri := "a";
              license := None |} in
  lastWith citationKey (citationKey c)
    (allCitations [{| text := None; sources := None; citations := Some [c] |}])
  = Some c.
Proof.
  intros c.
  destruct (merged_citations_unique_by_key
              [{| text := None; sources := None; citations := Some [c] |}])
    as (_ & _ & H).
  apply H. simpl. now left.
Defined.

Lemma allSources_app cs1 cs2 :
  allSources (cs1 ++ cs2) = allSources cs1 ++ allSources cs2.
Proof. unfold allSources. apply flat_map_app. Qed.

Lemma allCitations_app cs1 cs2 :
  allCitations (cs1 ++ cs2) = allCitations cs1 ++ allCitations cs2.
Proof. unfold allCitations. apply flat_map_app. Qed.

(** X2. Citation numbering is stable while a turn streams: after further
    chunks the list of source uris, and the list of citation keys, is the
    list before followed by the new ones, so an entry never moves and the
    lists never shrink. *)
Theorem numbering_is_stable_across_chunks :
  forall cs more,
    (exists new,
        map uri (mergedSources (cs ++ more)) = map uri (mergedSources cs) ++ new)
    /\ (exists new,
           map citationKey (mergedCitations (cs ++ more))
           = map citationKey (mergedCitations cs) ++ new)
    /\ List.length (mergedSources cs) <= List.length (mergedSources (cs ++ more))
    /\ List.length (mergedCitations cs)
       <= List.length (mergedCitations (cs ++ more)).
Proof.
  intros cs more.
  assert (Hs : exists new,
             map uri (mergedSources (cs ++ more))
             = map uri (mergedSources cs) ++ new).
  { rewrite !merged_uris, allSources_app, map_app. unfold firstSeen.
    rewrite fold_left_app. apply fold_pushNew_extends. }
  assert (Hc : exists new,
             map citationKey (mergedCitations (cs ++ more))
             = map citationKey (mergedCitations cs) ++ new).
  { rewrite !merged_citation_keys, allCitations_app, map_app. unfold firstSeen.
    rewrite fold_left_app. apply fold_pushNew_extends. }
  split; [exact Hs|]. split; [exact Hc|]. split.
  - destruct Hs as [new Hs]. apply (f_equal (@List.length string)) in Hs.
    rewrite length_app, !length_map in Hs. lia.
  - destruct Hc as [new Hc]. apply (f_equal (@List.length string)) in Hc.
    rewrite length_app, !length_map in Hc. lia.
Qed.

Lemma fullText_mergeChunks cs a :
  fullText (mergeChunks cs a)
  = (fullText a ++ String.concat "" (map (fun c => orEmpty (text c)) cs))%string.
Proof.
  unfold mergeChunks. revert a.
  induction cs as [|c cs IH]; intros a; simpl.
  - now rewrite append_nil_r.
  - rewrite IH. simpl. rewrite append_assoc. f_equal.
    destruct cs as [|c' cs']; simpl; [now rewrite append_nil_r | reflexivity].
Qed.

(** X3. The text of a turn is the concatenation of the chunk texts in
    arrival order, a chunk without text contributing nothing; so the text
    shown after some chunks is a prefix of the text shown after more. *)
Theorem text_accumulates_in_arrival_order :
  forall cs more,
    fullText (mergeChunks cs emptyAcc)
    = String.concat "" (map (fun c => orEmpty (text c)) cs)
    /\ String.prefix (fullText (mergeChunks cs emptyAcc))
         (fullText (mergeChunks (cs ++ more) emptyAcc)) = true.
Proof.
  intros cs more. split.
  - now rewrite fullText_mergeChunks.
  - rewrite mergeChunks_app, (fullText_mergeChunks more). apply prefix_append.
Qed.

(** X4. The continuation loop (line 214) and the first-turn loop (line 205)
    merge sources and citations alike, and append the same text when the
    chunk has text; for a chunk without text the continuation loop appends
    the nine characters "undefined", the first-turn loop nothing. *)
Theorem continuation_loop_matches_first_turn_loop :
  forall a c,
    sourcesMap (mergeRaw a c) = sourcesMap (mergeChunk a (yieldOf c))
    /\ citationsMap (mergeRaw a c) = citationsMap (mergeChunk a (yieldOf c))
    /\ (forall s, r_text c = Some s ->
                  fullText (mergeRaw a c) = fullText (mergeChunk a (yieldOf c)))
    /\ (r_text c = None ->
        fullText (mergeChunk a (yieldOf c)) = fullText a
        /\ fullText (mergeRaw a c) = (fullText a ++ "undefined")%string).
Proof.
  intros a c. destruct (mergeRaw_maps a c) as [Hs Hc].
  split; [exact Hs|]. split; [exact Hc|]. split.
  - intros s Hs'. simpl. now rewrite Hs'.
  - intros Hn. simpl. rewrite Hn. simpl. now rewrite append_nil_r.
Qed.

Lemma continuation_loop_matches_first_turn_loop_witness :
  fullText (mergeRaw emptyAcc
              {| r_text := None; groundingChunks := None; r_citations := None |})
  = "undefined".
Proof.
  destruct (continuation_loop_matches_first_turn_loop emptyAcc
              {| r_text := None; groundingChunks := None; r_citations := None |})
    as (_ & _ & _ & H).
  destruct (H eq_refl) as [_ H2]. exact H2.
Defined.

Lemma toSources_spec l :
  Forall (fun s => isEmpty (uri s) = false /\ isEmpty (title s) = false
                   /\ In (Some {| w_uri := Some (uri s);
                                  w_title := Some (title s) |}) l)
         (toSources l).
Proof.
  induction l as [|w l IH]; simpl; [constructor|].
  assert (Hrest : Forall (fun s => isEmpty (uri s) = false
                                   /\ isEmpty (title s) = false
                                   /\ In (Some {| w_uri := Some (uri s);
                                                  w_title := Some (title s) |})
                                        (w :: l)) (toSources l)).
  { eapply Forall_impl; [|exact IH]. simpl. intros s (H1 & H2 & H3).
    repeat split; try assumption. now right. }
  destruct w as [[[u|] [ti|]]|]; try exact Hrest.
  destruct (isEmpty u) eqn:Eu; simpl; [exact Hrest|].
  destruct (isEmpty ti) eqn:Et; simpl; [exact Hrest|].
  constructor; [|exact Hrest]. simpl. repeat split; try assumption. now left.
Qed.

Lemma toSources_complete l u ti :
  In (Some {| w_uri := Some u; w_title := Some ti |}) l ->
  isEmpty u = false -> isEmpty ti = false ->
  In {| title := ti; uri := u |} (toSources l).
Proof.
  intros Hin Hu Ht. induction l as [|w l IH]; [destruct Hin|].
  destruct Hin as [->|Hin].
  - simpl. rewrite Hu, Ht. simpl. now left.
  - specialize (IH Hin). simpl.
    destruct w as [[[u'|] [ti'|]]|]; try exact IH.
    destruct (isEmpty u' || isEmpty ti'); [exact IH | now right].
Qed.

(** X5. The sources taken from the grounding chunks of a response are
    exactly the web entries that have both a non-empty uri and a non-empty
    title: every source produced has both and comes from such an entry, and
    every such entry produces its source; entries without a web part, or
    with a missing or empty uri or title, are dropped. *)
Theorem grounding_sources_are_complete_entries :
  forall l,
    Forall (fun s => isEmpty (uri s) = false /\ isEmpty (title s) = false
                     /\ In (Some {| w_uri := Some (uri s);
                                    w_title := Some (title s) |}) l)
           (toSources l)
    /\ (forall u ti,
           In (Some {| w_uri := Some u; w_title := Some ti |}) l ->
           isEmpty u = false -> isEmpty ti = false ->
           In {| title := ti; uri := u |} (toSources l))
    /\ List.length (toSources l) <= List.length l.
Proof.
  intros l. split; [apply toSources_spec|]. split; [apply toSources_complete|].
  induction l as [|w l IH]; simpl; [lia|].
  destruct w as [[[u|] [ti|]]|]; try lia.
  destruct (isEmpty u || isEmpty ti); simpl; lia.
Qed.

Lemma grounding_sources_are_complete_entries_witness :
  In {| title := "T"; uri := "u" |}
     (toSources [None; Some {| w_uri := Some "u"; w_title := Some "T" |};
                 Some {| w_uri := Some "v"; w_title := None |}]).
Proof.
  destruct (grounding_sources_are_complete_entries
              [None; Some {| w_uri := Some "u"; w_title := Some "T" |};
               Some {| w_uri := Some "v"; w_title := None |}]) as (_ & H & _).
  apply H; [simpl; tauto | reflexivity | reflexivity].
Defined.

(** ** The services, continued *)

Section MoreServices.
Context `{B : Builtins}.

Lemma validImage_true r :
  validImage r = Ok true ->
  exists imageUrl sourceUrl,
    getProp "imageUrl" r = Some (JString imageUrl)
    /\ startsWith "http" imageUrl = true
    /\ getProp "sourceUrl" r = Some (JString sourceUrl)
    /\ startsWith "http" sourceUrl = true
    /\ truthy (getProp "title" r) = true.
Proof.
  unfold validImage.
  assert (G : (if negb (truthy (getProp "imageUrl" r)) then Ok false
               else if negb (truthy (getProp "sourceUrl" r)) then Ok false
               else if negb (truthy (getProp "title" r)) then Ok false
               else bindExc (callStartsWithHttp (getProp "imageUrl" r))
                      (fun a => if negb a then Ok false
                                else callStartsWithHttp (getProp "sourceUrl" r)))
              = Ok true ->
              exists imageUrl sourceUrl,
                getProp "imageUrl" r = Some (JString imageUrl)
                /\ startsWith "http" imageUrl = true
                /\ getProp "sourceUrl" r = Some (JString sourceUrl)
                /\ startsWith "http" sourceUrl = true
                /\ truthy (getProp "title" r) = true).
  { destruct (truthy (getProp "imageUrl" r)); simpl; [|discriminate].
    destruct (truthy (getProp "sourceUrl" r)); simpl; [|discriminate].
    destruct (truthy (getProp "title" r)); simpl; [|discriminate].
    destruct (getProp "imageUrl" r) as [[| | |iu| |]|]; simpl; try discriminate.
    destruct (startsWith "http" iu) eqn:Ei; simpl; [|discriminate].
    destruct (getProp "sourceUrl" r) as [[| | |su| |]|]; simpl; try discriminate.
    intros [= Hs]. exists iu, su. repeat split; assumption. }
  destruct r; try exact G. discriminate.
Qed.

Lemma filterExc_spec (A : Type) (p : A -> Exc bool) l l' :
  filterExc p l = Ok l' ->
  Forall (fun x => p x = Ok true /\ In x l) l'
  /\ List.length l' <= List.length l.
Proof.
  revert l'. induction l as [|x l IH]; simpl; intros l' H.
  - injection H as <-. split; [constructor | simpl; lia].
  - unfold bindExc in H.
    destruct (p x) as [keep|e] eqn:Ep; [|discriminate].
    destruct (filterExc p l) as [rest|e]; [|discriminate].
    injection H as <-. destruct (IH rest eq_refl) as [Hall Hlen].
    assert (Hall' : Forall (fun y => p y = Ok true /\ In y (x :: l)) rest).
    { eapply Forall_impl; [|exact Hall]. simpl. intros y [Hy Hin]. tauto. }
    destruct keep; split; simpl; try lia; try exact Hall'.
    constructor; [|exact Hall']. split; [exact Ep | now left].
Qed.

Lemma imagesBody_spec reply l :
  imagesBody reply = Ok l ->
  Forall (fun r => validImage r = Ok true) l.
Proof.
  unfold imagesBody, bindExc.
  destruct (responseText reply) as [jsonText|e]; [|discriminate].
  destruct (negb (startsWith "[" _)); [intros [= <-]; constructor|].
  destruct (JSON_parse _) as [results|e]; [|discriminate].
  destruct results; try discriminate.
  intros H. apply filterExc_spec in H as [Hall _].
  eapply Forall_impl; [|exact Hall]. simpl. tauto.
Qed.

Lemma validImage_complete r imageUrl sourceUrl :
  getProp "imageUrl" r = Some (JString imageUrl) ->
  startsWith "http" imageUrl = true ->
  getProp "sourceUrl" r = Some (JString sourceUrl) ->
  startsWith "http" sourceUrl = true ->
  truthy (getProp "title" r) = true ->
  validImage r = Ok true.
Proof.
  intros Hi Hhi Hs Hhs Ht.
  assert (Hti : truthy (Some (JString imageUrl)) = true).
  { simpl. destruct imageUrl; [discriminate | reflexivity]. }
  assert (Hts : truthy (Some (JString sourceUrl)) = true).
  { simpl. destruct sourceUrl; [discriminate | reflexivity]. }
  unfold validImage.
  destruct r; try discriminate.
  rewrite Hi, Hs, Ht, Hti, Hts. simpl. rewrite Hhi. simpl. now rewrite Hhs.
Qed.

(** X6. Whatever [fetchImagesForSources] returns, each element has an
    [imageUrl] and a [sourceUrl] that are strings starting with "http", and
    a title that is truthy: a title that is a string is not empty, but the
    filter of lines 536-539 does not ask for a string, so a title that is a
    non-zero number, [true], an array or an object is let through as well.
    The filter keeps every element of that form. *)
Theorem returned_images_are_well_formed :
  (forall q srcs reply l,
      fetchImagesForSources q srcs reply = Ok l ->
      Forall (fun r =>
                (exists imageUrl sourceUrl,
                    getProp "imageUrl" r = Some (JString imageUrl)
                    /\ startsWith "http" imageUrl = true
                    /\ getProp "sourceUrl" r = Some (JString sourceUrl)
                    /\ startsWith "http" sourceUrl = true)
                /\ truthy (getProp "title" r) = true
                /\ (forall ti, getProp "title" r = Some (JString ti) ->
                                isEmpty ti = false)) l)
  /\ (forall r imageUrl sourceUrl,
         getProp "imageUrl" r = Some (JString imageUrl) ->
         startsWith "http" imageUrl = true ->
         getProp "sourceUrl" r = Some (JString sourceUrl) ->
         startsWith "http" sourceUrl = true ->
         (truthy (getProp "title" r) = true <-> validImage r = Ok true))
  /\ (forall n, n <> 0%Z -> truthy (Some (JNumber n)) = true)
  /\ truthy (Some (JBool true)) = true
  /\ (forall items, truthy (Some (JArray items)) = true)
  /\ (forall fields, truthy (Some (JObject fields)) = true).
Proof.
  split; [|split; [|split; [|split; [|split]]]].
  - intros q srcs reply l Hl.
    assert (Hall : Forall (fun r => validImage r = Ok true) l).
    { revert Hl. unfold fetchImagesForSources.
      destruct (_ || _); [intros [= <-]; constructor|].
      destruct (imagesBody reply) as [l0|e] eqn:E; simpl.
      - intros [= <-]. now apply imagesBody_spec in E.
      - intros [= <-]. constructor. }
    eapply Forall_impl; [|exact Hall]. simpl. intros r Hr.
    destruct (validImage_true r Hr) as (iu & su & H1 & H2 & H3 & H4 & H5).
    split; [exists iu, su; repeat split; assumption|].
    split; [exact H5|].
    intros ti Hti. rewrite Hti in H5. simpl in H5.
    now destruct ti.
  - intros r imageUrl sourceUrl Hi Hhi Hs Hhs. split.
    + now apply validImage_complete with (imageUrl := imageUrl)
                                          (sourceUrl := sourceUrl).
    + intros Hr. now destruct (validImage_true r Hr) as (_ & _ & _ & _ & _ & _ & H).
  - intros n Hn. simpl. apply negb_true_iff. now apply Z.eqb_neq.
  - reflexivity.
  - reflexivity.
  - reflexivity.
Qed.

Lemma firstSeen_In_gen (l acc : list string) x :
  In x (fold_left pushNew l acc) <-> In x acc \/ In x l.
Proof.
  revert acc. induction l as [|k l IH]; intros acc; simpl; [tauto|].
  rewrite IH. unfold pushNew.
  destruct (existsb (String.eqb k) acc) eqn:E.
  - apply existsb_eqb_In in E. split; [tauto|].
    intros [H|[<-|H]]; tauto.
  - rewrite in_app_iff. simpl. tauto.
Qed.

Lemma firstSeen_In (l : list string) x : In x (firstSeen l) <-> In x l.
Proof. unfold firstSeen. rewrite firstSeen_In_gen. simpl. tauto. Qed.

Lemma allStrings_None items :
  (exists v, In v items /\ forall s, v <> JString s) ->
  allStrings items = None.
Proof.
  intros (v & Hin & Hns). induction items as [|x r IH]; [destruct Hin|].
  destruct Hin as [->|Hin].
  - destruct v; try reflexivity. now elim (Hns s).
  - simpl. destruct x; try reflexivity. now rewrite (IH Hin).
Qed.

(** X7. [generateRelatedQueries] is all or nothing. When the reply parses to
    an array of strings, the result is its first five distinct elements:
    each result comes from the reply, and every query of the reply is
    returned when the reply has at most five distinct ones. When the array
    holds one element that is not a string, the result is empty. *)
Theorem related_queries_all_or_nothing :
  forall q txt reply jsonText items,
    responseText reply = Ok jsonText ->
    JSON_parse (match unwrapFence jsonText with
                | Some inner => inner
                | None => jsonText
                end) = Ok (JArray items) ->
    (forall qs,
        allStrings items = Some qs ->
        exists l,
          generateRelatedQueries q txt reply = Ok l
          /\ l = firstn 5 (firstSeen qs)
          /\ (forall x, In x l -> In x qs)
          /\ (List.length (firstSeen qs) <= 5 -> forall x, In x qs -> In x l))
    /\ ((exists v, In v items /\ forall s, v <> JString s) ->
        generateRelatedQueries q txt reply = Ok []).
Proof.
  intros q txt reply jsonText items Htext Hparse. split.
  - intros qs Hqs. exists (firstn 5 (firstSeen qs)).
    unfold generateRelatedQueries, relatedQueriesBody, bindExc, asStringArray.
    rewrite Htext, Hparse, Hqs. unfold tryCatch, distinctFirstFive.
    split; [reflexivity|]. split; [reflexivity|]. split.
    + intros x Hx. apply firstSeen_In. eapply firstn_In. exact Hx.
    + intros Hlen x Hx. rewrite firstn_all2 by assumption.
      now apply firstSeen_In.
  - intros Hbad.
    unfold generateRelatedQueries, relatedQueriesBody, bindExc, asStringArray.
    rewrite Htext, Hparse. now rewrite (allStrings_None items Hbad).
Qed.

Lemma removeQuotes_clean s : hasQuote (removeQuotes s) = false.
Proof.
  induction s as [|c s IH]; simpl; [reflexivity|].
  destruct (Ascii.eqb c (ascii_of_nat 34) || Ascii.eqb c "'") eqn:E;
    [exact IH|].
  simpl. now rewrite E, IH.
Qed.

Lemma truncatedQuery_nonempty q : isEmpty (truncatedQuery q) = false.
Proof.
  unfold truncatedQuery. destruct (substringUnits 40 q); reflexivity.
Qed.

Lemma substringUnits_ascii n s :
  asciiText s = true -> substringUnits n s = String.substring 0 n s.
Proof.
  unfold asciiText. revert s.
  induction n as [|n IH]; intros s Hs; [now destruct s|].
  destruct s as [|c r]; [reflexivity|].
  cbn [list_ascii_of_string forallb] in Hs.
  apply andb_true_iff in Hs as [Hc Hr].
  cbn [substringUnits String.substring]. unfold seqLength.
  apply Nat.ltb_lt in Hc.
  destruct (Nat.ltb_spec (nat_of_ascii c) 192); [|lia].
  cbn [dropChars String.substring append].
  replace (String.substring 0 0 r) with EmptyString by now destruct r.
  cbn [append]. now rewrite IH.
Qed.

(** X8. [generateChatTitle] always returns, and never the empty string. For
    an empty query the title is "New Chat". For any other query: when the
    reply has a text and, trimmed and with every single and double
    quotation mark removed, that text is not empty, the title is that text
    (so it has no quotation mark); when nothing is left of the text, when
    the reply has no text, and when the request fails, the title is the
    first 40 UTF-16 units of the query followed by three dots. On an ASCII
    query that cut is the first 40 characters. *)
Theorem chat_title_is_never_empty :
  forall q reply,
    (exists title,
        generateChatTitle q reply = Ok title /\ isEmpty title = false)
    /\ (isEmpty q = true -> generateChatTitle q reply = Ok "New Chat")
    /\ (isEmpty q = false ->
        (forall txt,
            reply = Ok (Some txt) ->
            isEmpty (removeQuotes (trim txt)) = false ->
            generateChatTitle q reply = Ok (removeQuotes (trim txt))
            /\ hasQuote (removeQuotes (trim txt)) = false)
        /\ (forall txt,
               reply = Ok (Some txt) ->
               isEmpty (removeQuotes (trim txt)) = true ->
               generateChatTitle q reply = Ok (truncatedQuery q))
        /\ (reply = Ok None \/ (exists e, reply = Throw e) ->
            generateChatTitle q reply = Ok (truncatedQuery q)))
    /\ truncatedQuery q = (substringUnits 40 q ++ "...")%string
    /\ (asciiText q = true ->
        truncatedQuery q = (String.substring 0 40 q ++ "...")%string).
Proof.
  intros q reply. split; [|split; [|split; [|split]]].
  - unfold generateChatTitle.
    destruct (isEmpty q); [exists "New Chat"; now split|].
    unfold bindExc. destruct (responseText reply) as [txt|e]; simpl.
    + destruct (isEmpty (removeQuotes txt)) eqn:Et.
      * exists (truncatedQuery q).
        split; [reflexivity | apply truncatedQuery_nonempty].
      * exists (removeQuotes txt). now split.
    + exists (truncatedQuery q).
      split; [reflexivity | apply truncatedQuery_nonempty].
  - intros Hq. unfold generateChatTitle. now rewrite Hq.
  - intros Hq. unfold generateChatTitle. rewrite Hq.
    split; [|split].
    + intros txt -> Hne. simpl. rewrite Hne.
      split; [reflexivity | apply removeQuotes_clean].
    + intros txt -> He. simpl. now rewrite He.
    + intros [->|[e ->]]; reflexivity.
  - reflexivity.
  - intros Ha. unfold truncatedQuery. now rewrite substringUnits_ascii.
Qed.

(** X9. [generateWorkspaceSummary] returns the empty summary for an empty
    list of chats without consulting the model; for a non-empty list it
    returns the trimmed text of the reply, and any failure (a rejected
    request, a reply without text) is rethrown as the one error "Could not
    generate summary."; only the first five chats reach the model. *)
Theorem workspace_summary_outcomes :
  (forall reply, generateWorkspaceSummary [] reply = Ok EmptyString)
  /\ (forall c cs reply txt,
         reply (summaryContext (c :: cs)) = Ok (Some txt) ->
         generateWorkspaceSummary (c :: cs) reply = Ok (trim txt))
  /\ (forall c cs reply,
         (reply (summaryContext (c :: cs)) = Ok None
          \/ exists e, reply (summaryContext (c :: cs)) = Throw e) ->
         generateWorkspaceSummary (c :: cs) reply = Throw summaryFailure)
  /\ (forall chats more,
         5 <= List.length chats ->
         summaryContext (chats ++ more) = summaryContext chats).
Proof.
  split; [reflexivity|]. split; [|split].
  - intros c cs reply txt H. simpl. now rewrite H.
  - intros c cs reply [H|[e H]]; simpl; now rewrite H.
  - intros chats more Hlen. unfold summaryContext.
    now rewrite firstn_app, (proj2 (Nat.sub_0_le _ _) Hlen), firstn_O, app_nil_r.
Qed.

Lemma workspace_summary_outcomes_witness :
  generateWorkspaceSummary [{| ce_query := "q"; ce_answer := "a" |}]
    (fun _ => Ok (Some " A summary. "))
  = Ok "A summary.".
Proof.
  destruct workspace_summary_outcomes as (_ & H & _).
  apply (H {| ce_query := "q"; ce_answer := "a" |} []
           (fun _ => Ok (Some " A summary. ")) " A summary. ").
  reflexivity.
Defined.
End MoreServices.

Lemma returned_images_are_well_formed_witness :
  Forall (fun r => truthy (getProp "title" r) = true)
    [JObject [("imageUrl", JString "http://x/i.png");
              ("sourceUrl", JString "http://x"); ("title", JString "T")]]
  /\ validImage (JObject [("imageUrl", JString "http://x/i.png");
                          ("sourceUrl", JString "http://x");
                          ("title", JNumber 7)]) = Ok true.
Proof.
  destruct (@returned_images_are_well_formed MiniJson.builtins)
    as (Hreturned & Hkept & _).
  split.
  - pose proof (Hreturned "q"
                  [{| title := "a"; uri := "u" |}]
                  (Ok (Some (MiniJson.quoted
                     "[{'imageUrl':'http://x/i.png','sourceUrl':'http://x','title':'T'},{'imageUrl':'ftp://x','sourceUrl':'http://x','title':'T'}]")))
                  _ eq_refl) as H.
    eapply Forall_impl; [|exact H]. simpl.
    intros r (_ & Ht & _). exact Ht.
  - apply (Hkept _ "http://x/i.png" "http://x"); reflexivity.
Defined.

Lemma related_queries_all_or_nothing_witness :
  @generateRelatedQueries MiniJson.builtins "q" "answer"
    (Ok (Some (MiniJson.quoted "['a', 7]"))) = Ok [].
Proof.
  destruct (@related_queries_all_or_nothing MiniJson.builtins "q" "answer"
              (Ok (Some (MiniJson.quoted "['a', 7]")))
              (MiniJson.quoted "['a', 7]") [JString "a"; JNumber 7]
              eq_refl eq_refl) as [_ H].
  apply H. exists (JNumber 7). split; [simpl; tauto | discriminate].
Defined.

Lemma chat_title_is_never_empty_witness :
  generateChatTitle "" (Throw typeError) = Ok "New Chat"
  /\ generateChatTitle "what is rocq" (Ok (Some " 'Rocq', a prover "))
     = Ok "Rocq, a prover"
  /\ generateChatTitle "what is rocq" (Ok (Some " '' ")) = Ok "what is rocq..."
  /\ generateChatTitle "what is rocq" (Throw typeError) = Ok "what is rocq..."
  /\ generateChatTitle
       "a query of more than forty characters, cut at forty" (Ok None)
     = Ok "a query of more than forty characters, c...".
Proof.
  split; [|split; [|split; [|split]]].
  - destruct (chat_title_is_never_empty "" (Throw typeError))
      as (_ & H & _).
    apply H. reflexivity.
  - destruct (chat_title_is_never_empty "what is rocq"
                (Ok (Some " 'Rocq', a prover "))) as (_ & _ & H & _).
    destruct (H eq_refl) as (H1 & _).
    exact (proj1 (H1 " 'Rocq', a prover " eq_refl eq_refl)).
  - destruct (chat_title_is_never_empty "what is rocq" (Ok (Some " '' ")))
      as (_ & _ & H & _).
    destruct (H eq_refl) as (_ & H2 & _).
    exact (H2 " '' " eq_refl eq_refl).
  - destruct (chat_title_is_never_empty "what is rocq" (Throw typeError))
      as (_ & _ & H & _).
    destruct (H eq_refl) as (_ & _ & H3).
    exact (H3 (or_intror (ex_intro _ typeError eq_refl))).
  - destruct (chat_title_is_never_empty
                "a query of more than forty characters, cut at forty" (Ok None))
      as (_ & _ & H & _).
    destruct (H eq_refl) as (_ & _ & H3).
    exact (H3 (or_introl eq_refl)).
Defined.

(** ** The system instruction *)

Lemma includes_append_l (sub a b : string) :
  includes sub b = true -> includes sub (a ++ b) = true.
Proof.
  intros H. induction a as [|c a IH]; simpl; [exact H|].
  rewrite IH. apply orb_true_r.
Qed.

Lemma includes_of_prefix (sub s : string) :
  String.prefix sub s = true -> includes sub s = true.
Proof. intros H. destruct s; cbn [includes]; now rewrite H. Qed.

Lemma includes_prefix (sub b : string) : includes sub (sub ++ b) = true.
Proof. apply includes_of_prefix, prefix_append. Qed.

Lemma includes_middle (sub a b : string) :
  includes sub (a ++ sub ++ b) = true.
Proof. apply includes_append_l, includes_prefix. Qed.

Lemma prefix_trans_append (a b c : string) :
  String.prefix a b = true -> String.prefix a (b ++ c) = true.
Proof.
  revert b. induction a as [|x a IH]; intros b H; [apply prefix_nil_l|].
  destruct b as [|y b]; [discriminate|]. simpl in *.
  destruct (ascii_dec x y); [now apply IH | discriminate].
Qed.

Lemma prefix_refl (s : string) : String.prefix s s = true.
Proof. rewrite <- (append_nil_r s) at 2. apply prefix_append. Qed.

Lemma includes_refl (s : string) : includes s s = true.
Proof. apply includes_of_prefix, prefix_refl. Qed.

Lemma includes_append_r (sub a b : string) :
  includes sub a = true -> includes sub (a ++ b) = true.
Proof.
  induction a as [|c a IH]; cbn [includes].
  - rewrite orb_false_r. intros H. apply includes_of_prefix.
    now apply (prefix_trans_append sub "" b).
  - intros H. apply orb_true_iff in H as [H|H].
    + apply includes_of_prefix.
      now apply (prefix_trans_append sub (String c a) b).
    + change (String c a ++ b)%string with (String c (a ++ b)).
      cbn [includes]. rewrite (IH H). apply orb_true_r.
Qed.

Lemma includes_quoted (x rest : string) :
  includes (quoteMark ++ x ++ quoteMark) (quoteMark ++ x ++ quoteMark ++ rest)
  = true.
Proof.
  replace (quoteMark ++ x ++ quoteMark ++ rest)%string
    with ((quoteMark ++ x ++ quoteMark) ++ rest)%string
    by (now rewrite !append_assoc).
  apply includes_prefix.
Qed.

(** X10. [buildSystemInstruction] only ever appends to the base
    instruction: the base is a prefix of the result; without
    personalization, or with both fields empty, the result is the base; and
    a non-empty introduction or location appears in the result between
    quotation marks. *)
Theorem system_instruction_extends_base :
  forall base p,
    String.prefix base (buildSystemInstruction base p) = true
    /\ (p = None -> buildSystemInstruction base p = base)
    /\ (forall x, p = Some x ->
                  isEmpty (introduction x) = true ->
                  isEmpty (location x) = true ->
                  buildSystemInstruction base p = base)
    /\ (forall x, p = Some x ->
                  isEmpty (introduction x) = false ->
                  includes (quoteMark ++ introduction x ++ quoteMark)
                    (buildSystemInstruction base p) = true)
    /\ (forall x, p = Some x ->
                  isEmpty (location x) = false ->
                  includes (quoteMark ++ location x ++ quoteMark)
                    (buildSystemInstruction base p) = true).
Proof.
  intros base p. unfold buildSystemInstruction.
  split; [|split; [|split; [|split]]].
  - destruct p as [x|]; [|apply prefix_refl].
    destruct (negb (isEmpty (introduction x)) || negb (isEmpty (location x)));
      [|apply prefix_refl].
    cbv zeta. apply prefix_trans_append.
    destruct (negb (isEmpty (location x))); [apply prefix_trans_append|];
      (destruct (negb (isEmpty (introduction x)));
       [apply prefix_trans_append|]; apply prefix_append).
  - now intros ->.
  - intros x -> Hi Hl. now rewrite Hi, Hl.
  - intros x -> Hi. rewrite Hi. cbn [negb orb]. cbv zeta.
    apply includes_append_r.
    assert (H1 : includes (quoteMark ++ introduction x ++ quoteMark)
                   ((base ++ newline ++ newline
                     ++ "--- User Personalization Context ---")
                    ++ newline
                    ++ "The user has provided this introduction about themselves: "
                    ++ quoteMark ++ introduction x ++ quoteMark) = true).
    { do 3 apply includes_append_l. apply includes_refl. }
    destruct (negb (isEmpty (location x)));
      [apply includes_append_r|]; exact H1.
  - intros x -> Hl. rewrite Hl, orb_true_r. cbn [negb]. cbv zeta.
    apply includes_append_r.
    do 3 apply includes_append_l. apply includes_quoted.
Qed.

Lemma system_instruction_extends_base_witness :
  includes (quoteMark ++ "Cairo" ++ quoteMark)
    (buildSystemInstruction "base"
       (Some {| introduction := ""; location := "Cairo" |})) = true.
Proof.
  destruct (system_instruction_extends_base "base"
              (Some {| introduction := ""; location := "Cairo" |}))
    as (_ & _ & _ & _ & H).
  apply (H {| introduction := ""; location := "Cairo" |});
    reflexivity.
Defined.

(** ** The workspace summary *)

(** X11. [updateWorkspaceSummary] touches one workspace at most: the ids,
    names and order of the workspaces are kept and the summary of every
    other workspace is unchanged; and when the chats cannot be read, there
    are none, the summary request fails or the update is refused, the list
    is exactly what it was. *)
Theorem summary_update_is_local :
  forall workspaceId chats reply updateFailed workspaces,
    let after := updateWorkspaceSummary workspaceId chats reply updateFailed
                   workspaces in
    map ws_id after = map ws_id workspaces
    /\ map ws_name after = map ws_name workspaces
    /\ (forall ws, In ws workspaces -> ws_id ws <> workspaceId -> In ws after)
    /\ (forall ws, In ws after -> ws_id ws <> workspaceId -> In ws workspaces)
    /\ ((chats = None \/ chats = Some [] \/ updateFailed = true
         \/ exists cs e, chats = Some cs
                         /\ generateWorkspaceSummary cs reply = Throw e) ->
        after = workspaces).
Proof.
  intros workspaceId chats reply updateFailed workspaces after.
  assert (Hmap : forall text,
             let l := map (fun ws => if String.eqb (ws_id ws) workspaceId
                                     then {| ws_id := ws_id ws;
                                             ws_name := ws_name ws;
                                             summary := Some text |}
                                     else ws) workspaces in
             map ws_id l = map ws_id workspaces
             /\ map ws_name l = map ws_name workspaces
             /\ (forall ws, In ws workspaces -> ws_id ws <> workspaceId ->
                            In ws l)
             /\ (forall ws, In ws l -> ws_id ws <> workspaceId ->
                            In ws workspaces)).
  { intros text l. subst l. repeat split.
    - rewrite map_map. apply map_ext. intros ws.
      now destruct (String.eqb (ws_id ws) workspaceId).
    - rewrite map_map. apply map_ext. intros ws.
      now destruct (String.eqb (ws_id ws) workspaceId).
    - intros ws Hin Hne. apply in_map_iff. exists ws. split; [|exact Hin].
      apply String.eqb_neq in Hne. now rewrite Hne.
    - intros ws Hin Hne. apply in_map_iff in Hin as (ws0 & Heq & Hin).
      destruct (String.eqb_spec (ws_id ws0) workspaceId) as [He|_].
      + subst ws. simpl in Hne. contradiction.
      + now subst ws0. }
  assert (Hid : map ws_id workspaces = map ws_id workspaces
                /\ map ws_name workspaces = map ws_name workspaces
                /\ (forall ws, In ws workspaces -> ws_id ws <> workspaceId ->
                               In ws workspaces)
                /\ (forall ws, In ws workspaces -> ws_id ws <> workspaceId ->
                               In ws workspaces)) by tauto.
  subst after. unfold updateWorkspaceSummary.
  destruct chats as [[|c cs]|].
  - destruct Hid as (H1 & H2 & H3 & H4). repeat split; auto.
  - destruct (generateWorkspaceSummary (c :: cs) reply) as [text|e] eqn:E.
    + destruct updateFailed.
      * destruct Hid as (H1 & H2 & H3 & H4). repeat split; auto.
      * destruct (Hmap text) as (H1 & H2 & H3 & H4).
        split; [exact H1|]. split; [exact H2|]. split; [exact H3|].
        split; [exact H4|].
        intros [H|[H|[H|(cs0 & e & H & He)]]]; try discriminate.
        injection H as <-. rewrite E in He. discriminate.
    + destruct Hid as (H1 & H2 & H3 & H4). repeat split; auto.
  - destruct Hid as (H1 & H2 & H3 & H4). repeat split; auto.
Qed.

Lemma summary_update_is_local_witness :
  updateWorkspaceSummary "w1" (Some [{| ce_query := "q"; ce_answer := "a" |}])
    (fun _ => Ok (Some "s")) true
    [{| ws_id := "w1"; ws_name := "A"; summary := None |}]
  = [{| ws_id := "w1"; ws_name := "A"; summary := None |}].
Proof.
  destruct (summary_update_is_local "w1"
              (Some [{| ce_query := "q"; ce_answer := "a" |}])
              (fun _ => Ok (Some "s")) true
              [{| ws_id := "w1"; ws_name := "A"; summary := None |}])
    as (_ & _ & _ & _ & H).
  apply H. right. right. left. reflexivity.
Defined.

(** ** The Mistral event stream *)

Section MistralStream.
Context `{B : Builtins}.

Lemma splitLines_app (x y : string) :
  splitLines (x ++ y)%string
  = let '(l1, r1) := splitLines x in
    let '(l2, r2) := splitLines (r1 ++ y)%string in
    (l1 ++ l2, r2).
Proof.
  induction x as [|c x IH].
  - simpl. now destruct (splitLines y).
  - change (String c x ++ y)%string with (String c (x ++ y)).
    cbn [splitLines]. rewrite IH.
    destruct (splitLines x) as [l1 r1].
    destruct (Ascii.eqb c (ascii_of_nat 10)) eqn:E.
    + destruct (splitLines (r1 ++ y)%string) as [l2 r2]. reflexivity.
    + destruct l1 as [|l l1'].
      * change (String c r1 ++ y)%string with (String c (r1 ++ y)).
        cbn [splitLines]. rewrite E.
        destruct (splitLines (r1 ++ y)%string) as [l2 r2]. simpl.
        destruct l2; reflexivity.
      * destruct (splitLines (r1 ++ y)%string) as [l2 r2]. reflexivity.
Qed.

Lemma readLines_app l1 l2 :
  readLines (l1 ++ l2)
  = let '(y1, d1) := readLines l1 in
    if d1 then (y1, true)
    else let '(y2, d2) := readLines l2 in (y1 ++ y2, d2).
Proof.
  induction l1 as [|l l1 IH]; simpl.
  - now destruct (readLines l2).
  - destruct (readLine l); [exact IH | reflexivity |].
    rewrite IH. destruct (readLines l1) as [y1 [|]]; [reflexivity|].
    now destruct (readLines l2).
Qed.

Lemma mistralYields_join buffer d1 d2 rest :
  mistralYields buffer (d1 :: d2 :: rest)
  = mistralYields buffer ((d1 ++ d2)%string :: rest).
Proof.
  cbn [mistralYields].
  rewrite <- append_assoc, (splitLines_app (buffer ++ d1) d2).
  destruct (splitLines (buffer ++ d1)%string) as [l1 r1].
  destruct (splitLines (r1 ++ d2)%string) as [l2 r2].
  rewrite readLines_app.
  destruct (readLines l1) as [y1 [|]]; [reflexivity|].
  destruct (readLines l2) as [y2 [|]]; [reflexivity|].
  now rewrite app_assoc.
Qed.

Lemma concat_empty_cons (x : string) (xs : list string) :
  String.concat "" (x :: xs) = (x ++ String.concat "" xs)%string.
Proof. destruct xs; simpl; [now rewrite append_nil_r | reflexivity]. Qed.

Lemma mistralYields_whole buffer d reads :
  mistralYields buffer (d :: reads)
  = mistralYields buffer [(d ++ String.concat "" reads)%string].
Proof.
  revert d. induction reads as [|d2 rest IH]; intros d.
  - simpl String.concat. now rewrite append_nil_r.
  - rewrite mistralYields_join, IH, concat_empty_cons.
    now rewrite append_assoc.
Qed.

(** X12. What [callMistral] yields does not depend on how the network cuts
    the response into pieces: it is what the complete lines of the whole
    response yield, up to the first [[DONE]] line. A last line that is not
    ended by a line feed is never read. *)
Theorem mistral_stream_is_cut_independent :
  forall reads,
    mistralYields "" reads
    = fst (readLines (fst (splitLines (String.concat "" reads))))
    /\ (forall reads',
           String.concat "" reads = String.concat "" reads' ->
           mistralYields "" reads = mistralYields "" reads')
    /\ (forall lastLine,
           indexOfChar (ascii_of_nat 10) lastLine = None ->
           mistralYields "" (reads ++ [lastLine]) = mistralYields "" reads).
Proof.
  assert (Hwhole : forall reads,
             mistralYields "" reads
             = fst (readLines (fst (splitLines (String.concat "" reads))))).
  { intros [|d reads]; [reflexivity|].
    rewrite mistralYields_whole, <- concat_empty_cons.
    cbn [mistralYields]. change ("" ++ ?x)%string with x.
    destruct (splitLines (String.concat "" (d :: reads))) as [ls rest].
    cbn [fst]. destruct (readLines ls) as [ys [|]]; simpl; [reflexivity|].
    apply app_nil_r. }
  assert (Hnl : forall s, indexOfChar (ascii_of_nat 10) s = None ->
                          splitLines s = ([], s)).
  { induction s as [|c s IH]; [reflexivity|]. cbn [indexOfChar splitLines].
    rewrite (Ascii.eqb_sym (ascii_of_nat 10) c).
    destruct (Ascii.eqb c (ascii_of_nat 10)); [discriminate|].
    destruct (indexOfChar (ascii_of_nat 10) s); [discriminate|].
    intros _. now rewrite IH. }
  assert (Hconcat : forall l1 l2,
             String.concat "" (l1 ++ l2)
             = (String.concat "" l1 ++ String.concat "" l2)%string).
  { induction l1 as [|x l1 IH]; intros l2; [reflexivity|].
    change ((x :: l1) ++ l2) with (x :: (l1 ++ l2)).
    now rewrite !concat_empty_cons, IH, append_assoc. }
  assert (Hrest : forall s,
             indexOfChar (ascii_of_nat 10) (snd (splitLines s)) = None).
  { induction s as [|c s IH]; [reflexivity|]. cbn [splitLines].
    destruct (splitLines s) as [ls rest]. simpl in IH.
    destruct (Ascii.eqb c (ascii_of_nat 10)) eqn:E; [exact IH|].
    destruct ls; [|exact IH]. cbn [snd indexOfChar].
    rewrite (Ascii.eqb_sym (ascii_of_nat 10) c), E. now rewrite IH. }
  assert (Happ : forall a b,
             indexOfChar (ascii_of_nat 10) a = None ->
             indexOfChar (ascii_of_nat 10) b = None ->
             indexOfChar (ascii_of_nat 10) (a ++ b)%string = None).
  { induction a as [|c a IH]; intros b Ha Hb; [exact Hb|].
    change (String c a ++ b)%string with (String c (a ++ b)).
    cbn [indexOfChar] in *.
    destruct (Ascii.eqb (ascii_of_nat 10) c); [discriminate|].
    destruct (indexOfChar (ascii_of_nat 10) a); [discriminate|].
    now rewrite (IH b eq_refl Hb). }
  intros reads. split; [apply Hwhole|]. split.
  - intros reads' Heq. now rewrite !Hwhole, Heq.
  - intros lastLine Hno. rewrite !Hwhole, Hconcat, splitLines_app.
    pose proof (Hrest (String.concat "" reads)) as Hr1.
    destruct (splitLines (String.concat "" reads)) as [l1 r1].
    simpl in Hr1. cbn [String.concat].
    rewrite (Hnl (r1 ++ lastLine)%string (Happ r1 lastLine Hr1 Hno)).
    cbn [fst]. now rewrite app_nil_r.
Qed.
End MistralStream.

Lemma mistral_stream_is_cut_independent_witness :
  @mistralYields MiniJson.builtins ""
    ["da"; ("ta: {}" ++ newline)%string]
  = @mistralYields MiniJson.builtins "" [("data: {}" ++ newline)%string].
Proof.
  destruct (@mistral_stream_is_cut_independent MiniJson.builtins
              ["da"; ("ta: {}" ++ newline)%string]) as (_ & H & _).
  apply H. reflexivity.
Defined.

(** ** Sources stored with a turn *)

Section StoredSources.
Context `{B : Builtins}.

Lemma validSources_stored l :
  validSources
    (map (fun s => JObject [("title", JString (title s));
                            ("uri", JString (uri s))]) l) = l.
Proof.
  induction l as [|[ti u] l IH]; [reflexivity|].
  cbn [map validSources]. unfold asSource, getProp. cbn [lookupField].
  replace (String.eqb "title" "title") with true by reflexivity.
  replace (String.eqb "title" "uri") with false by reflexivity.
  replace (String.eqb "uri" "uri") with true by reflexivity.
  cbn [title uri]. now rewrite IH.
Qed.

Lemma validSources_sound items :
  Forall (fun s => exists item,
              In item items
              /\ getProp "title" item = Some (JString (title s))
              /\ getProp "uri" item = Some (JString (uri s)))
         (validSources items).
Proof.
  induction items as [|x r IH]; [constructor|]. cbn [validSources].
  assert (Hrest : Forall (fun s => exists item,
                              In item (x :: r)
                              /\ getProp "title" item = Some (JString (title s))
                              /\ getProp "uri" item = Some (JString (uri s)))
                         (validSources r)).
  { eapply Forall_impl; [|exact IH]. simpl.
    intros s (item & Hin & H1 & H2). exists item. tauto. }
  destruct (asSource x) as [s|] eqn:E; [|exact Hrest].
  constructor; [|exact Hrest]. exists x. split; [now left|].
  unfold asSource in E.
  destruct x; try discriminate;
    destruct (getProp "title" _) as [[| | |ti| |]|]; try discriminate;
    destruct (getProp "uri" _) as [[| | |u| |]|]; try discriminate;
    injection E as <-; split; reflexivity.
Qed.

(** X13. The sources stored with a turn come back when the chat is loaded:
    [parseSources] applied to the stored array, or to its JSON text, gives
    the stored list (and [null], shown as the empty list, when it was
    empty). It never throws: a value that is falsy, is not an array, or is
    text that does not parse gives [null], and every source it returns has
    a string title and a string uri taken from one element of the array. *)
Theorem stored_sources_round_trip :
  (forall l, orNoSources (parseSources (sourcesToJson l)) = l)
  /\ (forall l, parseSources (sourcesToJson l) = None <-> l = [])
  /\ (forall txt l,
         isEmpty txt = false -> JSON_parse txt = Ok (sourcesToJson l) ->
         orNoSources (parseSources (JString txt)) = l)
  /\ (forall txt e, JSON_parse txt = Throw e -> parseSources (JString txt) = None)
  /\ parseSources JNull = None
  /\ (forall fields, parseSources (JObject fields) = None)
  /\ (forall items l,
         parseSources (JArray items) = Some l ->
         l <> []
         /\ Forall (fun s => exists item,
                       In item items
                       /\ getProp "title" item = Some (JString (title s))
                       /\ getProp "uri" item = Some (JString (uri s))) l).
Proof.
  assert (Harr : forall l,
             parseSources (sourcesToJson l)
             = match l with [] => None | _ => Some l end).
  { intros l. unfold parseSources, sourcesToJson. cbn [truthy negb].
    rewrite validSources_stored. now destruct l. }
  split; [|split; [|split; [|split; [|split; [|split]]]]].
  - intros l. rewrite Harr. now destruct l.
  - intros l. rewrite Harr. destruct l; split; intros H;
      reflexivity || discriminate.
  - intros txt l Hne Hparse. unfold parseSources. cbn [truthy].
    rewrite Hne, Hparse. cbn [negb]. unfold sourcesToJson.
    rewrite validSources_stored. now destruct l.
  - intros txt e Hparse. unfold parseSources. cbn [truthy].
    destruct (isEmpty txt); [reflexivity|]. cbn [negb]. now rewrite Hparse.
  - reflexivity.
  - reflexivity.
  - intros items l. unfold parseSources. cbn [truthy negb].
    pose proof (validSources_sound items) as Hs.
    destruct (validSources items) as [|s r]; [discriminate|].
    intros [= <-]. split; [discriminate | exact Hs].
Qed.
End StoredSources.

Lemma stored_sources_round_trip_witness :
  orNoSources
    (@parseSources MiniJson.builtins
       (JString (MiniJson.quoted "[{'title':'T','uri':'u'}]")))
  = [{| title := "T"; uri := "u" |}].
Proof.
  destruct (@stored_sources_round_trip MiniJson.builtins)
    as (_ & _ & H & _).
  apply (H (MiniJson.quoted "[{'title':'T','uri':'u'}]")
           [{| title := "T"; uri := "u" |}]); reflexivity.
Defined.

(** ** The visible messages *)

Section VisibleMessages.
Context `{B : Builtins} `{C : Collaborators}.

Lemma map_id_patchMessage i f l :
  (forall msg, id (f msg) = id msg) ->
  map id (patchMessage i f l) = map id l.
Proof.
  intros Hid. unfold patchMessage. rewrite map_map. apply map_ext.
  intros msg. destruct (Nat.eqb (id msg) i); [apply Hid | reflexivity].
Qed.

Lemma map_id_othersThan i l :
  map id (othersThan i l) = filter (fun j => negb (Nat.eqb j i)) (map id l).
Proof.
  unfold othersThan. induction l as [|m l IH]; simpl; [reflexivity|].
  destruct (Nat.eqb (id m) i); simpl; now rewrite IH.
Qed.

Lemma othersThan_patchMessage i f l :
  (forall msg, id (f msg) = id msg) ->
  othersThan i (patchMessage i f l) = othersThan i l.
Proof.
  intros Hid. unfold othersThan, patchMessage.
  induction l as [|m l IH]; simpl; [reflexivity|].
  destruct (Nat.eqb (id m) i) eqn:E; simpl.
  - rewrite Hid, E. simpl. exact IH.
  - rewrite E. simpl. now rewrite IH.
Qed.

Lemma othersThan_idem i l : othersThan i (othersThan i l) = othersThan i l.
Proof.
  unfold othersThan. induction l as [|m l IH]; simpl; [reflexivity|].
  destruct (Nat.eqb (id m) i) eqn:E; simpl; [exact IH|].
  rewrite E. simpl. now rewrite IH.
Qed.

(** How one event changes the ids of the visible messages and the id
    counter. *)
Lemma step_ids s e :
  let ids := map id (chatMessages s) in
  let ids' := map id (chatMessages (step s e)) in
  (ids' = ids /\ nextId (step s e) = nextId s)
  \/ (ids' = [] /\ nextId (step s e) = nextId s)
  \/ (exists i, ids' = filter (fun j => negb (Nat.eqb j i)) ids
                /\ nextId (step s e) = nextId s)
  \/ (ids' = ids ++ [nextId s; S (nextId s)]
      /\ nextId (step s e) = S (S (nextId s))).
Proof.
  intros ids ids'. subst ids ids'.
  destruct e as [q| | |m|f p|i c|i|i raw|i data|i imgs|i qs]; simpl.
  - unfold handleSendMessage.
    destruct (rejectsSubmission q s); [now left|].
    right. right. right. destruct s; simpl.
    destruct (isGemini _ && _); simpl; rewrite map_app; split; reflexivity.
  - left. now destruct s.
  - right. left. now destruct s.
  - unfold handleModelChange.
    destruct (negb (isGemini m) && isDeepResearchMode s);
      destruct s; simpl; destruct chatMessages0; simpl; auto.
  - left. unfold handleFileChange. destruct (_ <? _)%Z; now destruct s.
  - left. unfold onChunk.
    destruct (findCall i (calls s)) as [call|]; [|now split].
    destruct (phase call); [|now split].
    destruct (isRequestCancelled s); [now destruct s|].
    destruct (callModel call); destruct s; simpl;
      (split; [now apply map_id_patchMessage | reflexivity]).
  - left. unfold onStreamEnd.
    destruct (findCall i (calls s)) as [call|]; [|now split].
    destruct (phase call); [|now split].
    destruct (isRequestCancelled s); [now destruct s|].
    destruct (extractAndParseMarkdownTable _) as [remainingText tb].
    destruct (isGemini (callModel call) && isNewChat call);
      destruct (isNewChat call); destruct s; simpl;
      (split; [now apply map_id_patchMessage | reflexivity]).
  - unfold onStreamError.
    destruct (findCall i (calls s)) as [call|]; [|left; now split].
    destruct (phase call); [|left; now split].
    destruct (isRequestCancelled s); [left; now destruct s|].
    right. right. left. exists i. destruct s; simpl.
    split; [apply map_id_othersThan | reflexivity].
  - left. unfold onInsertSettled.
    destruct (findCall i (calls s)) as [call|]; [|now split].
    destruct (phase call); [now split|].
    destruct data; now destruct s.
  - left. unfold onImages.
    destruct (existsb _ _); [|now split].
    destruct (isRequestCancelled s); destruct s; simpl;
      (split; [reflexivity || now apply map_id_patchMessage | reflexivity]).
  - left. unfold onRelated.
    destruct (existsb _ _); [|now split].
    destruct (isRequestCancelled s); now destruct s.
Qed.

Lemma step_idsFresh s e : idsFresh s -> idsFresh (step s e).
Proof.
  unfold idsFresh. intros [Hnd Hlt].
  destruct (step_ids s e) as [[-> ->]|[[-> ->]|[(i & -> & ->)|[-> ->]]]].
  - now split.
  - split; constructor.
  - split; [now apply NoDup_filter|].
    rewrite Forall_forall in *. intros j Hj. apply filter_In in Hj as [Hj _].
    now apply Hlt.
  - split.
    + apply NoDup_app; [exact Hnd | | ].
      * constructor; [simpl; lia | repeat constructor; intros []].
      * rewrite Forall_forall in Hlt. intros j Hj [<-|[<-|[]]];
          apply Hlt in Hj; lia.
    + apply Forall_app. split.
      * eapply Forall_impl; [|exact Hlt]. simpl. intros; lia.
      * repeat constructor; lia.
Qed.

(** X14. Along every run from the initial state, the visible messages have
    pairwise distinct ids, all below the id counter: a patch by message id
    addresses one message at most, and a new turn never reuses an id. *)
Theorem message_ids_stay_distinct :
  forall es,
    NoDup (map id (chatMessages (run es initialState)))
    /\ Forall (fun i => i < nextId (run es initialState))
              (map id (chatMessages (run es initialState))).
Proof.
  assert (G : forall es s, idsFresh s -> idsFresh (run es s)).
  { induction es as [|e es IH]; intros s Hs; [exact Hs|].
    rewrite run_cons. apply IH. now apply step_idsFresh. }
  intros es. apply G. split; constructor.
Qed.

(** X15. What the environment delivers for the turn [i] leaves every other
    message as it is: only the message with id [i] can change, no message
    is added, and only a stream error removes one (the placeholder of that
    turn). *)
Theorem delivery_touches_only_its_turn :
  forall s e i,
    turnOf e = Some i ->
    othersThan i (chatMessages (step s e)) = othersThan i (chatMessages s)
    /\ ((forall raw, e <> StreamError i raw) ->
        map id (chatMessages (step s e)) = map id (chatMessages s))
    /\ (forall raw,
           e = StreamError i raw ->
           chatMessages (step s e) = chatMessages s
           \/ chatMessages (step s e) = othersThan i (chatMessages s)).
Proof.
  intros s e i Hturn.
  destruct e as [q| | |m|f p|j c|j|j raw|j data|j imgs|j qs];
    try discriminate; injection Hturn as ->; simpl.
  - unfold onChunk.
    destruct (findCall i (calls s)) as [call|];
      [|split; [reflexivity | split; [reflexivity | discriminate]]].
    destruct (phase call);
      [|split; [reflexivity | split; [reflexivity | discriminate]]].
    destruct (isRequestCancelled s).
    + rewrite chatMessages_finish.
      split; [reflexivity | split; [reflexivity | discriminate]].
    + destruct (callModel call); destruct s; simpl;
        (split; [now apply othersThan_patchMessage
                | split; [intros _; now apply map_id_patchMessage
                         | discriminate]]).
  - unfold onStreamEnd.
    destruct (findCall i (calls s)) as [call|];
      [|split; [reflexivity | split; [reflexivity | discriminate]]].
    destruct (phase call);
      [|split; [reflexivity | split; [reflexivity | discriminate]]].
    destruct (isRequestCancelled s).
    + rewrite chatMessages_finish.
      split; [reflexivity | split; [reflexivity | discriminate]].
    + destruct (extractAndParseMarkdownTable _) as [remainingText tb].
      destruct (isGemini (callModel call) && isNewChat call);
        destruct (isNewChat call); destruct s; simpl;
        (split; [now apply othersThan_patchMessage
                | split; [intros _; now apply map_id_patchMessage
                         | discriminate]]).
  - unfold onStreamError.
    destruct (findCall i (calls s)) as [call|];
      [|split; [reflexivity | split; [reflexivity | now left]]].
    destruct (phase call);
      [|split; [reflexivity | split; [reflexivity | now left]]].
    destruct (isRequestCancelled s).
    + rewrite chatMessages_finish.
      split; [reflexivity | split; [reflexivity | now left]].
    + rewrite chatMessages_finish. destruct s; simpl.
      split; [apply othersThan_idem|].
      split; [intros Hne; now elim (Hne raw) | now right].
  - unfold onInsertSettled.
    destruct (findCall i (calls s)) as [call|];
      [|split; [reflexivity | split; [reflexivity | discriminate]]].
    destruct (phase call);
      [split; [reflexivity | split; [reflexivity | discriminate]]|].
    rewrite chatMessages_finish.
    destruct data; destruct s; simpl;
      (split; [reflexivity | split; [reflexivity | discriminate]]).
  - unfold onImages.
    destruct (existsb _ _);
      [|split; [reflexivity | split; [reflexivity | discriminate]]].
    destruct (isRequestCancelled s); destruct s; simpl.
    + split; [reflexivity | split; [reflexivity | discriminate]].
    + split; [now apply othersThan_patchMessage
             | split; [intros _; now apply map_id_patchMessage
                      | discriminate]].
  - unfold onRelated.
    destruct (existsb _ _);
      [|split; [reflexivity | split; [reflexivity | discriminate]]].
    destruct (isRequestCancelled s); destruct s; simpl;
      (split; [reflexivity | split; [reflexivity | discriminate]]).
Qed.
End VisibleMessages.

Lemma delivery_touches_only_its_turn_witness :
  othersThan 1
    (chatMessages
       (demoStep (demoRun [Submit "q"] initialState) (Chunk 1 (textChunk "a"))))
  = othersThan 1 (chatMessages (demoRun [Submit "q"] initialState)).
Proof.
  destruct (@delivery_touches_only_its_turn MiniJson.builtins demoCollaborators
              (demoRun [Submit "q"] initialState) (Chunk 1 (textChunk "a")) 1
              eq_refl) as (H & _).
  exact H.
Defined.

(** ** Sessions over several turns *)

Section Turns.
Context `{B : Builtins} `{C : Collaborators}.

(** The fields that an undisturbed stream loop leaves alone. *)
Lemma chunk_frame s i c :
  isRequestCancelled s = false ->
  let s' := step s (Chunk i c) in
  isRequestCancelled s' = false
  /\ activeModel s' = activeModel s
  /\ activeChat s' = activeChat s
  /\ isLoading s' = isLoading s
  /\ insertLog s' = insertLog s
  /\ fileState s' = fileState s
  /\ map id (chatMessages s') = map id (chatMessages s).
Proof.
  intros Hc. simpl. unfold onChunk.
  destruct (findCall i (calls s)) as [call|]; [|now repeat split].
  destruct (phase call); [|now repeat split]. rewrite Hc.
  destruct (callModel call); destruct s; simpl in *;
    repeat split; try assumption; now apply map_id_patchMessage.
Qed.

Lemma submit_soleCallOn s q :
  calls s = [] -> rejectsSubmission q s = false ->
  let s' := step s (Submit q) in
  soleCallOn (S (nextId s)) (activeModel s) (beginsNewSession s) s'
  /\ isRequestCancelled s' = false
  /\ activeModel s' = activeModel s
  /\ activeChat s' = activeChat s
  /\ insertLog s' = insertLog s
  /\ map id (chatMessages s')
     = map id (chatMessages s) ++ [nextId s; S (nextId s)].
Proof.
  intros Hcalls Hrej. simpl. unfold handleSendMessage, soleCallOn.
  rewrite Hrej. destruct s; simpl in *; subst.
  split; [eexists; split;
          [destruct (isGemini _ && _); reflexivity | simpl; repeat split]|].
  destruct (isGemini _ && _); simpl; rewrite map_app; repeat split.
Qed.

Lemma chunk_soleCallOn s i m isNew c :
  soleCallOn i m isNew s -> isRequestCancelled s = false ->
  soleCallOn i m isNew (step s (Chunk i c)).
Proof.
  intros (call & Hcalls & Hid & Hmodel & Hphase & Hnew) Hc.
  simpl. unfold onChunk, soleCallOn, findCall. rewrite Hcalls. simpl.
  rewrite Hid, Nat.eqb_refl, Hphase, Hc.
  destruct (callModel call) eqn:Em; destruct s; simpl in *; subst;
    rewrite Nat.eqb_refl;
    (eexists; split; [reflexivity|]; simpl; repeat split; assumption).
Qed.

Lemma chunks_soleCallOn cs s i m isNew :
  soleCallOn i m isNew s -> isRequestCancelled s = false ->
  let s' := run (map (Chunk i) cs) s in
  soleCallOn i m isNew s'
  /\ isRequestCancelled s' = false
  /\ activeModel s' = activeModel s
  /\ activeChat s' = activeChat s
  /\ insertLog s' = insertLog s
  /\ map id (chatMessages s') = map id (chatMessages s).
Proof.
  revert s. induction cs as [|c cs IH]; intros s Hsole Hc.
  - simpl. repeat split; assumption || reflexivity.
  - simpl map. rewrite run_cons.
    destruct (chunk_frame s i c Hc) as (Hc' & Hm & Hch & _ & Hl & _ & Hids).
    destruct (IH _ (chunk_soleCallOn s i m isNew c Hsole Hc) Hc')
      as (Hsole2 & Hc2 & Hm2 & Hch2 & Hl2 & Hids2).
    repeat split; congruence.
Qed.

Lemma sole_call_stream_end s i m :
  soleCallOn i m true s -> isRequestCancelled s = false ->
  let s' := step s (StreamEnd i) in
  (exists call', calls s' = [call'] /\ modelMessageId call' = i
                 /\ phase call' = Inserting)
  /\ activeModel s' = activeModel s
  /\ (m = gemini -> exists ch, activeChat s' = Some ch)
  /\ (exists row, insertLog s' = insertLog s ++ [row])
  /\ map id (chatMessages s') = map id (chatMessages s).
Proof.
  intros (call & Hcalls & Hid & Hmodel & Hphase & Hnew) Hc.
  assert (Hfind : findCall i (calls s) = Some call).
  { unfold findCall. rewrite Hcalls. simpl. now rewrite Hid, Nat.eqb_refl. }
  simpl. unfold onStreamEnd. rewrite Hfind, Hphase, Hc, Hnew, Hmodel.
  destruct (extractAndParseMarkdownTable _) as [remainingText tb].
  unfold launchEnrichment, replaceCall.
  destruct m; destruct s; simpl in *; subst; simpl; rewrite Nat.eqb_refl;
    (split; [eexists; split; [reflexivity | split; reflexivity]|]);
    (split; [reflexivity|]);
    (split; [intros Hg; try discriminate; eexists; reflexivity|]);
    (split; [eexists; reflexivity | now apply map_id_patchMessage]).
Qed.

Lemma inserting_call_settles s i data :
  (exists call', calls s = [call'] /\ modelMessageId call' = i
                 /\ phase call' = Inserting) ->
  let s' := step s (InsertSettled i data) in
  calls s' = [] /\ isLoading s' = false
  /\ activeModel s' = activeModel s
  /\ activeChat s' = activeChat s
  /\ insertLog s' = insertLog s
  /\ map id (chatMessages s') = map id (chatMessages s).
Proof.
  intros (call & Hcalls & Hid & Hphase).
  simpl. unfold onInsertSettled, findCall. rewrite Hcalls. simpl.
  rewrite Hid, Nat.eqb_refl, Hphase. unfold finish, removeCall.
  destruct data; destruct s; simpl in *; subst; simpl; rewrite Nat.eqb_refl;
    repeat split.
Qed.

(** The end of the stream of the sole call, then the insert settling. *)
Lemma sole_call_commits s i m data :
  soleCallOn i m true s -> isRequestCancelled s = false ->
  let s' := run [StreamEnd i; InsertSettled i data] s in
  calls s' = [] /\ isLoading s' = false
  /\ activeModel s' = activeModel s
  /\ (m = gemini -> exists ch, activeChat s' = Some ch)
  /\ (exists row, insertLog s' = insertLog s ++ [row])
  /\ map id (chatMessages s') = map id (chatMessages s).
Proof.
  intros Hsole Hc.
  destruct (sole_call_stream_end s i m Hsole Hc)
    as (Hins & Hm & Hch & (row & Hrow) & Hids).
  destruct (inserting_call_settles _ i data Hins)
    as (Hcalls' & Hload' & Hm' & Hch' & Hl' & Hids').
  change (run [StreamEnd i; InsertSettled i data] s)
    with (step (step s (StreamEnd i)) (InsertSettled i data)).
  cbv zeta. repeat split; try congruence.
  - intros Hg. destruct (Hch Hg) as [ch Hch1]. exists ch. congruence.
  - exists row. congruence.
Qed.

(** The sole call ends without committing: its stream fails, or it is
    stopped and the loop then sees its next chunk or the end. *)
Lemma sole_call_aborts s i m isNew :
  soleCallOn i m isNew s -> isRequestCancelled s = false ->
  forall es,
    (exists raw, es = [StreamError i raw]) \/ es = [Stop; StreamEnd i]
    \/ (exists c, es = [Stop; Chunk i c]) ->
    let s' := run es s in
    calls s' = [] /\ isLoading s' = false
    /\ activeModel s' = activeModel s
    /\ activeChat s' = activeChat s
    /\ insertLog s' = insertLog s
    /\ (map id (chatMessages s') = map id (chatMessages s)
        \/ map id (chatMessages s')
           = filter (fun j => negb (Nat.eqb j i)) (map id (chatMessages s))).
Proof.
  intros (call & Hcalls & Hid & Hmodel & Hphase & Hnew) Hc es Hes.
  assert (Hfind : findCall i (calls s) = Some call).
  { unfold findCall. rewrite Hcalls. simpl. now rewrite Hid, Nat.eqb_refl. }
  destruct Hes as [[raw ->]|[->|[c ->]]]; unfold run; cbn [fold_left step].
  - unfold onStreamError. rewrite Hfind, Hphase, Hc.
    unfold finish, removeCall.
    destruct s; simpl in *; subst; simpl. rewrite Nat.eqb_refl. simpl.
    repeat split. right. apply map_id_othersThan.
  - unfold onStreamEnd, handleStop, findCall, finish, removeCall.
    destruct s; simpl in *; subst; simpl.
    rewrite Nat.eqb_refl, Hphase. simpl.
    rewrite ?Nat.eqb_refl. simpl. repeat split. now left.
  - unfold onChunk, handleStop, findCall, finish, removeCall.
    destruct s; simpl in *; subst; simpl.
    rewrite Nat.eqb_refl, Hphase. simpl.
    rewrite ?Nat.eqb_refl. simpl. repeat split. now left.
Qed.

Lemma accepts_when_idle s q :
  isLoading s = false -> isEmpty (trim q) = false ->
  rejectsSubmission q s = false.
Proof. intros Hl Hq. unfold rejectsSubmission. now rewrite Hl, Hq. Qed.

(** X19. A Gemini session is recorded once. When a first Gemini turn runs
    alone and commits, one row is sent to the history table and the chat
    handle is set; the next submission in that chat is a continuation, and
    whatever it streams, it sends no row. *)
Theorem gemini_session_is_recorded_once :
  forall s q1 cs1 data q2 cs2,
    calls s = [] -> rejectsSubmission q1 s = false ->
    activeModel s = gemini -> activeChat s = None ->
    isEmpty (trim q2) = false ->
    let i1 := S (nextId s) in
    let s1 := run (Submit q1 :: map (Chunk i1) cs1
                     ++ [StreamEnd i1; InsertSettled i1 data]) s in
    let i2 := S (nextId s1) in
    (exists row, insertLog s1 = insertLog s ++ [row])
    /\ beginsNewSession s1 = false
    /\ rejectsSubmission q2 s1 = false
    /\ insertLog (run (Submit q2 :: map (Chunk i2) cs2 ++ [StreamEnd i2]) s1)
       = insertLog s1.
Proof.
  intros s q1 cs1 data q2 cs2 Hcalls Hrej Hmodel Hchat Hq2 i1 s1 i2.
  subst i1 i2 s1. rewrite run_cons, run_app.
  destruct (submit_soleCallOn s q1 Hcalls Hrej)
    as (Hsole & Hc & Hm & Hch & Hl & _).
  unfold beginsNewSession in Hsole. rewrite Hmodel, Hchat in Hsole.
  destruct (chunks_soleCallOn cs1 _ _ _ _ Hsole Hc)
    as (Hsole' & Hc' & Hm' & Hch' & Hl' & _).
  destruct (sole_call_commits _ _ _ data Hsole' Hc')
    as (Hcalls2 & Hload2 & Hm2 & Hch2 & (row & Hrow) & _).
  set (s1 := run [StreamEnd (S (nextId s)); InsertSettled (S (nextId s)) data]
               (run (map (Chunk (S (nextId s))) cs1) (step s (Submit q1)))) in *.
  assert (Hcont : beginsNewSession s1 = false).
  { unfold beginsNewSession. rewrite Hm2, Hm', Hm, Hmodel.
    destruct (Hch2 eq_refl) as [ch ->]. reflexivity. }
  assert (Hacc : rejectsSubmission q2 s1 = false)
    by now apply accepts_when_idle.
  split; [exists row; congruence|]. split; [exact Hcont|].
  split; [exact Hacc|].
  destruct (single_turn_history s1 q2 cs2 Hcalls2 Hacc) as ((row2 & H2) & _).
  rewrite H2, Hcont. apply app_nil_r.
Qed.

(** X20. After a first turn that runs alone and does not commit (its stream
    fails, or it is stopped and its loop then ends), the two providers
    differ. On Gemini no chat handle was set, so the next submission begins
    a new session again and sends a row. On Mistral the user message of the
    failed turn is still in the list, so the next submission is a
    continuation and sends no row. *)
Theorem session_after_an_aborted_first_turn :
  forall s q1 cs1 ending q2 cs2,
    calls s = [] -> rejectsSubmission q1 s = false ->
    chatMessages s = [] -> activeChat s = None ->
    isEmpty (trim q2) = false ->
    let i1 := S (nextId s) in
    (exists raw, ending = [StreamError i1 raw]) \/ ending = [Stop; StreamEnd i1]
    \/ (exists c, ending = [Stop; Chunk i1 c]) ->
    let s1 := run (Submit q1 :: map (Chunk i1) cs1 ++ ending) s in
    let i2 := S (nextId s1) in
    let s2 := run (Submit q2 :: map (Chunk i2) cs2 ++ [StreamEnd i2]) s1 in
    insertLog s1 = insertLog s
    /\ (activeModel s = gemini ->
        beginsNewSession s1 = true
        /\ exists row, insertLog s2 = insertLog s ++ [row])
    /\ (activeModel s = mistral ->
        beginsNewSession s1 = false /\ insertLog s2 = insertLog s).
Proof.
  intros s q1 cs1 ending q2 cs2 Hcalls Hrej Hmsgs Hchat Hq2 i1 Hend s1 i2 s2.
  subst i1 i2 s2 s1. rewrite run_cons, run_app.
  destruct (submit_soleCallOn s q1 Hcalls Hrej)
    as (Hsole & Hc & Hm & Hch & Hl & Hids).
  destruct (chunks_soleCallOn cs1 _ _ _ _ Hsole Hc)
    as (Hsole' & Hc' & Hm' & Hch' & Hl' & Hids').
  destruct (sole_call_aborts _ _ _ _ Hsole' Hc' ending Hend)
    as (Hcalls2 & Hload2 & Hm2 & Hch2 & Hl2 & Hids2).
  set (s1 := run ending
               (run (map (Chunk (S (nextId s))) cs1) (step s (Submit q1)))) in *.
  assert (Hacc : rejectsSubmission q2 s1 = false)
    by now apply accepts_when_idle.
  assert (Hlog : insertLog s1 = insertLog s) by congruence.
  assert (Hmodel1 : activeModel s1 = activeModel s) by congruence.
  assert (Hchat1 : activeChat s1 = None) by congruence.
  assert (Hne : chatMessages s1 <> []).
  { rewrite Hids', Hids, Hmsgs in Hids2. simpl in Hids2.
    intros Hnil. rewrite Hnil in Hids2. simpl in Hids2.
    destruct Hids2 as [H|H]; [discriminate|].
    destruct (Nat.eqb_spec (nextId s) (S (nextId s))); [lia|].
    simpl in H. discriminate. }
  destruct (single_turn_history s1 q2 cs2 Hcalls2 Hacc) as ((row2 & H2) & _).
  split; [exact Hlog|]. split.
  - intros Hg. unfold beginsNewSession in *.
    rewrite Hmodel1, Hg, Hchat1 in *. split; [reflexivity|].
    exists row2. now rewrite H2, Hlog.
  - intros Hmi. unfold beginsNewSession in *. rewrite Hmodel1, Hmi in *.
    destruct (chatMessages s1); [now elim Hne|].
    split; [reflexivity|]. now rewrite H2, app_nil_r, Hlog.
Qed.
End Turns.

Lemma gemini_session_is_recorded_once_witness :
  let s1 := demoRun [Submit "q1"; Chunk 1 (textChunk "a"); StreamEnd 1;
                     InsertSettled 1 None] initialState in
  (exists row, insertLog s1 = [row])
  /\ beginsNewSession s1 = false
  /\ rejectsSubmission "q2" s1 = false
  /\ insertLog (demoRun [Submit "q2"; Chunk 3 (textChunk "b"); StreamEnd 3] s1)
     = insertLog s1.
Proof.
  exact (@gemini_session_is_recorded_once MiniJson.builtins demoCollaborators
           initialState "q1" [textChunk "a"] None "q2" [textChunk "b"]
           eq_refl eq_refl eq_refl eq_refl eq_refl).
Defined.

Lemma session_after_an_aborted_first_turn_witness :
  let s1 := demoRun [Submit "q1"; Chunk 1 (textChunk "a"); Stop; StreamEnd 1]
              initialState in
  let s2 := demoRun [Submit "q2"; Chunk 3 (textChunk "b"); StreamEnd 3] s1 in
  insertLog s1 = []
  /\ beginsNewSession s1 = true
  /\ exists row, insertLog s2 = [row].
Proof.
  destruct (@session_after_an_aborted_first_turn MiniJson.builtins
              demoCollaborators initialState "q1" [textChunk "a"]
              [Stop; StreamEnd 1] "q2" [textChunk "b"]
              eq_refl eq_refl eq_refl eq_refl eq_refl
              (or_intror (or_introl eq_refl))) as (H1 & H2 & _).
  destruct (H2 eq_refl) as (H3 & H4).
  split; [exact H1 | split; [exact H3 | exact H4]].
Defined.

(** ** A stopped turn, and runs without stop *)

Section Quiet.
Context `{B : Builtins} `{C : Collaborators}.

Lemma delivery_keeps_idle s e :
  isRequestCancelled s = true -> isDelivery e = true ->
  isLoading s = false -> isLoading (step s e) = false.
Proof.
  intros Hc Hd Hl. destruct e; try discriminate; unfold_handlers;
    destruct s; simpl in *; subst; repeat break_match; reflexivity.
Qed.

(** X16. A stopped turn stays as it is while nothing is submitted: after
    [handleStop], whatever the environment still delivers (chunks, the end
    or the failure of a stream, image and related-query results) changes
    neither the visible messages nor the related queries, the error, the
    rows sent to the history table or the history list, and the page stays
    idle. *)
Theorem stopped_session_ignores_deliveries :
  forall s es,
    forallb isDelivery es = true ->
    let s' := run (Stop :: es) s in
    chatMessages s' = chatMessages s
    /\ relatedQueries s' = relatedQueries s
    /\ error s' = error s
    /\ insertLog s' = insertLog s
    /\ history s' = history s
    /\ isLoading s' = false
    /\ isRequestCancelled s' = true.
Proof.
  intros s es Hes s'. subst s'. rewrite run_cons.
  assert (Hidle : forall es x,
             forallb isDelivery es = true -> isRequestCancelled x = true ->
             isLoading x = false -> isLoading (run es x) = false).
  { clear. intros es. induction es as [|e es IH]; intros x Hall Hc Hl.
    - exact Hl.
    - simpl in Hall. apply andb_true_iff in Hall as [He Hall].
      rewrite run_cons. apply IH; [assumption| |].
      + now destruct (delivery_dropped_while_cancelled x e Hc He).
      + now apply delivery_keeps_idle. }
  destruct (deliveries_dropped_while_cancelled es (step s Stop)
              (cancelled_stop s) Hes) as (Hc & Hm & Hr & He & Hl & Hh).
  rewrite Hm, Hr, He, Hl, Hh.
  repeat split; try (now destruct s); try assumption.
  apply Hidle; [assumption | apply cancelled_stop | now destruct s].
Qed.

Lemma act_singleFlight s a :
  isQuietAction a = true -> singleFlight s -> singleFlight (act s a).
Proof.
  intros Hq Hinv. destruct a as [e| |ws item|i| |q|query];
    try discriminate; cbn [act].
  - now apply step_singleFlight.
  - unfold toggleDeepResearch. destruct (_ || _); [exact Hinv|].
    apply (singleFlight_same s); [| |exact Hinv]; now destruct s.
  - unfold handleRewrite.
    destruct (findIndex i (chatMessages s)) as [[|n]|]; try exact Hinv.
    destruct (nth_error (chatMessages s) n) as [prev|]; [|exact Hinv].
    destruct (role prev); [|exact Hinv].
    exact (step_singleFlight s (Submit (content prev)) eq_refl Hinv).
  - apply (singleFlight_same s); [| |exact Hinv]; now destruct s.
  - unfold searchBarSubmit. destruct (isLoading s); [exact Hinv|].
    destruct (isEmpty _ && _); [exact Hinv|].
    exact (step_singleFlight s (Submit (trim query)) eq_refl Hinv).
Qed.

(** X17. One stream at a time while the page is left undisturbed. Along
    every run from the initial state that is made of submissions (direct,
    from the search bar, by rewrite), file selection and removal, the
    deep-research toggle and what the environment delivers, at most one
    call of [handleSendMessage] is in flight, and none while [isLoading] is
    clear. The handlers left out are those that clear [isLoading] whatever
    is in flight: stop, new chat (also from a workspace or through a
    related query), model change and loading a stored chat. *)
Theorem one_call_in_flight_while_undisturbed :
  forall l,
    forallb isQuietAction l = true ->
    let s := runActions l initialState in
    (List.length (calls s) <= 1)%nat
    /\ (isLoading s = false -> calls s = []).
Proof.
  intros l Hl.
  assert (H : forall l s, forallb isQuietAction l = true ->
                          singleFlight s -> singleFlight (runActions l s)).
  { clear. intros l. induction l as [|a l IH]; intros s Hall Hs; [exact Hs|].
    simpl in Hall. apply andb_true_iff in Hall as [Ha Hall].
    apply (IH (act s a) Hall). now apply act_singleFlight. }
  exact (H l initialState Hl initial_singleFlight).
Qed.
End Quiet.

Lemma stopped_session_ignores_deliveries_witness :
  let s := demoRun [Submit "q"; Chunk 1 (textChunk "a")] initialState in
  chatMessages (demoRun [Stop; Chunk 1 (textChunk "b"); StreamEnd 1] s)
  = chatMessages s.
Proof.
  destruct (@stopped_session_ignores_deliveries MiniJson.builtins
              demoCollaborators
              (demoRun [Submit "q"; Chunk 1 (textChunk "a")] initialState)
              [Chunk 1 (textChunk "b"); StreamEnd 1] eq_refl) as (H & _).
  exact H.
Defined.

Lemma one_call_in_flight_while_undisturbed_witness :
  (List.length
     (calls (@runActions MiniJson.builtins demoCollaborators
               [Core (Submit "a"); BarSubmit "b"; Rewrite 1;
                Core (Chunk 1 (textChunk "x"))]
               initialState)) <= 1)%nat.
Proof.
  destruct (@one_call_in_flight_while_undisturbed MiniJson.builtins
              demoCollaborators
              [Core (Submit "a"); BarSubmit "b"; Rewrite 1;
               Core (Chunk 1 (textChunk "x"))] eq_refl)
    as (H & _).
  exact H.
Defined.

(** Loading a stored chat is one of the handlers left out: it clears
    [isLoading] while the stream of the first turn is still open, so the
    next submission is accepted and two calls are in flight. *)
Lemma two_calls_after_loading_a_chat :
  let item := {| rec_query := "q0"; rec_answer := "a0"; rec_sources := JNull;
                 rec_deep := false; rec_workspace := None |} in
  List.length
    (calls (@runActions MiniJson.builtins demoCollaborators
              [Core (Submit "q1"); LoadChat [] item; Core (Submit "q2")]
              initialState))
  = 2%nat.
Proof. vm_compute. reflexivity. Qed.

(** ** A first Gemini turn from its submission to its stored row *)

Section FirstTurn.
Context `{B : Builtins} `{C : Collaborators}.

Lemma submit_firstTurnView s q :
  calls s = [] -> rejectsSubmission q s = false ->
  activeModel s = gemini -> activeChat s = None ->
  Forall (fun msg => id msg < nextId s) (chatMessages s) ->
  firstTurnView (S (nextId s)) q (isDeepResearchMode s) (selectedWorkspace s)
    emptyAcc (step s (Submit q)).
Proof.
  intros Hcalls Hrej Hmodel Hchat Hfresh. simpl.
  unfold handleSendMessage, firstTurnView. rewrite Hrej.
  unfold beginsNewSession. rewrite Hmodel, Hchat.
  destruct s; simpl in *; subst. split; [reflexivity|].
  eexists. split.
  - apply find_fresh_placeholder; simpl; try lia.
    eapply Forall_impl; [|exact Hfresh]. simpl. intros; lia.
  - simpl. repeat split.
Qed.

Lemma chunk_firstTurnView s i q deep ws a c :
  isRequestCancelled s = false ->
  firstTurnView i q deep ws a s ->
  firstTurnView i q deep ws (mergeChunk a (yieldOf c)) (step s (Chunk i c)).
Proof.
  intros Hc (Hcalls & msg & Hfind & Hcontent & Hsrc & Hcit).
  simpl. unfold onChunk, findCall, firstTurnView.
  rewrite Hcalls. simpl. rewrite Nat.eqb_refl, Hc.
  destruct s; simpl in *; subst. rewrite Nat.eqb_refl.
  split; [reflexivity|].
  rewrite find_patchMessage by reflexivity. rewrite Hfind. simpl.
  eexists. split; [reflexivity|]. simpl. repeat split.
Qed.

Lemma chunks_firstTurnView cs s i q deep ws a :
  isRequestCancelled s = false ->
  firstTurnView i q deep ws a s ->
  firstTurnView i q deep ws (mergeChunks (map yieldOf cs) a)
    (run (map (Chunk i) cs) s)
  /\ isRequestCancelled (run (map (Chunk i) cs) s) = false
  /\ insertLog (run (map (Chunk i) cs) s) = insertLog s.
Proof.
  revert s a. induction cs as [|c cs IH]; intros s a Hc Hview.
  - split; [exact Hview | split; [exact Hc | reflexivity]].
  - simpl map. rewrite run_cons. simpl mergeChunks.
    destruct (IH (step s (Chunk i c)) (mergeChunk a (yieldOf c)))
      as (H1 & H2 & H3).
    + now apply chunk_keeps_flag.
    + now apply chunk_firstTurnView.
    + split; [exact H1 | split; [exact H2|]].
      rewrite H3. apply insertLog_other_events. intros j; discriminate.
Qed.

Lemma stream_end_firstTurnView s i q deep ws a :
  isRequestCancelled s = false ->
  firstTurnView i q deep ws a s ->
  let s' := step s (StreamEnd i) in
  insertLog s'
  = insertLog s
    ++ [{| h_query := if isEmpty q then t "search.fileAnalysis" else q;
           h_answer := fullText a;
           h_sources := JsMap.values (sourcesMap a);
           is_deep_research := deep; workspace_id := ws |}]
  /\ activeChat s'
     = Some {| seedQuery := q; seedAnswer := fullText a; chatDeep := deep |}
  /\ exists live,
      find (fun m => Nat.eqb (id m) i) (chatMessages s') = Some live
      /\ content live = fst (extractAndParseMarkdownTable (fullText a))
      /\ table live
         = match snd (extractAndParseMarkdownTable (fullText a)) with
           | Some x => Value x
           | None => Null
           end
      /\ m_sources live = Some (JsMap.values (sourcesMap a))
      /\ m_citations live = Some (JsMap.values (citationsMap a)).
Proof.
  intros Hc (Hcalls & msg & Hfind & Hcontent & Hsrc & Hcit).
  simpl. unfold onStreamEnd, findCall.
  rewrite Hcalls. simpl. rewrite Nat.eqb_refl, Hc.
  unfold launchEnrichment, historyRowOf.
  destruct s; simpl in *; subst.
  destruct (extractAndParseMarkdownTable (fullText a))
    as [remainingText tb]. simpl.
  split; [reflexivity|]. split; [reflexivity|].
  rewrite find_patchMessage by reflexivity. rewrite Hfind. simpl.
  eexists. split; [reflexivity|]. simpl. repeat split; assumption.
Qed.

(** X18. A first Gemini turn that runs alone, end to end. While it
    streams, the pending message shows the text accumulated so far and the
    merged sources and citations of the chunks received. At the end of the
    stream one row is sent to the history table, holding the query, the
    whole text, the merged sources, and the deep-research flag and the
    workspace of the moment of submission; the chat handle is seeded with
    the query and the whole text; and the message shows the text and the
    table that the extractor returns for the whole text, with the same
    sources and citations. *)
Theorem first_gemini_turn_end_to_end :
  forall s q cs,
    calls s = [] -> rejectsSubmission q s = false ->
    activeModel s = gemini -> activeChat s = None ->
    Forall (fun msg => id msg < nextId s) (chatMessages s) ->
    let i := S (nextId s) in
    let a := mergeChunks (map yieldOf cs) emptyAcc in
    let s1 := run (Submit q :: map (Chunk i) cs) s in
    let s2 := step s1 (StreamEnd i) in
    (exists msg,
        find (fun m => Nat.eqb (id m) i) (chatMessages s1) = Some msg
        /\ content msg = fullText a
        /\ m_sources msg = Some (mergedSources (map yieldOf cs))
        /\ m_citations msg = Some (mergedCitations (map yieldOf cs)))
    /\ insertLog s2
       = insertLog s
         ++ [{| h_query := if isEmpty q then t "search.fileAnalysis" else q;
                h_answer := fullText a;
                h_sources := mergedSources (map yieldOf cs);
                is_deep_research := isDeepResearchMode s;
                workspace_id := selectedWorkspace s |}]
    /\ activeChat s2
       = Some {| seedQuery := q; seedAnswer := fullText a;
                 chatDeep := isDeepResearchMode s |}
    /\ exists live,
        find (fun m => Nat.eqb (id m) i) (chatMessages s2) = Some live
        /\ content live = fst (extractAndParseMarkdownTable (fullText a))
        /\ table live
           = match snd (extractAndParseMarkdownTable (fullText a)) with
             | Some x => Value x
             | None => Null
             end
        /\ m_sources live = Some (mergedSources (map yieldOf cs))
        /\ m_citations live = Some (mergedCitations (map yieldOf cs)).
Proof.
  intros s q cs Hcalls Hrej Hmodel Hchat Hfresh i a s1 s2.
  subst s2 s1 a i. rewrite run_cons.
  pose proof (submit_firstTurnView s q Hcalls Hrej Hmodel Hchat Hfresh)
    as Hview.
  destruct (submit_sole_call s q Hcalls Hrej) as (_ & Hc & Hl).
  destruct (chunks_firstTurnView cs _ _ _ _ _ _ Hc Hview)
    as (Hview' & Hc' & Hl').
  destruct (stream_end_firstTurnView _ _ _ _ _ _ Hc' Hview')
    as (Hrow & Hchat' & Hlive).
  split; [exact (proj2 Hview')|].
  split; [rewrite Hrow, Hl', Hl; reflexivity|].
  split; [exact Hchat' | exact Hlive].
Qed.

Lemma parseSources_stored l :
  orNoSources (parseSources (sourcesToJson l)) = l.
Proof.
  unfold parseSources, sourcesToJson. cbn [truthy negb].
  rewrite validSources_stored. now destruct l.
Qed.

Lemma loadChatFromHistory_frame ws item s :
  let s0 := loadChatFromHistory ws item s in
  calls s0 = calls s /\ insertLog s0 = insertLog s
  /\ isLoading s0 = false /\ activeModel s0 = gemini
  /\ isDeepResearchMode s0 = rec_deep item
  /\ activeChat s0
     = Some {| seedQuery := rec_query item; seedAnswer := rec_answer item;
               chatDeep := rec_deep item |}
  /\ chatMessages s0
     = [{| id := nextId s; role := RoleUser; content := rec_query item;
           m_sources := None; m_citations := None; table := Undefined;
           file := None; images := Undefined |};
        {| id := S (nextId s); role := RoleModel;
           content := fst (extractAndParseMarkdownTable (rec_answer item));
           m_sources := Some (orNoSources (parseSources (rec_sources item)));
           m_citations := Some [];
           table := match snd (extractAndParseMarkdownTable (rec_answer item))
                    with
                    | Some x => Value x
                    | None => Null
                    end;
           file := None; images := Undefined |}].
Proof.
  unfold loadChatFromHistory.
  destruct (extractAndParseMarkdownTable (rec_answer item))
    as [remainingText tb].
  destruct s; simpl. repeat split.
Qed.

(** X21. A stored chat that is opened again is continued, not recorded
    again: [loadChatFromHistory] shows the stored question and answer as
    two messages, selects Gemini, restores the deep-research flag of the
    stored turn and sets a chat handle seeded with that turn; the next
    submission is therefore accepted as a continuation, and whatever it
    streams, no row is sent to the history table. *)
Theorem reopened_chat_continues_without_a_row :
  forall ws item s q cs,
    calls s = [] -> isEmpty (trim q) = false ->
    let s0 := loadChatFromHistory ws item s in
    let i := S (nextId s0) in
    (exists u m,
        chatMessages s0 = [u; m]
        /\ role u = RoleUser /\ content u = rec_query item
        /\ role m = RoleModel /\ id u <> id m)
    /\ activeModel s0 = gemini
    /\ isDeepResearchMode s0 = rec_deep item
    /\ beginsNewSession s0 = false
    /\ rejectsSubmission q s0 = false
    /\ insertLog (run (Submit q :: map (Chunk i) cs ++ [StreamEnd i]) s0)
       = insertLog s.
Proof.
  intros ws item s q cs Hcalls Hq s0 i. subst i.
  destruct (loadChatFromHistory_frame ws item s)
    as (Hc0 & Hl0 & Hload0 & Hm0 & Hd0 & Hch0 & Hmsgs0).
  fold s0 in Hc0, Hl0, Hload0, Hm0, Hd0, Hch0, Hmsgs0.
  assert (Hcont : beginsNewSession s0 = false).
  { unfold beginsNewSession. now rewrite Hm0, Hch0. }
  assert (Hacc : rejectsSubmission q s0 = false).
  { unfold rejectsSubmission. now rewrite Hload0, Hq. }
  split.
  { rewrite Hmsgs0. eexists. eexists. split; [reflexivity|]. simpl.
    repeat split. lia. }
  split; [exact Hm0|]. split; [exact Hd0|]. split; [exact Hcont|].
  split; [exact Hacc|].
  assert (Hcalls0 : calls s0 = []) by congruence.
  destruct (single_turn_history s0 q cs Hcalls0 Hacc) as ((row & H) & _).
  rewrite H, Hcont, app_nil_r. exact Hl0.
Qed.

(** X22. A chat loaded from its stored row shows what the finished turn
    showed. Take the row sent at the end of a first Gemini turn that ran
    alone with a non-empty query. Loading the record stored for that row
    gives two messages: the question, and an answer with the same text,
    the same table and the same sources as the message of the live turn at
    the end of its stream. The citations are not stored: the loaded answer
    has none. *)
Theorem reloaded_chat_shows_the_finished_turn :
  forall s q cs ws s',
    calls s = [] -> rejectsSubmission q s = false -> isEmpty q = false ->
    activeModel s = gemini -> activeChat s = None ->
    Forall (fun msg => id msg < nextId s) (chatMessages s) ->
    let i := S (nextId s) in
    let s1 := run (Submit q :: map (Chunk i) cs ++ [StreamEnd i]) s in
    exists row live u m,
      insertLog s1 = insertLog s ++ [row]
      /\ find (fun x => Nat.eqb (id x) i) (chatMessages s1) = Some live
      /\ chatMessages (loadChatFromHistory ws (storedRecord row) s') = [u; m]
      /\ role u = RoleUser /\ content u = q
      /\ role m = RoleModel
      /\ content m = content live
      /\ table m = table live
      /\ m_sources m = m_sources live
      /\ m_citations m = Some []
      /\ isDeepResearchMode (loadChatFromHistory ws (storedRecord row) s')
         = isDeepResearchMode s.
Proof.
  intros s q cs ws s' Hcalls Hrej Hq Hmodel Hchat Hfresh i s1.
  subst s1 i. rewrite run_cons, run_app.
  pose proof (submit_firstTurnView s q Hcalls Hrej Hmodel Hchat Hfresh)
    as Hview.
  destruct (submit_sole_call s q Hcalls Hrej) as (_ & Hc & Hl).
  destruct (chunks_firstTurnView cs _ _ _ _ _ _ Hc Hview)
    as (Hview' & Hc' & Hl').
  destruct (stream_end_firstTurnView _ _ _ _ _ _ Hc' Hview')
    as (Hrow & _ & live & Hfind & Hcontent & Htable & Hsrc & Hcit).
  match goal with
  | |- context [run [?e] ?x] => change (run [e] x) with (step x e)
  end.
  rewrite Hq in Hrow.
  match type of Hrow with
  | _ = _ ++ [?r] => set (row := r) in *
  end.
  destruct (loadChatFromHistory_frame ws (storedRecord row) s')
    as (_ & _ & _ & _ & Hd & _ & Hmsgs).
  exists row, live. eexists. eexists.
  split; [rewrite Hrow, Hl', Hl; reflexivity|].
  split; [exact Hfind|].
  split; [exact Hmsgs|]. simpl.
  rewrite parseSources_stored, Hcontent, Htable, Hsrc.
  repeat split. exact Hd.
Qed.
End FirstTurn.

Lemma first_gemini_turn_end_to_end_witness :
  insertLog
    (demoStep (demoRun [Submit "q"; Chunk 1 (textChunk "a")] initialState)
       (StreamEnd 1))
  = [{| h_query := "q"; h_answer := "a"; h_sources := [];
        is_deep_research := false; workspace_id := None |}].
Proof.
  destruct (@first_gemini_turn_end_to_end MiniJson.builtins demoCollaborators
              initialState "q" [textChunk "a"]
              eq_refl eq_refl eq_refl eq_refl (Forall_nil _))
    as (_ & H & _).
  exact H.
Defined.

Lemma reopened_chat_continues_without_a_row_witness :
  let item := {| rec_query := "q"; rec_answer := "a"; rec_sources := JNull;
                 rec_deep := false; rec_workspace := None |} in
  let s0 := @loadChatFromHistory MiniJson.builtins demoCollaborators
              [] item initialState in
  insertLog (demoRun [Submit "more"; Chunk 3 (textChunk "b"); StreamEnd 3] s0)
  = [].
Proof.
  destruct (@reopened_chat_continues_without_a_row MiniJson.builtins
              demoCollaborators []
              {| rec_query := "q"; rec_answer := "a"; rec_sources := JNull;
                 rec_deep := false; rec_workspace := None |}
              initialState "more" [textChunk "b"] eq_refl eq_refl)
    as (_ & _ & _ & _ & _ & H).
  exact H.
Defined.

Lemma reloaded_chat_shows_the_finished_turn_witness :
  let s1 := demoRun [Submit "q"; Chunk 1 (textChunk "a"); StreamEnd 1]
              initialState in
  exists row live u m,
    insertLog s1 = [row]
    /\ find (fun x => Nat.eqb (id x) 1) (chatMessages s1) = Some live
    /\ chatMessages
         (@loadChatFromHistory MiniJson.builtins demoCollaborators
            [] (storedRecord row) initialState) = [u; m]
    /\ role u = RoleUser /\ content u = "q"
    /\ role m = RoleModel
    /\ content m = content live
    /\ table m = table live
    /\ m_sources m = m_sources live
    /\ m_citations m = Some []
    /\ isDeepResearchMode
         (@loadChatFromHistory MiniJson.builtins demoCollaborators
            [] (storedRecord row) initialState)
       = false.
Proof.
  exact (@reloaded_chat_shows_the_finished_turn MiniJson.builtins
           demoCollaborators initialState "q" [textChunk "a"] [] initialState
           eq_refl eq_refl eq_refl eq_refl eq_refl (Forall_nil _)).
Defined.

(** ** The search bar and the guard of the page *)

Lemma revString_acc s acc :
  revString s acc = (revString s "" ++ acc)%string.
Proof.
  revert acc. induction s as [|c r IH]; intros acc; [reflexivity|].
  cbn [revString]. rewrite (IH (String c acc)), (IH (String c "")).
  now rewrite append_assoc.
Qed.

Lemma revString_append a b acc :
  revString (a ++ b) acc = revString b (revString a acc).
Proof.
  revert acc. induction a as [|c r IH]; intros acc; [reflexivity|].
  cbn [append revString]. apply IH.
Qed.

Lemma revString_involutive s : revString (revString s "") "" = s.
Proof.
  induction s as [|c r IH]; [reflexivity|].
  cbn [revString]. rewrite (revString_acc r (String c "")).
  rewrite revString_append, IH. reflexivity.
Qed.

Lemma trimStart_headOK s : headOK (trimStart s) = true.
Proof.
  induction s as [|c r IH]; [reflexivity|].
  cbn [trimStart]. destruct (isSpace c) eqn:E; [exact IH|].
  cbn [headOK]. now rewrite E.
Qed.

Lemma trimStart_id s : headOK s = true -> trimStart s = s.
Proof.
  destruct s as [|c r]; [reflexivity|]. cbn [headOK trimStart].
  now destruct (isSpace c).
Qed.

Lemma trimStart_append x y :
  headOK y = true -> trimStart (x ++ y) = (trimStart x ++ y)%string.
Proof.
  intros Hy. induction x as [|c r IH].
  - now apply trimStart_id.
  - cbn [append trimStart]. now destruct (isSpace c).
Qed.

Lemma trimEnd_cons c r :
  isSpace c = false -> trimEnd (String c r) = String c (trimEnd r).
Proof.
  intros Hc. unfold trimEnd. cbn [revString].
  rewrite (revString_acc r (String c "")).
  rewrite trimStart_append by (cbn [headOK]; now rewrite Hc).
  now rewrite revString_append.
Qed.

Lemma trimEnd_headOK s : headOK s = true -> headOK (trimEnd s) = true.
Proof.
  destruct s as [|c r]; [reflexivity|]. cbn [headOK].
  intros Hc. apply negb_true_iff in Hc.
  rewrite trimEnd_cons by assumption. cbn [headOK]. now rewrite Hc.
Qed.

Lemma trimEnd_idempotent s : trimEnd (trimEnd s) = trimEnd s.
Proof.
  unfold trimEnd. rewrite revString_involutive.
  now rewrite (trimStart_id _ (trimStart_headOK _)).
Qed.

(** [s.trim().trim()] is [s.trim()]. *)
Lemma trim_idempotent s : trim (trim s) = trim s.
Proof.
  unfold trim.
  rewrite (trimStart_id _ (trimEnd_headOK _ (trimStart_headOK s))).
  apply trimEnd_idempotent.
Qed.

(** X23. The search bar and the page apply the same guard: what
    [handleSubmit] of the bar does is what [handleSendMessage] does with
    the trimmed text, so the bar forwards nothing that the page rejects.
    The send button is stricter: whenever it is enabled the submission is
    accepted, and the only submission that is accepted while the button is
    disabled is an empty text with an attachment on Mistral (the Enter key
    still sends it); its user message has no text and no file, and the
    attachment is cleared. *)
Theorem bar_and_page_guards_agree :
  forall query s,
    searchBarSubmit query s = handleSendMessage (trim query) s
    /\ (canSubmit query s = true -> rejectsSubmission (trim query) s = false)
    /\ (canSubmit query s = false ->
        rejectsSubmission (trim query) s = false ->
        activeModel s = mistral /\ trim query = ""%string
        /\ hasAttachment s = true
        /\ exists u p,
            chatMessages (searchBarSubmit query s)
            = chatMessages s ++ [u; p]
            /\ role u = RoleUser /\ content u = ""%string /\ file u = None
            /\ fileState (searchBarSubmit query s) = None).
Proof.
  intros query s.
  assert (Hsame : searchBarSubmit query s = handleSendMessage (trim query) s).
  { unfold searchBarSubmit, handleSendMessage, rejectsSubmission, hasAttachment.
    rewrite trim_idempotent.
    destruct (isLoading s); [reflexivity|].
    destruct (isEmpty (trim query)); [|reflexivity].
    destruct (fileState s); reflexivity. }
  split; [exact Hsame|]. split.
  - unfold canSubmit, rejectsSubmission, hasAttachment.
    rewrite trim_idempotent.
    destruct (isLoading s); [discriminate|].
    destruct (isEmpty (trim query)); [|reflexivity].
    destruct (fileState s); [reflexivity | discriminate].
  - rewrite Hsame. unfold canSubmit, hasAttachment.
    intros Hcan Hrej. unfold handleSendMessage. rewrite Hrej.
    unfold rejectsSubmission in Hrej. rewrite trim_idempotent in Hrej.
    destruct (isLoading s) eqn:Hl; [discriminate|].
    destruct (trim query) as [|c r] eqn:Hq; [|discriminate].
    destruct (fileState s) as [f|] eqn:Hf; [|discriminate].
    destruct (activeModel s) eqn:Hm; [discriminate|].
    split; [reflexivity|]. split; [reflexivity|]. split; [reflexivity|].
    destruct s; simpl in *; subst. simpl.
    eexists. eexists. split; [reflexivity|]. simpl. repeat split.
Qed.

Lemma bar_and_page_guards_agree_witness :
  let s := demoRun [SelectFile {| file_name := "a.txt"; file_type := "text/plain";
                                  file_size := 10 |} "a.txt";
                    ChangeModel mistral] initialState in
  canSubmit " " s = false
  /\ exists u p,
      chatMessages (searchBarSubmit " " s) = [u; p]
      /\ content u = ""%string /\ file u = None.
Proof.
  split; [reflexivity|].
  destruct (bar_and_page_guards_agree " "
              (demoRun [SelectFile {| file_name := "a.txt";
                                      file_type := "text/plain";
                                      file_size := 10 |} "a.txt";
                        ChangeModel mistral] initialState))
    as (_ & _ & H).
  destruct (H eq_refl eq_refl) as (_ & _ & _ & u & p & H1 & _ & H2 & H3 & _).
  exists u, p. repeat split; assumption.
Defined.

(** ** A click on a related query *)

Section RelatedClick.
Context `{B : Builtins} `{C : Collaborators}.

(** Called from the render of the current state, the closure is the
    handler of the session. *)
Lemma handleSendMessageOf_current s q :
  handleSendMessageOf s q s = handleSendMessage q s.
Proof.
  unfold handleSendMessageOf, handleSendMessage.
  destruct (rejectsSubmission q s); [reflexivity|].
  destruct s as [? ? ? ? ? ? ? ? ? v ? ? ? ? ? ? ? ? ?]. simpl.
  destruct v; reflexivity.
Qed.

Lemma sole_continuation_stream_end s i m :
  soleCallOn i m false s -> isRequestCancelled s = false ->
  let s' := step s (StreamEnd i) in
  calls s' = [] /\ isLoading s' = false
  /\ activeModel s' = activeModel s
  /\ activeChat s' = activeChat s
  /\ insertLog s' = insertLog s
  /\ map id (chatMessages s') = map id (chatMessages s).
Proof.
  intros (call & Hcalls & Hid & Hmodel & Hphase & Hnew) Hc.
  assert (Hfind : findCall i (calls s) = Some call).
  { unfold findCall. rewrite Hcalls. simpl. now rewrite Hid, Nat.eqb_refl. }
  simpl. unfold onStreamEnd. rewrite Hfind, Hphase, Hc, Hnew.
  rewrite andb_false_r.
  destruct (extractAndParseMarkdownTable _) as [remainingText tb].
  unfold finish, removeCall.
  destruct s; simpl in *; subst; simpl. rewrite Nat.eqb_refl. simpl.
  repeat split. now apply map_id_patchMessage.
Qed.

Lemma rendered_related_queries s l :
  renderedRelatedQueries s = Some l ->
  isLoading s = false /\ activeModel s = gemini
  /\ exists ch, activeChat s = Some ch.
Proof.
  unfold renderedRelatedQueries.
  destruct (1 <? List.length (chatMessages s))%nat; [|discriminate].
  destruct (isLoading s); [discriminate|].
  destruct (activeModel s); [|discriminate].
  destruct (activeChat s) as [ch|]; [|discriminate].
  intros _. repeat split. now exists ch.
Qed.

Lemma handleNewChat_begins s : beginsNewSession (handleNewChat s) = true.
Proof. destruct s as [? ? ? ? ? ? ? ? ? ? ? ? m ? ? ? ? ? ?]. now destruct m. Qed.

(** X24. The answer to a clicked related query is not recorded. The block
    of related queries is shown only on Gemini with a chat handle set and
    nothing loading. [handleRelatedQueryClick] resets the page and then
    calls the [handleSendMessage] of the render in which the click
    happened, which still sees that chat handle: although the page now has
    no chat handle, the submission is classified as a continuation. It is
    shown as the first turn of an empty list, it runs as the one call in
    flight, and at the end of its stream no row is sent to the history
    table and no chat handle is set, so the next submission begins a new
    session. *)
Theorem related_query_click_is_not_recorded :
  forall s l q cs,
    renderedRelatedQueries s = Some l ->
    isEmpty (trim q) = false -> calls s = [] ->
    let s1 := handleRelatedQueryClick q s in
    let i := S (nextId s) in
    let s2 := run (map (Chunk i) cs ++ [StreamEnd i]) s1 in
    beginsNewSession (handleNewChat s) = true
    /\ soleCallOn i gemini false s1
    /\ (exists u p,
           chatMessages s1 = [u; p]
           /\ role u = RoleUser /\ content u = q /\ id p = i)
    /\ insertLog s2 = insertLog s
    /\ calls s2 = []
    /\ activeChat s2 = None
    /\ beginsNewSession s2 = true.
Proof.
  intros s l q cs Hshown Hq Hcalls s1 i s2.
  destruct (rendered_related_queries s l Hshown) as (Hload & Hmodel & ch & Hch).
  assert (Hrej : rejectsSubmission q s = false).
  { unfold rejectsSubmission. now rewrite Hload, Hq. }
  assert (Hs1 : soleCallOn i gemini false s1
                /\ isRequestCancelled s1 = false
                /\ activeModel s1 = gemini /\ activeChat s1 = None
                /\ insertLog s1 = insertLog s
                /\ exists u p,
                    chatMessages s1 = [u; p]
                    /\ role u = RoleUser /\ content u = q /\ id p = i).
  { subst s1 i. unfold handleRelatedQueryClick, handleSendMessageOf.
    rewrite Hrej. unfold beginsNewSession. rewrite Hmodel, Hch.
    unfold soleCallOn.
    destruct s as [? ? ? ? ? ? ? ? ? v ? ? ? ? ? ? ? ? ?].
    simpl in *; subst.
    destruct v; simpl;
      (split; [eexists; split; [reflexivity|]; simpl; repeat split|]);
      (split; [reflexivity|]); (split; [reflexivity|]);
      (split; [reflexivity|]); (split; [reflexivity|]);
      (eexists; eexists; split; [reflexivity|]; simpl; repeat split). }
  destruct Hs1 as (Hsole & Hc & Hm1 & Hch1 & Hl1 & Hmsgs).
  destruct (chunks_soleCallOn cs s1 i gemini false Hsole Hc)
    as (Hsole' & Hc' & Hm' & Hch' & Hl' & _).
  destruct (sole_continuation_stream_end _ _ _ Hsole' Hc')
    as (Hcalls2 & _ & Hm2 & Hch2 & Hl2 & _).
  assert (Hs2 : s2 = step (run (map (Chunk i) cs) s1) (StreamEnd i)).
  { unfold s2. now rewrite run_app. }
  rewrite Hs2.
  assert (Hnone : activeChat (step (run (map (Chunk i) cs) s1) (StreamEnd i))
                  = None) by congruence.
  split; [apply handleNewChat_begins|].
  split; [exact Hsole|]. split; [exact Hmsgs|].
  split; [congruence|]. split; [exact Hcalls2|]. split; [exact Hnone|].
  unfold beginsNewSession. rewrite Hm2, Hm', Hm1, Hnone. reflexivity.
Qed.
End RelatedClick.

Lemma related_query_click_is_not_recorded_witness :
  let s := demoRun [Submit "q1"; Chunk 1 (textChunk "a"); StreamEnd 1;
                    InsertSettled 1 None; RelatedArrived 1 ["more"]]
             initialState in
  let s2 := demoRun [Chunk 3 (textChunk "b"); StreamEnd 3]
              (handleRelatedQueryClick "more" s) in
  renderedRelatedQueries s = Some ["more"]
  /\ insertLog s2 = insertLog s
  /\ activeChat s2 = None.
Proof.
  split; [reflexivity|].
  destruct (@related_query_click_is_not_recorded MiniJson.builtins
              demoCollaborators
              (demoRun [Submit "q1"; Chunk 1 (textChunk "a"); StreamEnd 1;
                        InsertSettled 1 None; RelatedArrived 1 ["more"]]
                 initialState)
              ["more"] "more" [textChunk "b"] eq_refl eq_refl eq_refl)
    as (_ & _ & _ & H1 & _ & H2 & _).
  split; [exact H1 | exact H2].
Defined.

(** ** Changing the model, and attachments *)

Section ModelAndFile.
Context `{B : Builtins} `{C : Collaborators}.

Lemma handleModelChange_frame s m :
  let s0 := step s (ChangeModel m) in
  activeModel s0 = m
  /\ chatMessages s0 = []
  /\ calls s0 = calls s
  /\ insertLog s0 = insertLog s
  /\ (m = mistral -> isDeepResearchMode s0 = false)
  /\ (chatMessages s <> [] -> activeChat s0 = None /\ isLoading s0 = false)
  /\ (chatMessages s = [] ->
      activeChat s0 = activeChat s /\ isLoading s0 = isLoading s).
Proof.
  simpl. unfold handleModelChange, handleNewChat, resetChatState.
  destruct s as [? ? ? ? msgs ? ? ? ? ? ? deep ? ? ? ? ? ? ?]. simpl.
  destruct msgs as [|x msgs]; destruct m; destruct deep; simpl;
    repeat split; intros; try reflexivity; try discriminate;
    try congruence.
Qed.

(** X25. Changing the model starts over. After [handleModelChange] the
    page shows no messages and the chosen model is active; on Mistral deep
    research is off. If the list was not empty the chat handle is gone as
    well. So, on an idle page, the next submission begins a new session
    (always on Mistral, and on Gemini whenever a conversation was open or
    no chat handle was set), and when its stream ends one row is sent to
    the history table. *)
Theorem model_change_starts_a_new_session :
  forall s m q cs,
    calls s = [] -> isLoading s = false -> isEmpty (trim q) = false ->
    (m = mistral \/ chatMessages s <> [] \/ activeChat s = None) ->
    let s0 := step s (ChangeModel m) in
    let i := S (nextId s0) in
    activeModel s0 = m
    /\ chatMessages s0 = []
    /\ (m = mistral -> isDeepResearchMode s0 = false)
    /\ beginsNewSession s0 = true
    /\ exists row,
        insertLog (run (Submit q :: map (Chunk i) cs ++ [StreamEnd i]) s0)
        = insertLog s ++ [row].
Proof.
  intros s m q cs Hcalls Hload Hq Hcase s0 i. subst i.
  destruct (handleModelChange_frame s m)
    as (Hm & Hmsgs & Hc & Hl & Hdeep & Hne & He).
  fold s0 in Hm, Hmsgs, Hc, Hl, Hdeep, Hne, He.
  assert (Hnew : beginsNewSession s0 = true).
  { unfold beginsNewSession. rewrite Hm, Hmsgs.
    destruct m; [|reflexivity].
    destruct Hcase as [Hmi|[Hmsg|Hch]]; [discriminate| |].
    - now rewrite (proj1 (Hne Hmsg)).
    - destruct (chatMessages s) as [|x r] eqn:E.
      + now rewrite (proj1 (He eq_refl)), Hch.
      + now rewrite (proj1 (Hne ltac:(discriminate))). }
  assert (Hidle : isLoading s0 = false).
  { destruct (chatMessages s) as [|x r] eqn:E.
    + now rewrite (proj2 (He eq_refl)).
    + exact (proj2 (Hne ltac:(discriminate))). }
  assert (Hacc : rejectsSubmission q s0 = false).
  { unfold rejectsSubmission. now rewrite Hidle, Hq. }
  split; [exact Hm|]. split; [exact Hmsgs|]. split; [exact Hdeep|].
  split; [exact Hnew|].
  assert (Hcalls0 : calls s0 = []) by congruence.
  destruct (single_turn_history s0 q cs Hcalls0 Hacc) as ((row & H) & _).
  exists row. now rewrite H, Hnew, Hl.
Qed.

(** X26. An attachment goes with the next message, once. A file above
    4 MiB is refused: the attachment state stays as it was and the
    file-too-large error is set. A file within the limit is attached, and on
    an idle page the next submission is then accepted whatever its text,
    even an empty one. That submission clears the attachment. Its user
    message carries the file name, type and preview on Gemini; on Mistral
    the file is dropped without notice. After [handleRemoveFile] a blank
    text is rejected again. *)
Theorem attachment_goes_with_the_next_message :
  forall s f preview q,
    let s1 := step s (SelectFile f preview) in
    ((4 * 1024 * 1024 < file_size f)%Z ->
     fileState s1 = fileState s /\ filePreview s1 = filePreview s
     /\ chatMessages s1 = chatMessages s
     /\ error s1 = Some (t "search.error.fileTooLarge"))
    /\ ((file_size f <= 4 * 1024 * 1024)%Z -> isLoading s = false ->
        let s2 := step s1 (Submit q) in
        rejectsSubmission q s1 = false
        /\ fileState s2 = None /\ filePreview s2 = None
        /\ (exists u p,
               chatMessages s2 = chatMessages s ++ [u; p]
               /\ role u = RoleUser /\ content u = q
               /\ file u
                  = match activeModel s with
                    | gemini => Some {| name := file_name f;
                                        type := file_type f;
                                        previewUrl := preview |}
                    | mistral => None
                    end
               /\ role p = RoleModel /\ file p = None)
        /\ rejectsSubmission q (handleRemoveFile s1)
           = isEmpty (trim q)).
Proof.
  intros s f preview q s1. subst s1. cbn [step]. unfold handleFileChange.
  split.
  - intros Hbig. apply Z.ltb_lt in Hbig. rewrite Hbig.
    destruct s; simpl. repeat split.
  - intros Hsmall Hload.
    assert (Hle : (4 * 1024 * 1024 <? file_size f)%Z = false)
      by (apply Z.ltb_ge; exact Hsmall).
    rewrite Hle. unfold handleSendMessage, rejectsSubmission, handleRemoveFile.
    destruct s as [? ? ? ? ? ? ? ? ? ? ? ? m ? ? ? ? ? ?].
    simpl in *; subst. rewrite andb_false_r. simpl.
    split; [reflexivity|].
    split; [now destruct (isGemini m && _)|].
    split; [now destruct (isGemini m && _)|].
    split.
    + eexists. eexists.
      split; [destruct (isGemini m && _); reflexivity|]. simpl.
      destruct m; repeat split.
    + now rewrite andb_true_r.
Qed.
End ModelAndFile.

Lemma model_change_starts_a_new_session_witness :
  let s := demoRun [Submit "q1"; Chunk 1 (textChunk "a"); StreamEnd 1;
                    InsertSettled 1 None] initialState in
  let s0 := demoStep s (ChangeModel mistral) in
  chatMessages s0 = []
  /\ exists row,
      insertLog (demoRun [Submit "q2"; Chunk 3 (textChunk "b"); StreamEnd 3] s0)
      = insertLog s ++ [row].
Proof.
  destruct (@model_change_starts_a_new_session MiniJson.builtins
              demoCollaborators
              (demoRun [Submit "q1"; Chunk 1 (textChunk "a"); StreamEnd 1;
                        InsertSettled 1 None] initialState)
              mistral "q2" [textChunk "b"] eq_refl eq_refl eq_refl
              (or_introl eq_refl))
    as (_ & H1 & _ & _ & H2).
  split; [exact H1 | exact H2].
Defined.

Lemma attachment_goes_with_the_next_message_witness :
  let f := {| file_name := "a.txt"; file_type := "text/plain";
              file_size := 10 |} in
  let s1 := demoStep initialState (SelectFile f "a.txt") in
  rejectsSubmission "" s1 = false
  /\ fileState (demoStep s1 (Submit "")) = None.
Proof.
  destruct (@attachment_goes_with_the_next_message MiniJson.builtins
              demoCollaborators initialState
              {| file_name := "a.txt"; file_type := "text/plain";
                 file_size := 10 |} "a.txt" "") as (_ & H).
  destruct (H ltac:(simpl; lia) eq_refl) as (H1 & H2 & _).
  split; [exact H1 | exact H2].
Defined.

(** ** Rewriting an answer *)

Lemma findIndex_none i l :
  (forall x, In x l -> id x <> i) -> findIndex i l = None.
Proof.
  induction l as [|m l IH]; intros Hall; [reflexivity|].
  cbn [findIndex].
  destruct (Nat.eqb_spec (id m) i) as [E|_].
  - now elim (Hall m (or_introl eq_refl)).
  - rewrite IH; [reflexivity|]. intros x Hx. apply Hall. now right.
Qed.

Lemma findIndex_first i l1 m l2 :
  (forall x, In x l1 -> id x <> i) -> id m = i ->
  findIndex i (l1 ++ m :: l2) = Some (List.length l1).
Proof.
  intros Hall Hm. induction l1 as [|x l1 IH]; cbn [app findIndex].
  - now rewrite Hm, Nat.eqb_refl.
  - destruct (Nat.eqb_spec (id x) i) as [E|_].
    + now elim (Hall x (or_introl eq_refl)).
    + rewrite IH; [reflexivity|]. intros y Hy. apply Hall. now right.
Qed.

Lemma nth_error_middle (A : Type) (l1 : list A) x l2 :
  nth_error (l1 ++ x :: l2) (List.length l1) = Some x.
Proof. induction l1 as [|y l1 IH]; [reflexivity | exact IH]. Qed.

(** X27. Rewrite never edits the conversation: [handleRewrite] leaves the
    messages shown where they are and at most appends one turn, whose user
    message repeats the text of a user message already in the list. When
    the message to rewrite is preceded by a user message, the handler is
    exactly a submission of that message's text (so it is rejected while
    loading). For the first message of the list and for an id that is not
    in the list it does nothing. *)
Theorem rewrite_resubmits_the_preceding_question :
  forall s i,
    (exists tail,
        chatMessages (handleRewrite i s) = chatMessages s ++ tail
        /\ (tail = []
            \/ exists prev u p,
                tail = [u; p]
                /\ In prev (chatMessages s) /\ role prev = RoleUser
                /\ role u = RoleUser /\ content u = content prev
                /\ role p = RoleModel /\ content p = ""%string))
    /\ (forall l1 u m l2,
           chatMessages s = l1 ++ u :: m :: l2 ->
           (forall x, In x (l1 ++ [u]) -> id x <> i) -> id m = i ->
           role u = RoleUser ->
           handleRewrite i s = handleSendMessage (content u) s)
    /\ (forall m l, chatMessages s = m :: l -> id m = i ->
                    handleRewrite i s = s)
    /\ ((forall x, In x (chatMessages s) -> id x <> i) ->
        handleRewrite i s = s).
Proof.
  intros s i. split; [|split; [|split]].
  - unfold handleRewrite.
    assert (Hsame : exists tail,
               chatMessages s = chatMessages s ++ tail
               /\ (tail = []
                   \/ exists prev u p,
                       tail = [u; p]
                       /\ In prev (chatMessages s) /\ role prev = RoleUser
                       /\ role u = RoleUser /\ content u = content prev
                       /\ role p = RoleModel /\ content p = ""%string)).
    { exists []. split; [now rewrite app_nil_r | now left]. }
    destruct (findIndex i (chatMessages s)) as [[|n]|]; try exact Hsame.
    destruct (nth_error (chatMessages s) n) as [prev|] eqn:Hnth;
      [|exact Hsame].
    destruct (role prev) eqn:Hrole; [|exact Hsame].
    unfold handleSendMessage.
    destruct (rejectsSubmission (content prev) s); [exact Hsame|].
    apply nth_error_In in Hnth.
    destruct s as [? ? ? ? msgs ? ? ? ? ? ? ? ? ? ? ? ? ? ?]. simpl in *.
    eexists. split.
    + destruct (isGemini _ && _); reflexivity.
    + right. exists prev. eexists. eexists.
      split; [reflexivity|]. simpl. repeat split; assumption.
  - intros l1 u m l2 Hmsgs Hfresh Hm Hu. unfold handleRewrite.
    rewrite Hmsgs.
    replace (l1 ++ u :: m :: l2) with ((l1 ++ [u]) ++ m :: l2)
      by now rewrite <- app_assoc.
    rewrite (findIndex_first i (l1 ++ [u]) m l2 Hfresh Hm).
    rewrite length_app, Nat.add_comm. cbn [List.length Nat.add].
    rewrite <- app_assoc. cbn [app].
    now rewrite nth_error_middle, Hu.
  - intros m l Hmsgs Hm. unfold handleRewrite. rewrite Hmsgs.
    cbn [findIndex]. now rewrite Hm, Nat.eqb_refl.
  - intros Hfresh. unfold handleRewrite.
    now rewrite (findIndex_none i (chatMessages s) Hfresh).
Qed.

Lemma rewrite_resubmits_the_preceding_question_witness :
  let s := demoRun [Submit "q"; Chunk 1 (textChunk "a"); StreamEnd 1;
                    InsertSettled 1 None] initialState in
  handleRewrite 1 s = handleSendMessage "q" s.
Proof.
  destruct (rewrite_resubmits_the_preceding_question
              (demoRun [Submit "q"; Chunk 1 (textChunk "a"); StreamEnd 1;
                        InsertSettled 1 None] initialState) 1)
    as (_ & H & _).
  refine (H [] _ _ [] eq_refl _ eq_refl eq_refl).
  intros x [<-|[]]. discriminate.
Defined.

(** ** What is resent to Mistral *)

Lemma mistralHistory_app l1 l2 :
  mistralHistory (l1 ++ l2) = mistralHistory l1 ++ mistralHistory l2.
Proof. unfold mistralHistory. now rewrite filter_app, map_app. Qed.

Lemma othersThan_fresh n (l : list ChatMessage) :
  Forall (fun msg => id msg < n) l -> othersThan (S n) l = l.
Proof.
  induction 1 as [|m l Hm _ IH]; [reflexivity|].
  unfold othersThan in *. cbn [filter].
  destruct (Nat.eqb_spec (id m) (S n)); [lia|]. cbn [negb]. now rewrite IH.
Qed.

Section MistralHistory.
Context `{B : Builtins} `{C : Collaborators}.

(** X28. What the next Mistral request resends. The history built at
    line 196 holds, in order, the role and text of every user message and
    of every model message with text, and nothing else. So after a Mistral
    turn that was stopped before any text arrived, or whose stream failed,
    the question of that turn is resent without an answer: the history
    grows by exactly that user message. *)
Theorem mistral_resends_unanswered_questions :
  (forall msgs r c,
      In (r, c) (mistralHistory msgs)
      <-> exists m,
          In m msgs /\ role m = r /\ content m = c
          /\ (r = RoleModel -> c <> ""%string))
  /\ (forall s q ending,
         activeModel s = mistral -> calls s = [] ->
         rejectsSubmission q s = false ->
         Forall (fun msg => id msg < nextId s) (chatMessages s) ->
         (ending = [Stop]
          \/ exists raw, ending = [StreamError (S (nextId s)) raw]) ->
         mistralHistory (chatMessages (run (Submit q :: ending) s))
         = mistralHistory (chatMessages s) ++ [(RoleUser, q)]).
Proof.
  split.
  - intros msgs r c. unfold mistralHistory. rewrite in_map_iff. split.
    + intros (m & Heq & Hin). apply filter_In in Hin as [Hin Hkeep].
      injection Heq as <- <-. exists m. repeat split; try assumption.
      intros Hr He. rewrite Hr, He in Hkeep. discriminate.
    + intros (m & Hin & <- & <- & Hne). exists m. split; [reflexivity|].
      apply filter_In. split; [assumption|].
      destruct (role m); [reflexivity|].
      destruct (content m); [now elim (Hne eq_refl) | reflexivity].
  - intros s q ending Hmodel Hcalls Hrej Hfresh [->|[raw ->]];
      unfold run; cbn [fold_left step].
    + unfold handleStop, handleSendMessage. rewrite Hrej.
      destruct s; simpl in *; subst. simpl.
      now rewrite mistralHistory_app.
    + unfold onStreamError, handleSendMessage, findCall. rewrite Hrej.
      destruct s; simpl in *; subst. simpl. rewrite Nat.eqb_refl. simpl.
      rewrite filter_app. cbn [filter id].
      rewrite Nat.eqb_refl.
      destruct (Nat.eqb_spec nextId0 (S nextId0)); [lia|]. cbn [negb].
      rewrite mistralHistory_app.
      pose proof (othersThan_fresh nextId0 chatMessages0 Hfresh) as Hkeep.
      unfold othersThan in Hkeep. now rewrite Hkeep.
Qed.
End MistralHistory.

Lemma mistral_resends_unanswered_questions_witness :
  let s := demoStep initialState (ChangeModel mistral) in
  mistralHistory (chatMessages (demoRun [Submit "q"; Stop] s))
  = [(RoleUser, "q")].
Proof.
  destruct (@mistral_resends_unanswered_questions MiniJson.builtins
              demoCollaborators) as (_ & H).
  exact (H (demoStep initialState (ChangeModel mistral)) "q" [Stop]
           eq_refl eq_refl eq_refl (Forall_nil _) (or_introl eq_refl)).
Defined.

(** ** Deep research and the active model *)

Section DeepResearch.
Context `{B : Builtins} `{C : Collaborators}.

Lemma deepOnly_same s s' :
  activeModel s' = activeModel s ->
  isDeepResearchMode s' = isDeepResearchMode s ->
  calls s' = calls s ->
  deepOnlyOnGemini s -> deepOnlyOnGemini s'.
Proof. unfold deepOnlyOnGemini. intros -> -> ->. tauto. Qed.

Lemma deepOnly_removeCall s s' i :
  activeModel s' = activeModel s ->
  isDeepResearchMode s' = isDeepResearchMode s ->
  calls s' = removeCall i (calls s) ->
  deepOnlyOnGemini s -> deepOnlyOnGemini s'.
Proof.
  unfold deepOnlyOnGemini. intros -> -> -> [HP HQ]. split; [exact HP|].
  unfold removeCall. rewrite Forall_forall in *. intros c Hc.
  apply filter_In in Hc as [Hc _]. now apply HQ.
Qed.

Lemma deepOnly_replaceCall s s' i call c' :
  activeModel s' = activeModel s ->
  isDeepResearchMode s' = isDeepResearchMode s ->
  calls s' = replaceCall c' (calls s) ->
  findCall i (calls s) = Some call ->
  callModel c' = callModel call -> callDeep c' = callDeep call ->
  deepOnlyOnGemini s -> deepOnlyOnGemini s'.
Proof.
  unfold deepOnlyOnGemini. intros -> -> -> Hfind Hm Hd [HP HQ].
  split; [exact HP|]. unfold replaceCall.
  apply find_some in Hfind as [Hin _].
  rewrite Forall_forall in *. intros c Hc.
  apply in_map_iff in Hc as (c0 & <- & Hc0).
  destruct (Nat.eqb _ _); [|now apply HQ].
  rewrite Hm, Hd. now apply HQ.
Qed.

Lemma deepOnly_finish s i :
  deepOnlyOnGemini s -> deepOnlyOnGemini (finish i s).
Proof.
  apply (deepOnly_removeCall s (finish i s) i); now destruct s.
Qed.

Lemma deepOnly_submit r s q :
  deepOnlyOnGemini r -> deepOnlyOnGemini s ->
  activeModel s = mistral -> isDeepResearchMode s = false ->
  deepOnlyOnGemini (handleSendMessageOf r q s).
Proof.
  intros [HPr _] [_ HQ] Hm Hd. unfold handleSendMessageOf.
  destruct (rejectsSubmission q r); [split; [intros _; exact Hd | exact HQ]|].
  unfold deepOnlyOnGemini.
  destruct s; simpl in *; subst.
  destruct (activeView r); destruct (isGemini (activeModel r) && _); simpl;
    (split; [reflexivity|]);
    (apply Forall_app; split; [exact HQ|]);
    (constructor; [exact HPr | constructor]).
Qed.

Lemma deepOnly_handleSendMessage s q :
  deepOnlyOnGemini s -> deepOnlyOnGemini (handleSendMessage q s).
Proof.
  intros [HP HQ]. unfold handleSendMessage.
  destruct (rejectsSubmission q s); [split; assumption|].
  unfold deepOnlyOnGemini.
  destruct s; simpl in *; subst.
  destruct (isGemini _ && _); simpl;
    (split; [exact HP|]);
    (apply Forall_app; split; [exact HQ|]);
    (constructor; [exact HP | constructor]).
Qed.

Lemma deepOnly_handleNewChat s :
  deepOnlyOnGemini s -> deepOnlyOnGemini (handleNewChat s).
Proof.
  intros [_ HQ]. unfold deepOnlyOnGemini.
  destruct s; simpl in *. split; [reflexivity | exact HQ].
Qed.

Lemma step_deepOnly s e :
  deepOnlyOnGemini s -> deepOnlyOnGemini (step s e).
Proof.
  intros Hinv.
  destruct e as [q| | |m|f preview|i c|i|i raw|i data|i imgs|i qs];
    cbn [step].
  - now apply deepOnly_handleSendMessage.
  - apply (deepOnly_same s); now destruct s.
  - now apply deepOnly_handleNewChat.
  - unfold handleModelChange. destruct Hinv as [HP HQ].
    unfold deepOnlyOnGemini.
    destruct s as [? ? ? ? msgs ? ? ? ? ? ? deep ? ? ? ? ? ? ?].
    simpl in *.
    destruct msgs; destruct m; destruct deep; simpl;
      (split; [intros; reflexivity || discriminate | exact HQ]).
  - unfold handleFileChange.
    destruct (_ <? _)%Z; (apply (deepOnly_same s); now destruct s).
  - unfold onChunk.
    destruct (findCall i (calls s)) as [call|] eqn:Hfind; [|exact Hinv].
    destruct (phase call); [|exact Hinv].
    destruct (isRequestCancelled s); [now apply deepOnly_finish|].
    destruct (callModel call) eqn:Hm;
      [apply (deepOnly_replaceCall s _ i call
                (withAcc (if isNewChat call
                          then mergeChunk (acc call) (yieldOf c)
                          else mergeRaw (acc call) c) call))
      |apply (deepOnly_replaceCall s _ i call
                (withAcc (mergeText (acc call) c) call))];
      try exact Hfind; try exact Hinv; try reflexivity; now destruct s.
  - unfold onStreamEnd.
    destruct (findCall i (calls s)) as [call|] eqn:Hfind; [|exact Hinv].
    destruct (phase call); [|exact Hinv].
    destruct (isRequestCancelled s); [now apply deepOnly_finish|].
    destruct (extractAndParseMarkdownTable _) as [remainingText tb].
    destruct (isNewChat call).
    + apply (deepOnly_replaceCall s _ i call (withPhase Inserting call));
        try exact Hfind; try exact Hinv; try reflexivity;
        unfold launchEnrichment; destruct (isGemini _ && _); now destruct s.
    + apply deepOnly_finish.
      apply (deepOnly_same s); [| | |exact Hinv];
        unfold launchEnrichment; destruct (isGemini _ && _); now destruct s.
  - unfold onStreamError.
    destruct (findCall i (calls s)) as [call|]; [|exact Hinv].
    destruct (phase call); [|exact Hinv].
    destruct (isRequestCancelled s); [now apply deepOnly_finish|].
    apply deepOnly_finish. apply (deepOnly_same s); now destruct s.
  - unfold onInsertSettled.
    destruct (findCall i (calls s)) as [call|]; [|exact Hinv].
    destruct (phase call); [exact Hinv|].
    apply deepOnly_finish.
    destruct data; [|exact Hinv]. apply (deepOnly_same s); now destruct s.
  - unfold onImages. destruct (existsb _ _); [|exact Hinv].
    destruct (isRequestCancelled s);
      (apply (deepOnly_same s); now destruct s).
  - unfold onRelated. destruct (existsb _ _); [|exact Hinv].
    destruct (isRequestCancelled s);
      (apply (deepOnly_same s); now destruct s).
Qed.

Lemma act_deepOnly s a :
  deepOnlyOnGemini s -> deepOnlyOnGemini (act s a).
Proof.
  intros Hinv. destruct a as [e| |ws item|i| |q|query]; cbn [act].
  - now apply step_deepOnly.
  - unfold toggleDeepResearch.
    destruct (isLoading s || negb (isGemini (activeModel s))) eqn:E;
      [exact Hinv|].
    apply orb_false_iff in E as [_ E]. apply negb_false_iff in E.
    destruct Hinv as [_ HQ]. unfold deepOnlyOnGemini.
    destruct s as [? ? ? ? ? ? ? ? ? ? ? ? m ? ? ? ? ? ?]. simpl in *.
    split; [|exact HQ]. intros ->. discriminate.
  - destruct (loadChatFromHistory_frame ws item s)
      as (Hc & _ & _ & Hm & _).
    destruct Hinv as [_ HQ]. split.
    + intros Hmi. rewrite Hm in Hmi. discriminate.
    + now rewrite Hc.
  - unfold handleRewrite.
    destruct (findIndex i (chatMessages s)) as [[|n]|]; try exact Hinv.
    destruct (nth_error (chatMessages s) n) as [prev|]; [|exact Hinv].
    destruct (role prev); [|exact Hinv].
    now apply deepOnly_handleSendMessage.
  - apply (deepOnly_same s); now destruct s.
  - unfold handleRelatedQueryClick.
    pose proof (deepOnly_handleNewChat s Hinv) as Hnew.
    unfold handleSendMessageOf.
    destruct (rejectsSubmission q s); [exact Hnew|].
    destruct Hinv as [HP HQ]. unfold deepOnlyOnGemini.
    destruct s as [? ? ? ? ? ? ? ? ? v ? ? ? ? ? ? ? ? ?]. simpl in *.
    destruct v; destruct (isGemini _ && _); simpl;
      (split; [reflexivity|]);
      (apply Forall_app; split; [exact HQ|]);
      (constructor; [exact HP | constructor]).
  - unfold searchBarSubmit. destruct (isLoading s); [exact Hinv|].
    destruct (isEmpty _ && _); [exact Hinv|].
    now apply deepOnly_handleSendMessage.
Qed.

(** X29. Deep research is a Gemini mode. Whatever the user and the
    environment do (the events of the session, the deep-research toggle
    behind its button, loading a stored chat, rewrite, removing the
    attachment, a click on a related query, a submission from the search
    bar), from the initial state on: when Mistral is the active model the
    deep-research flag is off, and no call to Mistral carries the flag, so
    no Mistral turn is stored as deep research. *)
Theorem deep_research_only_on_gemini :
  forall l,
    let s := runActions l initialState in
    (activeModel s = mistral -> isDeepResearchMode s = false)
    /\ Forall (fun c => callModel c = mistral -> callDeep c = false) (calls s).
Proof.
  intros l.
  assert (H : forall l s, deepOnlyOnGemini s ->
                          deepOnlyOnGemini (runActions l s)).
  { clear l. intros l. induction l as [|a l IH]; intros s Hs; [exact Hs|].
    apply IH. now apply act_deepOnly. }
  apply H. split; [discriminate | constructor].
Qed.
End DeepResearch.

(** ** The workspace of a recorded session *)

Section WorkspaceOfSession.
Context `{B : Builtins} `{C : Collaborators}.

Lemma submit_newTurnInFlight s q :
  calls s = [] -> rejectsSubmission q s = false ->
  beginsNewSession s = true ->
  newTurnInFlight (S (nextId s)) q (activeModel s) (isDeepResearchMode s)
    (selectedWorkspace s) emptyAcc (step s (Submit q)).
Proof.
  intros Hcalls Hrej Hnew. simpl.
  unfold handleSendMessage, newTurnInFlight. rewrite Hrej, Hnew.
  destruct s; simpl in *; subst.
  destruct (isGemini _ && true); reflexivity.
Qed.

Lemma chunk_newTurnInFlight s i q m deep ws a c :
  isRequestCancelled s = false ->
  newTurnInFlight i q m deep ws a s ->
  exists a', newTurnInFlight i q m deep ws a' (step s (Chunk i c)).
Proof.
  unfold newTurnInFlight. intros Hc Hcalls.
  simpl. unfold onChunk, findCall.
  rewrite Hcalls. simpl. rewrite Nat.eqb_refl, Hc.
  destruct m; destruct s; simpl in *; subst; rewrite Nat.eqb_refl;
    eexists; reflexivity.
Qed.

Lemma chunks_newTurnInFlight cs s i q m deep ws a :
  isRequestCancelled s = false ->
  newTurnInFlight i q m deep ws a s ->
  exists a',
    newTurnInFlight i q m deep ws a' (run (map (Chunk i) cs) s)
    /\ isRequestCancelled (run (map (Chunk i) cs) s) = false
    /\ insertLog (run (map (Chunk i) cs) s) = insertLog s.
Proof.
  revert s a. induction cs as [|c cs IH]; intros s a Hc Hview.
  - exists a. split; [exact Hview | split; [exact Hc | reflexivity]].
  - simpl map. rewrite run_cons.
    destruct (chunk_newTurnInFlight s i q m deep ws a c Hc Hview)
      as (a1 & Hview1).
    destruct (IH (step s (Chunk i c)) a1 (chunk_keeps_flag s i c Hc) Hview1)
      as (a' & H1 & H2 & H3).
    exists a'. split; [exact H1 | split; [exact H2|]].
    rewrite H3. apply insertLog_other_events. intros j; discriminate.
Qed.

Lemma stream_end_newTurnInFlight s i q m deep ws a :
  isRequestCancelled s = false ->
  newTurnInFlight i q m deep ws a s ->
  exists row,
    insertLog (step s (StreamEnd i)) = insertLog s ++ [row]
    /\ h_query row = (if isEmpty q then t "search.fileAnalysis" else q)
    /\ is_deep_research row = deep
    /\ workspace_id row = ws.
Proof.
  unfold newTurnInFlight. intros Hc Hcalls.
  assert (Hfind : findCall i (calls s)
                  = Some {| modelMessageId := i; query := q; callModel := m;
                            isNewChat := true; callDeep := deep;
                            callWorkspace := ws; acc := a;
                            phase := Streaming |}).
  { unfold findCall. rewrite Hcalls. simpl. now rewrite Nat.eqb_refl. }
  pose proof insertLog_stream_end as L.
  rewrite (L _ _ _ Hfind eq_refl), Hc. simpl.
  eexists. split; [reflexivity|]. simpl. repeat split.
Qed.

Lemma single_turn_row s q cs :
  calls s = [] -> rejectsSubmission q s = false ->
  beginsNewSession s = true ->
  let i := S (nextId s) in
  exists row,
    insertLog (run (Submit q :: map (Chunk i) cs ++ [StreamEnd i]) s)
    = insertLog s ++ [row]
    /\ h_query row = (if isEmpty q then t "search.fileAnalysis" else q)
    /\ is_deep_research row = isDeepResearchMode s
    /\ workspace_id row = selectedWorkspace s.
Proof.
  intros Hcalls Hrej Hnew i. subst i. rewrite run_cons, run_app.
  pose proof (submit_newTurnInFlight s q Hcalls Hrej Hnew) as Hview.
  destruct (submit_sole_call s q Hcalls Hrej) as (_ & Hc & Hl).
  destruct (chunks_newTurnInFlight cs _ _ _ _ _ _ _ Hc Hview)
    as (a' & Hview' & Hc' & Hl').
  destruct (stream_end_newTurnInFlight _ _ _ _ _ _ _ Hc' Hview')
    as (row & Hrow & Hq & Hd & Hw).
  exists row.
  match goal with
  | |- context [run [?e] ?x] => change (run [e] x) with (step x e)
  end.
  rewrite Hrow, Hl', Hl. repeat split; assumption.
Qed.

(** X30. A session is recorded in the workspace it was started from. After
    a workspace is selected and a new chat is opened from its page
    ([handleNewChatInWorkspace]), the first turn on an idle page begins a
    new session, and the row sent at the end of its stream carries the id of
    that workspace, on either model. A new chat opened with [handleNewChat]
    instead, or after going back to the list of workspaces, is recorded
    without a workspace. *)
Theorem session_is_recorded_in_its_workspace :
  forall s w q cs,
    calls s = [] -> isEmpty (trim q) = false -> isEmpty w = false ->
    let inWorkspace := handleNewChatInWorkspace (handleSelectWorkspace w s) in
    let plain := handleNewChat (handleSelectWorkspace w s) in
    let back := handleNewChatInWorkspace
                  (handleBackToWorkspaces (handleSelectWorkspace w s)) in
    let turn x := run (Submit q :: map (Chunk (S (nextId x))) cs
                         ++ [StreamEnd (S (nextId x))]) x in
    (exists row,
        insertLog (turn inWorkspace) = insertLog s ++ [row]
        /\ h_query row = q /\ workspace_id row = Some w)
    /\ (exists row,
           insertLog (turn plain) = insertLog s ++ [row]
           /\ h_query row = q /\ workspace_id row = None)
    /\ (exists row,
           insertLog (turn back) = insertLog s ++ [row]
           /\ h_query row = q /\ workspace_id row = None).
Proof.
  intros s w q cs Hcalls Hq Hw inWorkspace plain back turn.
  assert (Hqne : isEmpty q = false).
  { destruct q; [discriminate | reflexivity]. }
  assert (Hstart : forall x,
             calls x = [] -> isLoading x = false ->
             chatMessages x = [] -> activeChat x = None ->
             exists row,
               insertLog (turn x) = insertLog x ++ [row]
               /\ h_query row = q
               /\ workspace_id row = selectedWorkspace x).
  { intros x Hc Hl Hm Hch.
    assert (Hrej : rejectsSubmission q x = false).
    { unfold rejectsSubmission. now rewrite Hl, Hq. }
    assert (Hnew : beginsNewSession x = true).
    { unfold beginsNewSession. rewrite Hm, Hch. now destruct (activeModel x). }
    destruct (single_turn_row x q cs Hc Hrej Hnew)
      as (row & Hrow & Hrq & _ & Hrw).
    exists row. rewrite Hqne in Hrq. repeat split; assumption. }
  split; [|split].
  - destruct (Hstart inWorkspace) as (row & H1 & H2 & H3);
      try (subst inWorkspace; destruct s; simpl in *; now subst).
    exists row. split; [|split; [exact H2|]].
    + rewrite H1. subst inWorkspace. now destruct s.
    + rewrite H3. subst inWorkspace. now destruct s.
  - destruct (Hstart plain) as (row & H1 & H2 & H3);
      try (subst plain; destruct s; simpl in *; now subst).
    exists row. split; [|split; [exact H2|]].
    + rewrite H1. subst plain. now destruct s.
    + rewrite H3. subst plain. now destruct s.
  - destruct (Hstart back) as (row & H1 & H2 & H3);
      try (subst back; destruct s; simpl in *; now subst).
    exists row. split; [|split; [exact H2|]].
    + rewrite H1. subst back. now destruct s.
    + rewrite H3. subst back. now destruct s.
Qed.
End WorkspaceOfSession.

Lemma session_is_recorded_in_its_workspace_witness :
  let s0 := handleNewChatInWorkspace (handleSelectWorkspace "w1" initialState) in
  exists row,
    insertLog (demoRun [Submit "q"; Chunk 1 (textChunk "a"); StreamEnd 1] s0)
    = [row]
    /\ h_query row = "q" /\ workspace_id row = Some "w1".
Proof.
  destruct (@session_is_recorded_in_its_workspace MiniJson.builtins
              demoCollaborators initialState "w1" "q" [textChunk "a"]
              eq_refl eq_refl eq_refl) as (H & _).
  exact H.
Defined.
